(** * Task-Agent: the conversation-and-task store of [src/index.tsx]

    A shallow embedding of the state-carrying part of the chat client:
    the persisted [AppState], the handlers that mutate it, the reconciliation
    of a streamed model reply, and the checklist markup kept inside a task's
    notes.  DOM construction, Markdown rendering and sanitising are external
    to the store; of the page only what the handlers read back or what tells
    the rendered chat apart from the persisted history is kept. *)

From Stdlib Require Import List NArith ZArith String Ascii Bool Lia DecimalString.
Import ListNotations.

(** ** JavaScript strings

    A JavaScript string is a sequence of UTF-16 code units.  Literals of the
    source are all ASCII and are written with [js]. *)

Definition jsstring := list N.

Definition js (s : string) : jsstring :=
  map N_of_ascii (list_ascii_of_string s).

Fixpoint jsstring_eqb (a b : jsstring) : bool :=
  match a, b with
  | [], [] => true
  | x :: a', y :: b' => N.eqb x y && jsstring_eqb a' b'
  | _, _ => false
  end.

(** [!s] for a string: only the empty string is falsy. *)
Definition truthy (s : jsstring) : bool :=
  match s with [] => false | _ :: _ => true end.

(** [`${n}`] for a non-negative integer. *)
Definition decimal (n : N) : jsstring :=
  js (NilEmpty.string_of_uint (N.to_uint n)).

Module Str.

(** ECMAScript [LineTerminator]: LF, CR, LS, PS. *)
Definition isLineTerminator (c : N) : bool :=
  (c =? 10)%N || (c =? 13)%N || (c =? 8232)%N || (c =? 8233)%N.

(** ECMAScript [WhiteSpace]: TAB, VT, FF, SP, NBSP, the Zs category and
    the byte order mark. *)
Definition isWhiteSpace (c : N) : bool :=
  (c =? 9)%N || (c =? 11)%N || (c =? 12)%N || (c =? 32)%N || (c =? 160)%N
  || (c =? 5760)%N || ((8192 <=? c)%N && (c <=? 8202)%N)
  || (c =? 8239)%N || (c =? 8287)%N || (c =? 12288)%N || (c =? 65279)%N.

(** What [String.prototype.trim] strips. *)
Definition isTrimmed (c : N) : bool := isWhiteSpace c || isLineTerminator c.

Fixpoint trimStart (s : jsstring) : jsstring :=
  match s with
  | [] => []
  | c :: r => if isTrimmed c then trimStart r else s
  end.

Definition trimEnd (s : jsstring) : jsstring := rev (trimStart (rev s)).

Definition trim (s : jsstring) : jsstring := trimEnd (trimStart s).

Fixpoint startsWith (s p : jsstring) {struct p} : bool :=
  match p, s with
  | [], _ => true
  | _ :: _, [] => false
  | y :: p', x :: s' => N.eqb x y && startsWith s' p'
  end.

(** [s.split('\n')]: never empty, [''.split('\n')] is [['']]. *)
Fixpoint split (s : jsstring) : list jsstring :=
  match s with
  | [] => [[]]
  | c :: r =>
      if (c =? 10)%N then [] :: split r
      else match split r with
           | l :: ls => (c :: l) :: ls
           | [] => [[c]]
           end
  end.

(** [lines.join('\n')]. *)
Fixpoint join (lines : list jsstring) : jsstring :=
  match lines with
  | [] => []
  | [l] => l
  | l :: ls => l ++ 10%N :: join ls
  end.

(** [s.replace(pat, rep)] with a string pattern: the first occurrence
    only, and the string itself when there is none.  The replacements of
    the source have no [$], so they are inserted literally. *)
Fixpoint replace (s pat rep : jsstring) : jsstring :=
  if startsWith s pat then rep ++ skipn (List.length pat) s
  else match s with
       | [] => []
       | c :: r => c :: replace r pat rep
       end.

(** [s.replace(/QUOTE/g, '')], QUOTE being the double quote (code
    unit 34): every occurrence is removed. *)
Definition stripQuotes (s : jsstring) : jsstring :=
  filter (fun c => negb (c =? 34)%N) s.

End Str.

(** ** JavaScript objects used as maps

    [Record<string, V>]: the own properties of an object, in the order
    [Object.keys] lists them.  The keys of the program are conversation ids,
    [convo_<ms>]: they are never array indices, so that order is the order
    of creation (assigning to an existing key keeps its place, assigning to
    a new key appends, [delete] removes), and they are never names that
    [Object.prototype] defines, so [k in r] is the test for an own
    property. *)

Section JsRecord.
Variable V : Type.

Definition JsRecord := list (jsstring * V).

(** The own property [k], if there is one. *)
Fixpoint rec_get (r : JsRecord) (k : jsstring) : option V :=
  match r with
  | [] => None
  | (k', v) :: r' => if jsstring_eqb k' k then Some v else rec_get r' k
  end.

(** [k in r]. *)
Definition rec_has (r : JsRecord) (k : jsstring) : bool :=
  match rec_get r k with Some _ => true | None => false end.

(** [r[k] = v]. *)
Fixpoint rec_set (r : JsRecord) (k : jsstring) (v : V) : JsRecord :=
  match r with
  | [] => [(k, v)]
  | (k', v') :: r' =>
      if jsstring_eqb k' k then (k', v) :: r' else (k', v') :: rec_set r' k v
  end.

(** [delete r[k]]. *)
Definition rec_delete (r : JsRecord) (k : jsstring) : JsRecord :=
  filter (fun kv => negb (jsstring_eqb (fst kv) k)) r.

(** [Object.keys(r)]. *)
Definition rec_keys (r : JsRecord) : list jsstring := map fst r.

End JsRecord.

Arguments rec_get {V} r k.
Arguments rec_has {V} r k.
Arguments rec_set {V} r k v.
Arguments rec_delete {V} r k.
Arguments rec_keys {V} r.

(** ** Data model (the type definitions of the source) *)

Module GroundingChunkWeb.
Record t := mk { uri : option jsstring; title : option jsstring }.
End GroundingChunkWeb.

Module GroundingChunk.
Record t := mk { web : option GroundingChunkWeb.t }.
End GroundingChunk.

Inductive Role := user | model.

Module HistoryEntry.
Record t := mk {
  role : Role;
  text : jsstring;
  groundingChunks : option (list GroundingChunk.t)
}.
End HistoryEntry.

Module Conversation.
Record t := mk {
  id : jsstring;
  title : jsstring;
  history : list HistoryEntry.t;
  customInstructions : jsstring;
  createdAt : N
}.
End Conversation.

Inductive TaskStatus := todo | in_progress | done.
Inductive TaskPriority := low | medium | high.

Module Task.
Record t := mk {
  id : jsstring;
  title : jsstring;
  notes : jsstring;
  status : TaskStatus;
  priority : TaskPriority;
  dueDate : option jsstring;
  createdAt : N;
  sourceConversationId : option jsstring;
  sourceMessageText : option jsstring
}.
End Task.

Module AppSettings.
Record t := mk {
  nickname : jsstring;
  customInstructions : jsstring;
  agentName : jsstring;
  agentAvatarUrl : jsstring;
  searchArchived : bool;
  isSidebarPinned : bool
}.
End AppSettings.

(** A property of [conversations] or [archivedConversations] holds a
    conversation or, after archiving an id that was in neither map,
    [undefined] ([None]). *)
Definition Conversations := JsRecord (option Conversation.t).

Module AppState.
Record t := mk {
  conversations : Conversations;
  archivedConversations : Conversations;
  activeConversationId : option jsstring;
  tasks : list Task.t;
  settings : AppSettings.t
}.
End AppState.

(** [r[id]]: [undefined] when the key is missing or holds [undefined]. *)
Definition rec_read (r : Conversations) (id : jsstring) : option Conversation.t :=
  match rec_get r id with Some v => v | None => None end.

(** [!state.activeConversationId] is false: a non-empty string. *)
Definition isSet (a : option jsstring) : bool :=
  match a with Some s => truthy s | None => false end.

(** The property key a [string | null] is coerced to in [r[a]]. *)
Definition keyOf (a : option jsstring) : jsstring :=
  match a with Some s => s | None => js "null" end.

(** [a === id] for [a : string | null] and [id : string]. *)
Definition sameId (a : option jsstring) (id : jsstring) : bool :=
  match a with Some s => jsstring_eqb s id | None => false end.

(** ** The page around the store *)

(** The session made by [ai.chats.create]. *)
Module Chat.
Record t := mk {
  history : list (Role * jsstring);
  systemInstruction : option jsstring
}.
End Chat.

(** A child of [#chat-history] made by [appendMessage]: the Markdown source
    of the message body and the chunks of its sources block, if it has one. *)
Module MessageGroup.
Record t := mk {
  role : Role;
  body : jsstring;
  sources : option (list GroundingChunk.t)
}.
End MessageGroup.

Inductive ToastType := success | error | info.

(** The fire-and-forget calls of [handleFormSubmit]. *)
Inductive Workflow :=
| TitleSynthesis (convoId : jsstring)
| TaskSuggestion (convoId : jsstring).

Module World.
Record t := mk {
  state : AppState.t;
  ai : bool;                      (* [ai] has been constructed *)
  chat : option Chat.t;
  editingTaskId : option jsstring;
  chatHistoryElement : list MessageGroup.t;
  toasts : list (jsstring * ToastType);
  storage : list AppState.t;      (* the values written under STORAGE_KEY, newest first *)
  inflight : list Workflow;
  chatsCreateOk : bool            (* [ai.chats.create] returns rather than throws *)
}.
End World.

(** Field updates. *)

Definition with_conversations (c : Conversations) (s : AppState.t) : AppState.t :=
  AppState.mk c (AppState.archivedConversations s) (AppState.activeConversationId s)
              (AppState.tasks s) (AppState.settings s).

Definition with_archivedConversations (c : Conversations) (s : AppState.t) : AppState.t :=
  AppState.mk (AppState.conversations s) c (AppState.activeConversationId s)
              (AppState.tasks s) (AppState.settings s).

Definition with_activeConversationId (a : option jsstring) (s : AppState.t) : AppState.t :=
  AppState.mk (AppState.conversations s) (AppState.archivedConversations s) a
              (AppState.tasks s) (AppState.settings s).

Definition with_tasks (ts : list Task.t) (s : AppState.t) : AppState.t :=
  AppState.mk (AppState.conversations s) (AppState.archivedConversations s)
              (AppState.activeConversationId s) ts (AppState.settings s).

Definition with_settings (x : AppSettings.t) (s : AppState.t) : AppState.t :=
  AppState.mk (AppState.conversations s) (AppState.archivedConversations s)
              (AppState.activeConversationId s) (AppState.tasks s) x.

Definition with_state (s : AppState.t) (w : World.t) : World.t :=
  World.mk s (World.ai w) (World.chat w) (World.editingTaskId w)
           (World.chatHistoryElement w) (World.toasts w) (World.storage w)
           (World.inflight w) (World.chatsCreateOk w).

Definition with_chat (c : option Chat.t) (w : World.t) : World.t :=
  World.mk (World.state w) (World.ai w) c (World.editingTaskId w)
           (World.chatHistoryElement w) (World.toasts w) (World.storage w)
           (World.inflight w) (World.chatsCreateOk w).

Definition with_editingTaskId (e : option jsstring) (w : World.t) : World.t :=
  World.mk (World.state w) (World.ai w) (World.chat w) e
           (World.chatHistoryElement w) (World.toasts w) (World.storage w)
           (World.inflight w) (World.chatsCreateOk w).

Definition with_chatHistoryElement (v : list MessageGroup.t) (w : World.t) : World.t :=
  World.mk (World.state w) (World.ai w) (World.chat w) (World.editingTaskId w)
           v (World.toasts w) (World.storage w)
           (World.inflight w) (World.chatsCreateOk w).

Definition with_toasts (t : list (jsstring * ToastType)) (w : World.t) : World.t :=
  World.mk (World.state w) (World.ai w) (World.chat w) (World.editingTaskId w)
           (World.chatHistoryElement w) t (World.storage w)
           (World.inflight w) (World.chatsCreateOk w).

Definition with_storage (s : list AppState.t) (w : World.t) : World.t :=
  World.mk (World.state w) (World.ai w) (World.chat w) (World.editingTaskId w)
           (World.chatHistoryElement w) (World.toasts w) s
           (World.inflight w) (World.chatsCreateOk w).

Definition with_inflight (f : list Workflow) (w : World.t) : World.t :=
  World.mk (World.state w) (World.ai w) (World.chat w) (World.editingTaskId w)
           (World.chatHistoryElement w) (World.toasts w) (World.storage w)
           f (World.chatsCreateOk w).

(** ** State management and rendering *)

(** [localStorage.setItem(STORAGE_KEY, JSON.stringify(state))]. *)
Definition saveState (w : World.t) : World.t :=
  with_storage (World.state w :: World.storage w) w.

(** [showNotification(message, type)]. *)
Definition showNotification (message : jsstring) (type : ToastType) (w : World.t) : World.t :=
  with_toasts (World.toasts w ++ [(message, type)]) w.

(** [appendMessage(role, text, groundingChunks)]: one more child of
    [#chat-history]; a model message with at least one chunk gets a sources
    block.  It does not touch [state]. *)
Definition appendMessage (role : Role) (text : jsstring)
    (groundingChunks : option (list GroundingChunk.t)) (w : World.t) : World.t :=
  let sources :=
    match role, groundingChunks with
    | model, Some (c :: cs) => Some (c :: cs)
    | _, _ => None
    end in
  with_chatHistoryElement
    (World.chatHistoryElement w ++ [MessageGroup.mk role text sources]) w.

Definition CHAT_SESSION_ERROR : jsstring :=
  js "Error: Could not start new chat session.".

Definition setupConversation (w : World.t) : World.t :=
  let st := World.state w in
  match rec_read (AppState.conversations st) (keyOf (AppState.activeConversationId st)) with
  | Some activeConvo =>
      if World.ai w then
        if World.chatsCreateOk w then
          with_chat
            (Some (Chat.mk
                     (map (fun entry => (HistoryEntry.role entry, HistoryEntry.text entry))
                          (Conversation.history activeConvo))
                     (if truthy (Conversation.customInstructions activeConvo)
                      then Some (Conversation.customInstructions activeConvo)
                      else None)))
            w
        else appendMessage model CHAT_SESSION_ERROR None w
      else with_chat None w
  | None => with_chat None w
  end.

Definition showWelcomeScreen (w : World.t) : World.t :=
  with_chatHistoryElement [] w.

Definition renderActiveConversation (w : World.t) : World.t :=
  let st := World.state w in
  match rec_read (AppState.conversations st) (keyOf (AppState.activeConversationId st)) with
  | None => showWelcomeScreen w
  | Some convo =>
      let shown :=
        fold_left
          (fun w' entry =>
             appendMessage (HistoryEntry.role entry) (HistoryEntry.text entry)
                           (HistoryEntry.groundingChunks entry) w')
          (Conversation.history convo)
          (with_chatHistoryElement [] w) in
      setupConversation shown
  end.

Definition updateSidebarPinnedState (isPinned : bool) (w : World.t) : World.t :=
  let st := World.state w in
  let s := AppState.settings st in
  let s' := AppSettings.mk (AppSettings.nickname s) (AppSettings.customInstructions s)
                           (AppSettings.agentName s) (AppSettings.agentAvatarUrl s)
                           (AppSettings.searchArchived s) isPinned in
  saveState (with_state (with_settings s' st) w).

(** The test of [renderApp]:
    [state.activeConversationId && state.conversations[state.activeConversationId]]. *)
Definition hasActiveConversation (st : AppState.t) : bool :=
  isSet (AppState.activeConversationId st)
  && match rec_read (AppState.conversations st)
                    (keyOf (AppState.activeConversationId st)) with
     | Some _ => true
     | None => false
     end.

Definition renderApp (w : World.t) : World.t :=
  let st := World.state w in
  let w1 :=
    if hasActiveConversation st
    then renderActiveConversation w
    else showWelcomeScreen w in
  updateSidebarPinnedState
    (AppSettings.isSidebarPinned (AppState.settings (World.state w1))) w1.

(** ** Conversation management *)

(** [startNewChat(shouldRender)]; [tId] and [tCreated] are its two readings
    of [Date.now()]. *)
Definition startNewChat (shouldRender : bool) (tId tCreated : N) (w : World.t)
  : jsstring * World.t :=
  let st := World.state w in
  let newId := js "convo_" ++ decimal tId in
  let newConversation :=
    Conversation.mk newId (js "New Chat") []
                    (AppSettings.customInstructions (AppState.settings st)) tCreated in
  let st1 := with_conversations
               (rec_set (AppState.conversations st) newId (Some newConversation)) st in
  let st2 := with_activeConversationId (Some newId) st1 in
  let w1 := saveState (with_state st2 w) in
  (newId, if shouldRender then renderApp w1 else w1).

Definition selectConversation (id : jsstring) (w : World.t) : World.t :=
  let st := World.state w in
  if sameId (AppState.activeConversationId st) id then w
  else renderApp (saveState (with_state (with_activeConversationId (Some id) st) w)).

(** [remainingIds.length > 0 ? remainingIds[0] : null]. *)
Definition firstKey (r : Conversations) : option jsstring :=
  match rec_keys r with
  | k :: _ => Some k
  | [] => None
  end.

(** [deleteConversation(id, isArchived)]; [confirmed] is the answer to its
    [confirm] dialog. *)
Definition deleteConversation (id : jsstring) (isArchived confirmed : bool)
    (w : World.t) : World.t :=
  if negb confirmed then w
  else
    let st := World.state w in
    let st1 :=
      if isArchived
      then with_archivedConversations (rec_delete (AppState.archivedConversations st) id) st
      else with_conversations (rec_delete (AppState.conversations st) id) st in
    let st2 :=
      if sameId (AppState.activeConversationId st1) id
      then with_activeConversationId (firstKey (AppState.conversations st1)) st1
      else st1 in
    renderApp (saveState (with_state st2 w)).

Definition toggleArchiveConversation (id : jsstring) (w : World.t) : World.t :=
  let st := World.state w in
  let isArchived := rec_has (AppState.archivedConversations st) id in
  let st' :=
    if isArchived then
      let convo := rec_read (AppState.archivedConversations st) id in
      let st1 := with_archivedConversations
                   (rec_delete (AppState.archivedConversations st) id) st in
      let st2 := with_conversations (rec_set (AppState.conversations st1) id convo) st1 in
      if negb (isSet (AppState.activeConversationId st2))
      then with_activeConversationId (Some id) st2
      else st2
    else
      let convo := rec_read (AppState.conversations st) id in
      let st1 := with_conversations (rec_delete (AppState.conversations st) id) st in
      let st2 := with_archivedConversations
                   (rec_set (AppState.archivedConversations st1) id convo) st1 in
      if sameId (AppState.activeConversationId st2) id
      then with_activeConversationId (firstKey (AppState.conversations st2)) st2
      else st2 in
  renderApp (saveState (with_state st' w)).

(** ** Core chat logic *)

(** What the backend delivers: a chunk of the stream, with the optional
    members [handleFormSubmit] reads. *)
Module GroundingMetadata.
Record t := mk { groundingChunks : option (list GroundingChunk.t) }.
End GroundingMetadata.

Module Candidate.
Record t := mk { groundingMetadata : option GroundingMetadata.t }.
End Candidate.

Module Chunk.
Record t := mk {
  text : option jsstring;              (* [undefined] when the chunk has no text part *)
  candidates : option (list Candidate.t)
}.
End Chunk.

(** [chunk.candidates?.[0]?.groundingMetadata?.groundingChunks]. *)
Definition chunkGrounding (chunk : Chunk.t) : option (list GroundingChunk.t) :=
  match Chunk.candidates chunk with
  | Some (c :: _) =>
      match Candidate.groundingMetadata c with
      | Some m => GroundingMetadata.groundingChunks m
      | None => None
      end
  | _ => None
  end.

(** [s += v] for [v : string | undefined]. *)
Definition textOf (v : option jsstring) : jsstring :=
  match v with Some s => s | None => js "undefined" end.

(** The two locals of the [for await] loop. *)
Module Reply.
Record t := mk {
  modelResponse : jsstring;
  groundingChunks : list GroundingChunk.t
}.
End Reply.

(** One turn of the loop.  An array is truthy whatever its length, so any
    chunk that carries a [groundingChunks] array replaces the local. *)
Definition receive (acc : Reply.t) (chunk : Chunk.t) : Reply.t :=
  Reply.mk (Reply.modelResponse acc ++ textOf (Chunk.text chunk))
           (match chunkGrounding chunk with
            | Some g => g
            | None => Reply.groundingChunks acc
            end).

Definition receiveAll (chunks : list Chunk.t) : Reply.t :=
  fold_left receive chunks (Reply.mk [] []).

(** The outcome of [chat.sendMessageStream] and of iterating its result:
    the call is rejected, or the stream yields [chunks] and then ends
    ([completes]) or throws. *)
Inductive SendResult :=
| SendRejected
| Streamed (chunks : list Chunk.t) (completes : bool).

Definition ERROR_REPLY : jsstring :=
  js "Sorry, I encountered an error. Please try again.".

(** The cursor glyph U+258C shown after the text received so far. *)
Definition CURSOR : jsstring := [9612%N].

(** [activeConvo.history.push(entry)], [activeConvo] being the object held
    under [convoId]. *)
Definition pushHistory (convoId : jsstring) (entry : HistoryEntry.t) (w : World.t) : World.t :=
  let st := World.state w in
  match rec_read (AppState.conversations st) convoId with
  | Some c =>
      let c' := Conversation.mk (Conversation.id c) (Conversation.title c)
                                (Conversation.history c ++ [entry])
                                (Conversation.customInstructions c)
                                (Conversation.createdAt c) in
      with_state (with_conversations
                    (rec_set (AppState.conversations st) convoId (Some c')) st) w
  | None => w
  end.

Definition fire (f : Workflow) (w : World.t) : World.t :=
  with_inflight (World.inflight w ++ [f]) w.

(** The transient message of a reply: empty when created, then the text so
    far followed by the cursor. *)
Definition transientBody (chunks : list Chunk.t) : jsstring :=
  match chunks with
  | [] => []
  | _ :: _ => Reply.modelResponse (receiveAll chunks) ++ CURSOR
  end.

(** [handleFormSubmit], run to its end without another handler in between.
    [input] is [chatInput.value], [reply] what the backend does with the
    message.  [None] is the uncaught [TypeError] of reading [history] of a
    conversation that is not in [state.conversations].  The typing indicator
    and the enabling of the input are left out. *)
Definition handleFormSubmit (input : jsstring) (tId tCreated : N) (reply : SendResult)
    (w : World.t) : option World.t :=
  let userMessage := Str.trim input in
  if negb (truthy userMessage) || negb (World.ai w) then Some w
  else
    let '(currentConvoId, w0) :=
      match AppState.activeConversationId (World.state w) with
      | Some a => if truthy a then (a, w) else startNewChat false tId tCreated w
      | None => startNewChat false tId tCreated w
      end in
    match rec_read (AppState.conversations (World.state w0)) currentConvoId with
    | None => None
    | Some activeConvo =>
        let isFirstMessage := Nat.eqb (List.length (Conversation.history activeConvo)) 0 in
        let w1 := appendMessage user userMessage None w0 in
        let w2 := pushHistory currentConvoId (HistoryEntry.mk user userMessage None) w1 in
        let w3 := if isFirstMessage then setupConversation w2 else w2 in
        let w4 := saveState w3 in
        (* try *)
        let w5 := match World.chat w4 with
                  | None => setupConversation w4
                  | Some _ => w4
                  end in
        match World.chat w5, reply with
        | None, _ => Some (appendMessage model ERROR_REPLY None w5)
        | Some _, SendRejected => Some (appendMessage model ERROR_REPLY None w5)
        | Some _, Streamed chunks false =>
            let w6 := appendMessage model (transientBody chunks) None w5 in
            (* catch *)
            Some (appendMessage model ERROR_REPLY None w6)
        | Some _, Streamed chunks true =>
            let r := receiveAll chunks in
            let w6 := appendMessage model (Reply.modelResponse r)
                                    (Some (Reply.groundingChunks r)) w5 in
            let w7 := pushHistory currentConvoId
                        (HistoryEntry.mk model (Reply.modelResponse r)
                                         (Some (Reply.groundingChunks r))) w6 in
            let w8 := if isFirstMessage then fire (TitleSynthesis currentConvoId) w7 else w7 in
            let w9 := saveState w8 in
            Some (fire (TaskSuggestion currentConvoId) w9)
        end
    end.

(** [generateConversationTitle(convoId)] with the outcome of its model call:
    [Some text] is [response.text], [None] a call that throws.  The guard is
    checked when the function is called and the title written when the call
    returns; here both happen at once. *)
Definition generateConversationTitle (convoId : jsstring) (response : option jsstring)
    (w : World.t) : World.t :=
  let st := World.state w in
  match rec_read (AppState.conversations st) convoId with
  | None => w
  | Some convo =>
      if Nat.ltb (List.length (Conversation.history convo)) 2 then w
      else
        match response with
        | Some text =>
            let title := Str.stripQuotes (Str.trim text) in
            let convo' := Conversation.mk (Conversation.id convo) title
                                          (Conversation.history convo)
                                          (Conversation.customInstructions convo)
                                          (Conversation.createdAt convo) in
            saveState
              (with_state
                 (with_conversations
                    (rec_set (AppState.conversations st) convoId (Some convo')) st) w)
        | None => w   (* catch: console.error only *)
        end
  end.

(** ** Task management *)

(** The regular expression of [parseAndRenderSubtasks], anchored at the
    start only: dash, space, opening bracket, a space or an x (group 1),
    closing bracket, space, then as many characters other than line
    terminators as follow (group 2).  The result holds [match[1] === 'x']
    and [match[2]]. *)
Fixpoint untilLineTerminator (s : jsstring) : jsstring :=
  match s with
  | [] => []
  | c :: r => if Str.isLineTerminator c then [] else c :: untilLineTerminator r
  end.

Definition matchSubtask (trimmedLine : jsstring) : option (bool * jsstring) :=
  match trimmedLine with
  | 45 :: 32 :: 91 :: m :: 93 :: 32 :: rest =>
      if (m =? 32)%N then Some (false, untilLineTerminator rest)
      else if (m =? 120)%N then Some (true, untilLineTerminator rest)
      else None
  | _ => None
  end%N.

(** One [<li>] of the checklist: its [data-subtask-index], whether its box
    is checked, and its label. *)
Module SubtaskItem.
Record t := mk { subtaskIndex : nat; isChecked : bool; label : jsstring }.
End SubtaskItem.

Module Subtasks.
Record t := mk { items : list SubtaskItem.t; completed : nat; total : nat }.
End Subtasks.

Fixpoint parseLines (lines : list jsstring) (acc : Subtasks.t) (subtaskIndex : nat)
  : Subtasks.t :=
  match lines with
  | [] => acc
  | line :: rest =>
      match matchSubtask (Str.trim line) with
      | Some (isChecked, text) =>
          parseLines rest
            (Subtasks.mk (Subtasks.items acc ++ [SubtaskItem.mk subtaskIndex isChecked text])
                         (if isChecked then S (Subtasks.completed acc)
                          else Subtasks.completed acc)
                         (S (Subtasks.total acc)))
            (S subtaskIndex)
      | None => parseLines rest acc subtaskIndex
      end
  end.

(** [parseAndRenderSubtasks(task)], the markup being the list of its items. *)
Definition parseAndRenderSubtasks (task : Task.t) : Subtasks.t :=
  parseLines (Str.split (Task.notes task)) (Subtasks.mk [] 0 0) 0.

(** The loop of the [change] listener that [main] puts on [tasksList]:
    [currentSubtask] counts the lines whose trimmed form starts with the
    three characters dash, space, opening bracket. *)
Fixpoint toggleLines (lines : list jsstring) (currentSubtask subtaskIndex : Z)
    (checked : bool) : list jsstring :=
  match lines with
  | [] => []
  | line :: rest =>
      if Str.startsWith (Str.trim line) (js "- [") then
        let currentSubtask := (currentSubtask + 1)%Z in
        if (currentSubtask =? subtaskIndex)%Z then
          (if checked
           then Str.replace line (js "[ ]") (js "[x]")
           else Str.replace line (js "[x]") (js "[ ]")) :: rest
        else line :: toggleLines rest currentSubtask subtaskIndex checked
      else line :: toggleLines rest currentSubtask subtaskIndex checked
  end.

Definition toggleNotes (notes : jsstring) (subtaskIndex : Z) (checked : bool) : jsstring :=
  Str.join (toggleLines (Str.split notes) (-1) subtaskIndex checked).

Definition with_notes (notes : jsstring) (t : Task.t) : Task.t :=
  Task.mk (Task.id t) (Task.title t) notes (Task.status t) (Task.priority t)
          (Task.dueDate t) (Task.createdAt t) (Task.sourceConversationId t)
          (Task.sourceMessageText t).

(** [tasks.findIndex(t => t.id === id)], [None] for -1. *)
Fixpoint findIndex (tasks : list Task.t) (id : jsstring) : option nat :=
  match tasks with
  | [] => None
  | t :: rest =>
      if jsstring_eqb (Task.id t) id then Some 0
      else match findIndex rest id with
           | Some i => Some (S i)
           | None => None
           end
  end.

(** [tasks[i] = t] for an index within the array. *)
Fixpoint setAt (tasks : list Task.t) (i : nat) (t : Task.t) : list Task.t :=
  match tasks, i with
  | [], _ => []
  | _ :: rest, O => t :: rest
  | x :: rest, S j => x :: setAt rest j t
  end.

(** [tasks.find(t => t.id === id)]. *)
Fixpoint findTask (tasks : list Task.t) (id : jsstring) : option Task.t :=
  match tasks with
  | [] => None
  | t :: rest => if jsstring_eqb (Task.id t) id then Some t else findTask rest id
  end.

(** [task.notes = notes] for the object [findTask] returns: the array holds
    that same object, so its first task with the id changes. *)
Fixpoint assignNotes (tasks : list Task.t) (id : jsstring) (notes : jsstring)
  : list Task.t :=
  match tasks with
  | [] => []
  | t :: rest =>
      if jsstring_eqb (Task.id t) id then with_notes notes t :: rest
      else t :: assignNotes rest id notes
  end.

(** The [change] listener of [tasksList] for a subtask checkbox:
    [taskId] and [subtaskIndex] are read from its data attributes (the
    index is the integer [parseAndRenderSubtasks] wrote there), [checked] is
    its new state. *)
Definition subtaskCheckboxChange (taskId : jsstring) (subtaskIndex : Z) (checked : bool)
    (w : World.t) : World.t :=
  let st := World.state w in
  match findTask (AppState.tasks st) taskId with
  | None => w
  | Some task =>
      let notes := toggleNotes (Task.notes task) subtaskIndex checked in
      saveState (with_state (with_tasks (assignNotes (AppState.tasks st) taskId notes) st) w)
  end.

(** The fields of the task form when it is submitted. *)
Module TaskForm.
Record t := mk {
  taskIdInput : jsstring;
  taskTitleInput : jsstring;
  taskNotesInput : jsstring;
  taskStatusSelect : TaskStatus;
  taskPrioritySelect : TaskPriority;
  taskDueDateInput : jsstring;
  sourceConvoId : jsstring;      (* [taskFormModal.dataset.sourceConvoId] *)
  sourceMessage : jsstring       (* [taskFormModal.dataset.sourceMessage] *)
}.
End TaskForm.

(** [v || null] for a string. *)
Definition orNull (v : jsstring) : option jsstring :=
  if truthy v then Some v else None.

Definition closeTaskForm (w : World.t) : World.t := with_editingTaskId None w.

Definition TITLE_EMPTY : jsstring := js "Task title cannot be empty".

(** [handleTaskFormSubmit]; [tId] and [tCreated] are the two readings of
    [Date.now()] of the create branch. *)
Definition handleTaskFormSubmit (form : TaskForm.t) (tId tCreated : N) (w : World.t)
  : World.t :=
  let id := TaskForm.taskIdInput form in
  let title := Str.trim (TaskForm.taskTitleInput form) in
  let notes := Str.trim (TaskForm.taskNotesInput form) in
  let status := TaskForm.taskStatusSelect form in
  let priority := TaskForm.taskPrioritySelect form in
  let dueDate := orNull (TaskForm.taskDueDateInput form) in
  if negb (truthy title) then showNotification TITLE_EMPTY error w
  else
    let st := World.state w in
    let w1 :=
      if isSet (World.editingTaskId w) then
        match findIndex (AppState.tasks st) (keyOf (World.editingTaskId w)) with
        | Some taskIndex =>
            match nth_error (AppState.tasks st) taskIndex with
            | Some existingTask =>
                (* { ...existingTask, ...formData } *)
                let updated :=
                  Task.mk id title notes status priority dueDate
                          (Task.createdAt existingTask)
                          (Task.sourceConversationId existingTask)
                          (Task.sourceMessageText existingTask) in
                showNotification (js "Task updated") success
                  (with_state
                     (with_tasks (setAt (AppState.tasks st) taskIndex updated) st) w)
            | None => w
            end
        | None => w
        end
      else
        let newTask :=
          Task.mk (js "task_" ++ decimal tId) title notes status priority dueDate
                  tCreated (orNull (TaskForm.sourceConvoId form))
                  (orNull (TaskForm.sourceMessage form)) in
        showNotification (js "Task created") success
          (with_state (with_tasks (AppState.tasks st ++ [newTask]) st) w) in
    closeTaskForm (saveState w1).

(** ** Persistence

    [loadState] takes whatever [JSON.parse] returns, so the object it builds
    is kept as a JSON value: it may lack fields of [AppState], carry fields
    [AppState] does not have, or hold values of another type.  Numbers are
    the integers the program writes (its timestamps). *)

#[warning="-register-all"] Inductive Json :=
| JNull
| JBool (b : bool)
| JNumber (n : Z)
| JString (s : jsstring)
| JArray (elements : list Json)
| JObject (members : list (jsstring * Json)).

(** [{...target, ...src}]: each property of [src], in order, is assigned. *)
Definition spread (target src : JsRecord Json) : JsRecord Json :=
  fold_left (fun acc kv => rec_set acc (fst kv) (snd kv)) src target.

(** The index keys of an array or string. *)
Definition indexed (xs : list Json) : JsRecord Json :=
  combine (map (fun i => decimal (N.of_nat i)) (seq 0 (List.length xs))) xs.

(** The own enumerable properties of a value, [None] being [undefined]:
    the members of an object (of a repeated member of the text the last
    value is kept), the elements of an array, the code units of a string,
    and nothing for the other values. *)
Definition ownProperties (v : option Json) : JsRecord Json :=
  match v with
  | Some (JObject members) => spread [] members
  | Some (JArray elements) => spread [] (indexed elements)
  | Some (JString s) => spread [] (indexed (map (fun c => JString [c]) s))
  | _ => []
  end.

(** [v.k] for a value other than [null] and a name that no prototype
    defines, as are the two names [loadState] reads, settings and tasks. *)
Definition prop (v : Json) (k : jsstring) : option Json :=
  rec_get (ownProperties (Some v)) k.

(** Truthiness, for [v || []]. *)
Definition jsonTruthy (v : option Json) : bool :=
  match v with
  | None | Some JNull => false
  | Some (JBool b) => b
  | Some (JNumber n) => negb (n =? 0)%Z
  | Some (JString s) => truthy s
  | Some (JArray _) | Some (JObject _) => true
  end.

Definition DEFAULT_AGENT_NAME : jsstring := js "Gemini".

(** The [settings] of [getInitialState()]. *)
Definition defaultSettings : JsRecord Json :=
  [ (js "nickname", JString (js "You"));
    (js "customInstructions", JString []);
    (js "agentName", JString DEFAULT_AGENT_NAME);
    (js "agentAvatarUrl", JString []);
    (js "searchArchived", JBool false);
    (js "isSidebarPinned", JBool false) ].

Definition getInitialState : JsRecord Json :=
  [ (js "conversations", JObject []);
    (js "archivedConversations", JObject []);
    (js "activeConversationId", JNull);
    (js "tasks", JArray []);
    (js "settings", JObject defaultSettings) ].

Section Persistence.

(** [JSON.parse]; [None] when it throws. *)
Variable JSON_parse : jsstring -> option Json.

(** [loadState()], given [localStorage.getItem(STORAGE_KEY)]: the value
    assigned to [state], or [None] when the function throws (the text
    does not parse, or parses to [null], whose [settings] cannot be read). *)
Definition loadState (item : option jsstring) : option (JsRecord Json) :=
  match item with
  | Some savedState =>
      if truthy savedState then
        match JSON_parse savedState with
        | None => None
        | Some JNull => None
        | Some parsedState =>
            let state := spread (spread [] getInitialState)
                                (ownProperties (Some parsedState)) in
            let state :=
              rec_set state (js "settings")
                (JObject (spread (spread [] defaultSettings)
                                 (ownProperties (prop parsedState (js "settings"))))) in
            Some (rec_set state (js "tasks")
                    (match prop parsedState (js "tasks") with
                     | Some tasks => if jsonTruthy (Some tasks) then tasks else JArray []
                     | None => JArray []
                     end))
        end
      else Some getInitialState
  | None => Some getInitialState
  end.

End Persistence.

(** ** Notions the properties are stated with *)

(** The two partitions. *)
Definition inActive (w : World.t) (id : jsstring) : bool :=
  rec_has (AppState.conversations (World.state w)) id.

Definition inArchived (w : World.t) (id : jsstring) : bool :=
  rec_has (AppState.archivedConversations (World.state w)) id.

(** [n] calls of [toggleArchiveConversation(id)] in a row. *)
Fixpoint toggleArchiveTimes (n : nat) (id : jsstring) (w : World.t) : World.t :=
  match n with
  | O => w
  | S k => toggleArchiveConversation id (toggleArchiveTimes k id w)
  end.

(** The conversation stored under [id], in whichever partition holds it. *)
Definition conversationOf (w : World.t) (id : jsstring) : option Conversation.t :=
  if inArchived w id
  then rec_read (AppState.archivedConversations (World.state w)) id
  else rec_read (AppState.conversations (World.state w)) id.

(** The lines the [change] listener counts. *)
Definition isChecklistPrefix (line : jsstring) : bool :=
  Str.startsWith (Str.trim line) (js "- [").

Definition prefixLineCount (notes : jsstring) : Z :=
  Z.of_nat (List.length (filter isChecklistPrefix (Str.split notes))).

(** The lines [parseAndRenderSubtasks] lists. *)
Definition isChecklistLine (line : jsstring) : bool :=
  match matchSubtask (Str.trim line) with Some _ => true | None => false end.

(** The conversation a message submitted in [w] goes to: the selected one,
    or the one [startNewChat] makes when none is selected. *)
Definition sendTarget (tId : N) (w : World.t) : jsstring :=
  match AppState.activeConversationId (World.state w) with
  | Some a => if truthy a then a else js "convo_" ++ decimal tId
  | None => js "convo_" ++ decimal tId
  end.

Definition historyOf (w : World.t) (id : jsstring) : list HistoryEntry.t :=
  match rec_read (AppState.conversations (World.state w)) id with
  | Some c => Conversation.history c
  | None => []
  end.

(** The history the message is added to: that of the selected conversation,
    or the empty one of a new conversation. *)
Definition historyAtSend (w : World.t) : list HistoryEntry.t :=
  if isSet (AppState.activeConversationId (World.state w))
  then historyOf w (keyOf (AppState.activeConversationId (World.state w)))
  else [].

(** A submitted message gets as far as [chat.sendMessageStream]: the client
    exists, the selected conversation (if one is selected) is in
    [state.conversations], and a session exists or can be created. *)
Definition reachesBackend (w : World.t) : bool :=
  World.ai w
  && (negb (isSet (AppState.activeConversationId (World.state w)))
      || match rec_read (AppState.conversations (World.state w))
                        (keyOf (AppState.activeConversationId (World.state w))) with
         | Some _ => true
         | None => false
         end)
  && (match World.chat w with Some _ => true | None => false end
      || World.chatsCreateOk w).

(** The page at the moment [handleFormSubmit] calls
    [chat.sendMessageStream]: [w0] is the page once the conversation
    [currentConvoId] is there, [isFirstMessage] whether its history was
    empty. *)
Definition atSend (userMessage currentConvoId : jsstring) (isFirstMessage : bool)
    (w0 : World.t) : World.t :=
  let w1 := appendMessage user userMessage None w0 in
  let w2 := pushHistory currentConvoId (HistoryEntry.mk user userMessage None) w1 in
  let w3 := if isFirstMessage then setupConversation w2 else w2 in
  let w4 := saveState w3 in
  match World.chat w4 with
  | None => setupConversation w4
  | Some _ => w4
  end.

(** The latest chunk of a stream that carries a [groundingChunks] array,
    of whatever length. *)
Fixpoint latestGrounding (chunks : list Chunk.t) : option (list GroundingChunk.t) :=
  match chunks with
  | [] => None
  | c :: rest =>
      match latestGrounding rest with
      | Some g => Some g
      | None => chunkGrounding c
      end
  end.

(** The latest chunk of a stream that carries a [groundingChunks] array with
    at least one element. *)
Fixpoint latestNonEmptyGrounding (chunks : list Chunk.t) : option (list GroundingChunk.t) :=
  match chunks with
  | [] => None
  | c :: rest =>
      match latestNonEmptyGrounding rest with
      | Some g => Some g
      | None =>
          match chunkGrounding c with
          | Some (x :: g) => Some (x :: g)
          | _ => None
          end
      end
  end.

(** The text of a stream. *)
Definition streamText (chunks : list Chunk.t) : jsstring :=
  List.concat (map (fun c => textOf (Chunk.text c)) chunks).

(** The error message of [handleFormSubmit] in the rendered chat. *)
Definition isErrorMarker (m : MessageGroup.t) : bool :=
  match MessageGroup.role m with
  | model => jsstring_eqb (MessageGroup.body m) ERROR_REPLY
  | user => false
  end.

Definition errorMarkers (shown : list MessageGroup.t) : nat :=
  List.length (filter isErrorMarker shown).

(** The reading of a failed stream under which the failure is recorded in
    the history: no entry of the history has the partial text, and one
    entry, the error marker, follows the user's. *)
Definition failureRecordedInHistory (before after : list HistoryEntry.t)
    (userEntry : HistoryEntry.t) (partial : jsstring) : Prop :=
  (forall e, In e after -> HistoryEntry.text e <> partial) /\
  exists marker, after = before ++ [userEntry; marker].

(** The reading of the grounding rule under which an empty array never
    wins: the reply is committed with the latest array that has an
    element. *)
Definition lastNonEmptyWins (chunks : list Chunk.t) (committed : HistoryEntry.t) : Prop :=
  forall g, latestNonEmptyGrounding chunks = Some g ->
            HistoryEntry.groundingChunks committed = Some g.

(** The value [loadState] merges over the defaults: what the stored text
    parses to, nothing when there is no text or an empty one. *)
Definition persisted (JSON_parse : jsstring -> option Json) (item : option jsstring)
  : option Json :=
  match item with
  | Some savedState => if truthy savedState then JSON_parse savedState else None
  | None => None
  end.

(** Its fields, and the fields of its [settings]. *)
Definition persistedFields (JSON_parse : jsstring -> option Json) (item : option jsstring)
  : JsRecord Json :=
  ownProperties (persisted JSON_parse item).

Definition persistedSettings (JSON_parse : jsstring -> option Json) (item : option jsstring)
  : JsRecord Json :=
  match persisted JSON_parse item with
  | Some parsedState => ownProperties (prop parsedState (js "settings"))
  | None => []
  end.

(** The stored text is absent, empty, or parses to a value other than
    [null]. *)
Definition loadable (JSON_parse : jsstring -> option Json) (item : option jsstring) : bool :=
  match item with
  | Some savedState =>
      if truthy savedState then
        match JSON_parse savedState with
        | None | Some JNull => false
        | Some _ => true
        end
      else true
  | None => true
  end.

(** The reading of the load under which unknown fields are dropped: every
    field of the loaded state is a field of [AppState], and every field of
    its settings a field of [AppSettings]. *)
Definition unknownFieldsIgnored (state : JsRecord Json) : Prop :=
  (forall k, rec_has state k = true -> rec_has getInitialState k = true) /\
  (forall settings k,
     rec_get state (js "settings") = Some (JObject settings) ->
     rec_has settings k = true -> rec_has defaultSettings k = true).

(** ** Sample states *)

Definition sampleSettings : AppSettings.t :=
  AppSettings.mk (js "You") [] DEFAULT_AGENT_NAME [] false false.

Definition newChat (id : jsstring) (createdAt : N) : Conversation.t :=
  Conversation.mk id (js "New Chat") [] [] createdAt.

Definition worldOf (st : AppState.t) : World.t :=
  World.mk st true None None [] [] [] [] true.

(** One conversation, active and selected; another one archived. *)
Definition oneActiveOneArchived : World.t :=
  worldOf (AppState.mk [(js "convo_1", Some (newChat (js "convo_1") 1))]
                       [(js "convo_2", Some (newChat (js "convo_2") 2))]
                       (Some (js "convo_1")) [] sampleSettings).

(** Two conversations in the active partition, the first selected. *)
Definition twoActive : World.t :=
  worldOf (AppState.mk [(js "convo_1", Some (newChat (js "convo_1") 1));
                        (js "convo_2", Some (newChat (js "convo_2") 2))]
                       [] (Some (js "convo_1")) [] sampleSettings).

(** Nothing active or selected, one conversation archived. *)
Definition onlyArchived : World.t :=
  worldOf (AppState.mk [] [(js "convo_2", Some (newChat (js "convo_2") 2))]
                       None [] sampleSettings).

Definition LF : jsstring := [10%N].

Definition taskWithNotes (notes : jsstring) : Task.t :=
  Task.mk (js "task_1") (js "Plan") notes todo medium None 1 None None.

Definition worldWithTask (notes : jsstring) : World.t :=
  worldOf (AppState.mk [] [] None [taskWithNotes notes] sampleSettings).

(** A list item that is a Markdown link, then one subtask. *)
Definition linkThenSubtask : jsstring :=
  js "- [link](u)" ++ LF ++ js "- [ ] a".

(** A box without a label, then one subtask. *)
Definition bareBoxThenSubtask : jsstring :=
  js "- [ ]" ++ LF ++ js "- [ ] a".

(** The checklist of the scenario in the design notes. *)
Definition scenarioNotes : jsstring :=
  js "- [ ] a" ++ LF ++ js "- [x] b" ++ LF ++ js "free text" ++ LF ++ js "- [ ] c".

Definition blankTitleForm : TaskForm.t :=
  TaskForm.mk [] (js "   ") (js "notes") todo medium [] [] [].

(** A chunk with text and, optionally, a grounding array. *)
Definition chunkOf (text : jsstring) (grounding : option (list GroundingChunk.t)) : Chunk.t :=
  Chunk.mk (Some text)
           (Some [Candidate.mk (Some (GroundingMetadata.mk grounding))]).

Definition exampleSource : GroundingChunk.t :=
  GroundingChunk.mk (Some (GroundingChunkWeb.mk (Some (js "https://example.org"))
                                                (Some (js "Example")))).

(** Sources arrive with the first chunk; the second carries an empty array. *)
Definition sourcesThenEmpty : list Chunk.t :=
  [chunkOf (js "He") (Some [exampleSource]); chunkOf (js "llo!") (Some [])].

(** No conversation yet. *)
Definition freshWorld : World.t :=
  worldOf (AppState.mk [] [] None [] sampleSettings).

(** A conversation after its first exchange, still with the placeholder
    title. *)
Definition afterFirstExchange : World.t :=
  worldOf (AppState.mk
             [(js "convo_1",
               Some (Conversation.mk (js "convo_1") (js "New Chat")
                       [HistoryEntry.mk user (js "hi") None;
                        HistoryEntry.mk model (js "Hello!") (Some [])]
                       [] 1))]
             [] (Some (js "convo_1")) [] sampleSettings).

(** A snapshot written by an earlier version: a field [legacy] that
    [AppState] does not have, and settings with a nickname and a field
    [fontSize] that [AppSettings] does not have.  [legacyText] is its JSON
    text, code unit 34 being the double quote. *)
Definition legacySnapshot : Json :=
  JObject [ (js "legacy", JBool true);
            (js "settings", JObject [ (js "nickname", JString (js "Zed"));
                                      (js "fontSize", JNumber 12) ]) ].

Definition quoted (s : string) : jsstring := [34%N] ++ js s ++ [34%N].

Definition legacyText : jsstring :=
  js "{" ++ quoted "legacy" ++ js ":true," ++ quoted "settings" ++ js ":{"
  ++ quoted "nickname" ++ js ":" ++ quoted "Zed" ++ js "," ++ quoted "fontSize"
  ++ js ":12}}".

(** A parser that knows this one text. *)
Definition parseLegacy (text : jsstring) : option Json :=
  if jsstring_eqb text legacyText then Some legacySnapshot else None.

(** * More of the page *)

(** ** Generating subtasks *)

(** What [JSON.parse(response.text)] gives in [handleGenerateSubtasks]: the
    call or the parse throws (or the value is a string, whose [map] is not
    a function); the value is falsy or has no positive [length]; or it is
    the array of strings the response schema asks for. *)
Inductive SubtasksReply :=
| SubtasksFail
| SubtasksNone
| SubtasksList (subtasks : list jsstring).

(** [subtasks.map(task => `- [ ] ${task}`).join('\n')]. *)
Definition encodeChecklist (subtasks : list jsstring) : jsstring :=
  Str.join (map (fun task => js "- [ ] " ++ task) subtasks).

Definition with_taskNotesInput (notes : jsstring) (form : TaskForm.t) : TaskForm.t :=
  TaskForm.mk (TaskForm.taskIdInput form) (TaskForm.taskTitleInput form) notes
              (TaskForm.taskStatusSelect form) (TaskForm.taskPrioritySelect form)
              (TaskForm.taskDueDateInput form) (TaskForm.sourceConvoId form)
              (TaskForm.sourceMessage form).

(** [handleGenerateSubtasks] with the outcome of its model call: the form
    afterwards and the page. *)
Definition handleGenerateSubtasks (form : TaskForm.t) (reply : SubtasksReply)
    (w : World.t) : TaskForm.t * World.t :=
  let title := Str.trim (TaskForm.taskTitleInput form) in
  if negb (truthy title) || negb (World.ai w) then (form, w)
  else
    match reply with
    | SubtasksList (s :: ss) =>
        let checklist := encodeChecklist (s :: ss) in
        let separator :=
          if truthy (Str.trim (TaskForm.taskNotesInput form)) then [10; 10]%N else [] in
        (with_taskNotesInput (TaskForm.taskNotesInput form ++ separator ++ checklist) form,
         showNotification (js "Sub-tasks generated!") success w)
    | SubtasksList [] | SubtasksNone =>
        (form, showNotification (js "Could not generate sub-tasks.") info w)
    | SubtasksFail =>
        (form, showNotification (js "Error generating sub-tasks.") error w)
    end.

(** ** Settings and task deletion *)

Module SettingsForm.
Record t := mk {
  nicknameInput : jsstring;
  instructionsInput : jsstring;
  agentNameInput : jsstring;
  agentAvatarInput : jsstring;
  searchArchivedCheckbox : bool
}.
End SettingsForm.

(** [v || d] for strings. *)
Definition orDefault (v d : jsstring) : jsstring := if truthy v then v else d.

Definition saveSettings (form : SettingsForm.t) (w : World.t) : World.t :=
  let st := World.state w in
  let s' := AppSettings.mk
              (orDefault (SettingsForm.nicknameInput form) (js "You"))
              (SettingsForm.instructionsInput form)
              (orDefault (SettingsForm.agentNameInput form) DEFAULT_AGENT_NAME)
              (SettingsForm.agentAvatarInput form)
              (SettingsForm.searchArchivedCheckbox form)
              (AppSettings.isSidebarPinned (AppState.settings st)) in
  showNotification (js "Settings saved!") success
    (renderApp (saveState (with_state (with_settings s' st) w))).

(** [handleDeleteTask]; [confirmed] is the answer to its [confirm] dialog. *)
Definition handleDeleteTask (confirmed : bool) (w : World.t) : World.t :=
  if negb (isSet (World.editingTaskId w)) then w
  else if confirmed then
    let st := World.state w in
    let kept := filter (fun t => negb (jsstring_eqb (Task.id t)
                                                    (keyOf (World.editingTaskId w))))
                       (AppState.tasks st) in
    showNotification (js "Task deleted") info
      (closeTaskForm (saveState (with_state (with_tasks kept st) w)))
  else w.

(** ** The listeners of [main]

    What the user and the backend can make happen to the store, each with
    the handler [main] (or a list item, or a pending call) runs for it. *)
Inductive Action :=
| NewChat (tId tCreated : N)
| Select (id : jsstring)
| Delete (id : jsstring) (isArchived confirmed : bool)
| ToggleArchive (id : jsstring)
| Submit (input : jsstring) (tId tCreated : N) (reply : SendResult)
| TitleReply (convoId : jsstring) (response : option jsstring)
| SubmitTask (form : TaskForm.t) (tId tCreated : N)
| DeleteTask (confirmed : bool)
| SubtaskChange (taskId : jsstring) (subtaskIndex : Z) (checked : bool)
| SaveSettings (form : SettingsForm.t)
| TogglePin.

Definition dispatch (a : Action) (w : World.t) : option World.t :=
  match a with
  | NewChat tId tCreated => Some (snd (startNewChat true tId tCreated w))
  | Select id => Some (selectConversation id w)
  | Delete id isArchived confirmed => Some (deleteConversation id isArchived confirmed w)
  | ToggleArchive id => Some (toggleArchiveConversation id w)
  | Submit input tId tCreated reply => handleFormSubmit input tId tCreated reply w
  | TitleReply convoId response => Some (generateConversationTitle convoId response w)
  | SubmitTask form tId tCreated => Some (handleTaskFormSubmit form tId tCreated w)
  | DeleteTask confirmed => Some (handleDeleteTask confirmed w)
  | SubtaskChange taskId subtaskIndex checked =>
      Some (subtaskCheckboxChange taskId subtaskIndex checked w)
  | SaveSettings form => Some (saveSettings form w)
  | TogglePin =>
      Some (updateSidebarPinnedState
              (negb (AppSettings.isSidebarPinned (AppState.settings (World.state w)))) w)
  end.

(** A run of actions; [None] once a handler has thrown. *)
Fixpoint run (actions : list Action) (w : World.t) : option World.t :=
  match actions with
  | [] => Some w
  | a :: rest =>
      match dispatch a w with
      | Some w' => run rest w'
      | None => None
      end
  end.

(** ** Notions for the store *)

(** What is in storage is the state in memory. *)
Definition persistedCurrent (w : World.t) : Prop :=
  hd_error (World.storage w) = Some (World.state w).

(** Every property of the record holds a conversation. *)
Definition allDefined (r : Conversations) : bool :=
  forallb (fun kv => match snd kv with Some _ => true | None => false end) r.

(** The shape of the store: no id is in both partitions, every entry holds
    a conversation, and [activeConversationId] is null or the id of an
    entry of the active partition. *)
Definition wellFormed (w : World.t) : Prop :=
  (forall id, inActive w id = true -> inArchived w id = false) /\
  allDefined (AppState.conversations (World.state w)) = true /\
  allDefined (AppState.archivedConversations (World.state w)) = true /\
  match AppState.activeConversationId (World.state w) with
  | Some a => inActive w a = true
  | None => True
  end.

(** The actions that keep to the conversations at hand in [w]: a new
    conversation gets an id that is not archived, a conversation is
    archived or unarchived from its list item, and the conversation that
    is selected is one of the active list (the items of the archived list
    and the source links of tasks select as well). *)
Definition offered (a : Action) (w : World.t) : Prop :=
  match a with
  | NewChat tId _ => inArchived w (js "convo_" ++ decimal tId) = false
  | Submit _ tId _ _ => inArchived w (js "convo_" ++ decimal tId) = false
  | ToggleArchive id => inActive w id = true \/ inArchived w id = true
  | Select id => inActive w id = true
  | _ => True
  end.

(** Each action of a run is offered by the page it is applied to. *)
Fixpoint offeredRun (actions : list Action) (w : World.t) : Prop :=
  match actions with
  | [] => True
  | a :: rest =>
      offered a w /\
      match dispatch a w with
      | Some w' => offeredRun rest w'
      | None => True
      end
  end.


(** A submitted message is taken up: there is a client, and the selected
    conversation, if one is selected, is in [state.conversations]. *)
Definition takesMessage (w : World.t) : bool :=
  World.ai w
  && (negb (isSet (AppState.activeConversationId (World.state w)))
      || match rec_read (AppState.conversations (World.state w))
                        (keyOf (AppState.activeConversationId (World.state w))) with
         | Some _ => true
         | None => false
         end).

(** Every task has a title. *)
Definition titled (w : World.t) : Prop :=
  forallb (fun t => truthy (Task.title t)) (AppState.tasks (World.state w)) = true.


(** ** Notions for the checklist *)

(** The checklist a text decodes to: for each line that
    [parseAndRenderSubtasks] lists, whether it is checked and its label. *)
Definition decodeLine (line : jsstring) : option (bool * jsstring) :=
  matchSubtask (Str.trim line).

Fixpoint decodeLines (lines : list jsstring) : list (bool * jsstring) :=
  match lines with
  | [] => []
  | line :: rest =>
      match decodeLine line with
      | Some item => item :: decodeLines rest
      | None => decodeLines rest
      end
  end.

Definition checklist (notes : jsstring) : list (bool * jsstring) :=
  decodeLines (Str.split notes).


(** A subtask text that survives the encoding: it has no line terminator
    and does not end in white space (so it is not empty). *)
Definition cleanSubtask (text : jsstring) : bool :=
  forallb (fun c => negb (Str.isLineTerminator c)) text
  && match rev text with
     | c :: _ => negb (Str.isTrimmed c)
     | [] => false
     end.

Definition lineFeedFree (line : jsstring) : bool :=
  forallb (fun c => negb (c =? 10)%N) line.

Definition formOf (title notes : jsstring) : TaskForm.t :=
  TaskForm.mk [] title notes todo medium [] [] [].

(** A page on which the task of [worldWithTask] is being edited. *)
Definition editingTask (notes : jsstring) : World.t :=
  with_editingTaskId (Some (js "task_1")) (worldWithTask notes).

(** ** The sources of a reply *)

(** [c.web?.uri] and [c.web?.title]: undefined when the chunk has no [web]. *)
Definition uriOf (c : GroundingChunk.t) : option jsstring :=
  match GroundingChunk.web c with
  | Some web => GroundingChunkWeb.uri web
  | None => None
  end.

Definition titleOf (c : GroundingChunk.t) : option jsstring :=
  match GroundingChunk.web c with
  | Some web => GroundingChunkWeb.title web
  | None => None
  end.

(** Truthiness of a string that may be undefined. *)
Definition truthyOpt (s : option jsstring) : bool :=
  match s with
  | Some s => truthy s
  | None => false
  end.

(** [===] on strings that may be undefined. *)
Definition strictEq (a b : option jsstring) : bool :=
  match a, b with
  | Some a, Some b => jsstring_eqb a b
  | None, None => true
  | _, _ => false
  end.

(** [Array.prototype.findIndex], [None] for -1. *)
Fixpoint findIndexBy {A : Type} (p : A -> bool) (l : list A) : option nat :=
  match l with
  | [] => None
  | x :: rest =>
      if p x then Some 0
      else match findIndexBy p rest with
           | Some i => Some (S i)
           | None => None
           end
  end.

(** [Array.prototype.filter] with a callback that reads the index; [index]
    is the index of the head of [l]. *)
Fixpoint filterFrom {A : Type} (p : nat -> A -> bool) (index : nat) (l : list A)
    : list A :=
  match l with
  | [] => []
  | x :: rest =>
      if p index x then x :: filterFrom p (S index) rest
      else filterFrom p (S index) rest
  end.

Definition isIndex (index : nat) (found : option nat) : bool :=
  match found with
  | Some i => Nat.eqb index i
  | None => false
  end.

(** [uniqueSources] of [createSourcesElement]. *)
Definition uniqueSources (chunks : list GroundingChunk.t) : list GroundingChunk.t :=
  filterFrom
    (fun index chunk =>
       truthyOpt (uriOf chunk)
       && isIndex index
            (findIndexBy (fun c => strictEq (uriOf c) (uriOf chunk)) chunks))
    0 chunks.

(** An item of the list of sources: the texts of its two spans. *)
Module SourceItem.
Record t := mk { sourceTitle : jsstring; sourceUri : jsstring }.
End SourceItem.

(** [createSourcesElement(chunks)]: the items of its list, in order. *)
Definition createSourcesElement (chunks : list GroundingChunk.t) : list SourceItem.t :=
  flat_map
    (fun chunk =>
       match GroundingChunk.web chunk with
       | Some web =>
           match GroundingChunkWeb.uri web, GroundingChunkWeb.title web with
           | Some uri, Some title =>
               if truthy uri && truthy title then [SourceItem.mk title uri] else []
           | _, _ => []
           end
       | None => []
       end)
    (uniqueSources chunks).

(** The first chunk of [chunks] that carries [uri] is at [index]. *)
Definition firstWith (chunks : list GroundingChunk.t) (uri : jsstring) (index : nat)
    (chunk : GroundingChunk.t) : Prop :=
  nth_error chunks index = Some chunk /\
  uriOf chunk = Some uri /\
  forall j c, j < index -> nth_error chunks j = Some c -> uriOf c <> Some uri.

Definition sourceOf (uri : option jsstring) (title : option jsstring) : GroundingChunk.t :=
  GroundingChunk.mk (Some (GroundingChunkWeb.mk uri title)).

(** ** The list of tasks *)

From Stdlib Require Import Sorted Permutation.

(** [Array.prototype.sort] is stable, and sorts when the comparison function
    is a consistent one, as the ones of this program are (lemma
    [compareTasks_consistent]); the result is then the one of any stable
    sort, here the insertion of each element before the first one that it
    does not follow. *)
Fixpoint insertBy {A : Type} (compareFn : A -> A -> Z) (x : A) (sorted : list A)
    : list A :=
  match sorted with
  | [] => [x]
  | y :: rest =>
      if (compareFn x y <=? 0)%Z then x :: sorted
      else y :: insertBy compareFn x rest
  end.

Definition sortBy {A : Type} (compareFn : A -> A -> Z) (l : list A) : list A :=
  fold_right (insertBy compareFn) [] l.

Definition isDone (t : Task.t) : bool :=
  match Task.status t with
  | done => true
  | _ => false
  end.

(** The comparison function of [renderTasks]. *)
Definition compareTasks (a b : Task.t) : Z :=
  if isDone a && negb (isDone b) then 1
  else if negb (isDone a) && isDone b then (-1)
  else (Z.of_N (Task.createdAt b) - Z.of_N (Task.createdAt a))%Z.

(** [sortedTasks] of [renderTasks]: the tasks in the order of their items. *)
Definition sortedTasks (w : World.t) : list Task.t :=
  sortBy compareTasks (AppState.tasks (World.state w)).

(** [a] may come before [b] in the list: an open task before a done one,
    and of two tasks that are both open or both done the newer one first. *)
Definition listedBefore (a b : Task.t) : Prop :=
  (isDone a = true -> isDone b = true) /\
  (isDone a = isDone b -> (Task.createdAt b <= Task.createdAt a)%N).

(** The tasks that are done or not as [isDoneGroup] says and were created
    at [createdAt]. *)
Definition sameRank (isDoneGroup : bool) (createdAt : N) (t : Task.t) : bool :=
  Bool.eqb (isDone t) isDoneGroup && (Task.createdAt t =? createdAt)%N.

Definition taskAt (id : string) (status : TaskStatus) (createdAt : N) : Task.t :=
  Task.mk (js id) (js id) [] status medium None createdAt None None.

(** ** The command palette *)

Module Command.
Record t := mk {
  id : jsstring;
  label : jsstring;
  keywords : option (list jsstring)
}.
End Command.

Definition commands : list Command.t :=
  [ Command.mk (js "new-chat") (js "New Chat")
      (Some [js "clear"; js "reset"; js "start over"]);
    Command.mk (js "toggle-theme") (js "Toggle Light/Dark Mode")
      (Some [js "theme"; js "dark"; js "light"; js "appearance"]);
    Command.mk (js "open-settings") (js "Open Settings")
      (Some [js "config"; js "options"; js "preferences"]);
    Command.mk (js "open-tasks") (js "Open Tasks")
      (Some [js "todo"; js "list"; js "tasks"]) ].

(** [s.includes(sub)]. *)
Fixpoint includes (s sub : jsstring) : bool :=
  Str.startsWith s sub
  || match s with
     | [] => false
     | _ :: rest => includes rest sub
     end.

(** The palette: the index of the selected command, the [data-command-id]
    of the items of its list, and the commands whose action was called,
    latest first. *)
Module Palette.
Record t := mk {
  activeCommandIndex : Z;
  items : list jsstring;
  called : list jsstring
}.
End Palette.

Definition with_activeCommandIndex (i : Z) (p : Palette.t) : Palette.t :=
  Palette.mk i (Palette.items p) (Palette.called p).

(** [items[i]]: undefined outside of the list. *)
Definition itemAt (items : list jsstring) (i : Z) : option jsstring :=
  if (i <? 0)%Z then None else nth_error items (Z.to_nat i).

Inductive Key := ArrowDown | ArrowUp | Enter | OtherKey.

(** [handleCommandPaletteNavigation]; [None] is the TypeError of reading
    [dataset] of an undefined item.  The remainder of JavaScript has the
    sign of the dividend, as [Z.rem]. *)
Definition handleCommandPaletteNavigation (key : Key) (p : Palette.t)
    : option Palette.t :=
  let items := Palette.items p in
  let length := Z.of_nat (List.length items) in
  if (length =? 0)%Z then Some p
  else
    match key with
    | ArrowDown =>
        Some (with_activeCommandIndex
                (Z.rem (Palette.activeCommandIndex p + 1) length) p)
    | ArrowUp =>
        Some (with_activeCommandIndex
                (Z.rem (Palette.activeCommandIndex p - 1 + length) length) p)
    | Enter =>
        match itemAt items (Palette.activeCommandIndex p) with
        | None => None
        | Some commandId =>
            match find (fun c => jsstring_eqb (Command.id c) commandId) commands with
            | Some command =>
                Some (Palette.mk (Palette.activeCommandIndex p) items
                                 (Command.id command :: Palette.called p))
            | None => Some p
            end
        end
    | OtherKey => Some p
    end.

Inductive PaletteEvent :=
| OpenPalette
| PaletteInput (value : jsstring)
| KeyDown (key : Key).

Section CommandPalette.

(** [String.prototype.toLowerCase], which follows the Unicode tables. *)
Variable toLowerCase : jsstring -> jsstring.

Definition matchesCommand (lowerCaseFilter : jsstring) (cmd : Command.t) : bool :=
  includes (toLowerCase (Command.label cmd)) lowerCaseFilter
  || match Command.keywords cmd with
     | Some keywords =>
         existsb (fun k => includes (toLowerCase k) lowerCaseFilter) keywords
     | None => false
     end.

Definition renderCommands (filter : jsstring) (p : Palette.t) : Palette.t :=
  let lowerCaseFilter := toLowerCase filter in
  let filteredCommands := List.filter (matchesCommand lowerCaseFilter) commands in
  let length := Z.of_nat (List.length filteredCommands) in
  let activeCommandIndex :=
    if (0 <? length)%Z && (length <=? Palette.activeCommandIndex p)%Z
    then (length - 1)%Z
    else if (length =? 0)%Z then (-1)%Z
    else Palette.activeCommandIndex p in
  Palette.mk activeCommandIndex (map Command.id filteredCommands) (Palette.called p).

Definition openCommandPalette (p : Palette.t) : Palette.t :=
  renderCommands [] (with_activeCommandIndex 0 p).

(** The [input] listener that [main] puts on the input of the palette. *)
Definition commandPaletteInput (value : jsstring) (p : Palette.t) : Palette.t :=
  renderCommands value (with_activeCommandIndex 0 p).

Definition paletteStep (e : PaletteEvent) (p : Palette.t) : option Palette.t :=
  match e with
  | OpenPalette => Some (openCommandPalette p)
  | PaletteInput value => Some (commandPaletteInput value p)
  | KeyDown key => handleCommandPaletteNavigation key p
  end.

Fixpoint paletteRun (events : list PaletteEvent) (p : Palette.t) : option Palette.t :=
  match events with
  | [] => Some p
  | e :: rest =>
      match paletteStep e p with
      | Some p' => paletteRun rest p'
      | None => None
      end
  end.

End CommandPalette.

(** The selection is on an item of the list, or the list is empty and the
    index is -1. *)
Definition selectionValid (p : Palette.t) : Prop :=
  (Palette.items p = [] /\ Palette.activeCommandIndex p = (-1)%Z)
  \/ (0 <= Palette.activeCommandIndex p < Z.of_nat (List.length (Palette.items p)))%Z.

Definition isCommandId (id : jsstring) : Prop :=
  exists c, In c commands /\ Command.id c = id.

(** A lower-casing of the ASCII letters, for the examples. *)
Definition asciiLowerCase (s : jsstring) : jsstring :=
  map (fun c => if (65 <=? c)%N && (c <=? 90)%N then (c + 32)%N else c) s.

(** ** What [saveState] writes

    The value that [JSON.parse] reads from the text [JSON.stringify] writes
    for the state: an object per record, a property that holds [undefined]
    left out, [null] kept.  The members of the state and of its settings
    are in the order in which [getInitialState] and [loadState] create
    them; the order of the members of the other objects is not read by
    the program. *)

Definition member {A : Type} (k : jsstring) (f : A -> Json) (v : option A)
    : JsRecord Json :=
  match v with
  | Some a => [(k, f a)]
  | None => []
  end.

Definition jsonNullable (s : option jsstring) : Json :=
  match s with
  | Some s => JString s
  | None => JNull
  end.

Definition jsonWeb (web : GroundingChunkWeb.t) : Json :=
  JObject (member (js "uri") JString (GroundingChunkWeb.uri web)
           ++ member (js "title") JString (GroundingChunkWeb.title web)).

Definition jsonChunk (c : GroundingChunk.t) : Json :=
  JObject (member (js "web") jsonWeb (GroundingChunk.web c)).

Definition jsonRole (r : Role) : Json :=
  JString (match r with user => js "user" | model => js "model" end).

Definition jsonEntry (e : HistoryEntry.t) : Json :=
  JObject ([ (js "role", jsonRole (HistoryEntry.role e));
             (js "text", JString (HistoryEntry.text e)) ]
           ++ member (js "groundingChunks") (fun cs => JArray (map jsonChunk cs))
                     (HistoryEntry.groundingChunks e)).

Definition jsonConversation (c : Conversation.t) : Json :=
  JObject [ (js "id", JString (Conversation.id c));
            (js "title", JString (Conversation.title c));
            (js "history", JArray (map jsonEntry (Conversation.history c)));
            (js "customInstructions", JString (Conversation.customInstructions c));
            (js "createdAt", JNumber (Z.of_N (Conversation.createdAt c))) ].

Definition jsonConversations (r : Conversations) : Json :=
  JObject (flat_map (fun kv => member (fst kv) jsonConversation (snd kv)) r).

Definition jsonStatus (s : TaskStatus) : Json :=
  JString (match s with
           | todo => js "todo"
           | in_progress => js "in-progress"
           | done => js "done"
           end).

Definition jsonPriority (p : TaskPriority) : Json :=
  JString (match p with low => js "low" | medium => js "medium" | high => js "high" end).

Definition jsonTask (t : Task.t) : Json :=
  JObject [ (js "id", JString (Task.id t));
            (js "title", JString (Task.title t));
            (js "notes", JString (Task.notes t));
            (js "status", jsonStatus (Task.status t));
            (js "priority", jsonPriority (Task.priority t));
            (js "dueDate", jsonNullable (Task.dueDate t));
            (js "createdAt", JNumber (Z.of_N (Task.createdAt t)));
            (js "sourceConversationId", jsonNullable (Task.sourceConversationId t));
            (js "sourceMessageText", jsonNullable (Task.sourceMessageText t)) ].

Definition jsonSettings (s : AppSettings.t) : Json :=
  JObject [ (js "nickname", JString (AppSettings.nickname s));
            (js "customInstructions", JString (AppSettings.customInstructions s));
            (js "agentName", JString (AppSettings.agentName s));
            (js "agentAvatarUrl", JString (AppSettings.agentAvatarUrl s));
            (js "searchArchived", JBool (AppSettings.searchArchived s));
            (js "isSidebarPinned", JBool (AppSettings.isSidebarPinned s)) ].

Definition savedState (st : AppState.t) : JsRecord Json :=
  [ (js "conversations", jsonConversations (AppState.conversations st));
    (js "archivedConversations", jsonConversations (AppState.archivedConversations st));
    (js "activeConversationId", jsonNullable (AppState.activeConversationId st));
    (js "tasks", JArray (map jsonTask (AppState.tasks st)));
    (js "settings", jsonSettings (AppState.settings st)) ].

(** No property of the two maps holds [undefined]. *)
Definition plainState (st : AppState.t) : Prop :=
  allDefined (AppState.conversations st) = true /\
  allDefined (AppState.archivedConversations st) = true.

(** A parser that knows the text of one state. *)
Definition parseSaved (text : jsstring) (st : AppState.t) (t : jsstring) : option Json :=
  if jsstring_eqb t text then Some (JObject (savedState st)) else None.

(** ** The chat area and the history *)

(** The message [appendMessage] shows for an entry of the history. *)
Definition messageOf (entry : HistoryEntry.t) : MessageGroup.t :=
  MessageGroup.mk (HistoryEntry.role entry) (HistoryEntry.text entry)
    match HistoryEntry.role entry, HistoryEntry.groundingChunks entry with
    | model, Some (c :: cs) => Some (c :: cs)
    | _, _ => None
    end.

(** The page once [handleFormSubmit] has the conversation of the message:
    [w], or [w] with the conversation [startNewChat(false)] makes. *)
Definition sendStart (tId tCreated : N) (w : World.t) : World.t :=
  match AppState.activeConversationId (World.state w) with
  | Some a => if truthy a then w else snd (startNewChat false tId tCreated w)
  | None => snd (startNewChat false tId tCreated w)
  end.

(** ** Conversations over a run *)

(** [c'] is [c] some messages later: the same conversation, with a history
    that starts with the history of [c]. *)
Definition extends (c c' : Conversation.t) : Prop :=
  Conversation.id c' = Conversation.id c /\
  Conversation.customInstructions c' = Conversation.customInstructions c /\
  Conversation.createdAt c' = Conversation.createdAt c /\
  exists later, Conversation.history c' = Conversation.history c ++ later.

(** The action neither deletes the conversation [id] nor makes a new one
    under its id. *)
Definition keeps (id : jsstring) (a : Action) : Prop :=
  match a with
  | Delete id' _ confirmed => confirmed = false \/ id' <> id
  | NewChat tId _ => js "convo_" ++ decimal tId <> id
  | Submit _ tId _ _ => js "convo_" ++ decimal tId <> id
  | _ => True
  end.

(** * Properties *)

(** ** Strings *)

Lemma split_nonempty s : Str.split s <> [].
Proof.
  destruct s as [|c r]; simpl; [discriminate|].
  destruct (c =? 10)%N; [discriminate|].
  destruct (Str.split r); discriminate.
Qed.

Lemma join_cons l ls :
  ls <> [] -> Str.join (l :: ls) = l ++ 10%N :: Str.join ls.
Proof. destruct ls; [congruence | reflexivity]. Qed.

(** Splitting on newline and joining with newline gives the string back. *)
Lemma join_split s : Str.join (Str.split s) = s.
Proof.
  induction s as [|c r IH]; [reflexivity|].
  simpl. destruct (N.eqb_spec c 10) as [->|Hc].
  - rewrite join_cons by apply split_nonempty. simpl. now rewrite IH.
  - pose proof (split_nonempty r) as Hne.
    destruct (Str.split r) as [|l ls]; [congruence|].
    destruct ls as [|l' ls'].
    + simpl in *. now rewrite IH.
    + change (Str.join ((c :: l) :: l' :: ls')) with (c :: Str.join (l :: l' :: ls')).
      now rewrite IH.
Qed.

(** ** Strings and records *)

Lemma jsstring_eqb_eq a b : jsstring_eqb a b = true <-> a = b.
Proof.
  revert b; induction a as [|x a IH]; intros [|y b]; simpl; try (split; congruence).
  rewrite andb_true_iff, N.eqb_eq, IH. split; [intros [-> ->] | intros [= -> ->]]; auto.
Qed.

Lemma jsstring_eqb_refl a : jsstring_eqb a a = true.
Proof. now apply jsstring_eqb_eq. Qed.

Lemma jsstring_eqb_neq a b : a <> b -> jsstring_eqb a b = false.
Proof.
  intros H. destruct (jsstring_eqb a b) eqn:E; [|reflexivity].
  apply jsstring_eqb_eq in E. contradiction.
Qed.

Section RecordFacts.
Variable V : Type.
Implicit Types (r : JsRecord V) (k : jsstring) (v : V).

Lemma rec_get_set_same r k v : rec_get (rec_set r k v) k = Some v.
Proof.
  induction r as [|[k' v'] r IH]; simpl.
  - now rewrite jsstring_eqb_refl.
  - destruct (jsstring_eqb k' k) eqn:E; simpl; rewrite E; auto.
Qed.

Lemma rec_get_set_other r k k' v : k <> k' -> rec_get (rec_set r k v) k' = rec_get r k'.
Proof.
  intros Hne. induction r as [|[k0 v0] r IH]; simpl.
  - now rewrite jsstring_eqb_neq.
  - destruct (jsstring_eqb k0 k) eqn:E; simpl.
    + apply jsstring_eqb_eq in E; subst k0. now rewrite !jsstring_eqb_neq.
    + now rewrite IH.
Qed.

Lemma rec_get_delete_same r k : rec_get (rec_delete r k) k = None.
Proof.
  induction r as [|[k' v'] r IH]; simpl; [reflexivity|].
  destruct (jsstring_eqb k' k) eqn:E; simpl; [assumption|]. now rewrite E.
Qed.

Lemma rec_get_delete_other r k k' : k <> k' -> rec_get (rec_delete r k) k' = rec_get r k'.
Proof.
  intros Hne. induction r as [|[k0 v0] r IH]; simpl; [reflexivity|].
  destruct (jsstring_eqb k0 k) eqn:E; simpl.
  - apply jsstring_eqb_eq in E; subst k0. now rewrite jsstring_eqb_neq.
  - now rewrite IH.
Qed.

Lemma rec_has_set_same r k v : rec_has (rec_set r k v) k = true.
Proof. unfold rec_has. now rewrite rec_get_set_same. Qed.

Lemma rec_has_delete_same r k : rec_has (rec_delete r k) k = false.
Proof. unfold rec_has. now rewrite rec_get_delete_same. Qed.

(** Every key that [Object.keys] lists is a property of the record. *)
Lemma rec_has_key r k : In k (rec_keys r) -> rec_has r k = true.
Proof.
  unfold rec_has. induction r as [|[k' v'] r IH]; simpl; [tauto|].
  intros [->|Hin].
  - now rewrite jsstring_eqb_refl.
  - destruct (jsstring_eqb k' k); auto.
Qed.

Lemma rec_keys_delete r k : ~ In k (rec_keys (rec_delete r k)).
Proof.
  intros Hin. apply rec_has_key in Hin. now rewrite rec_has_delete_same in Hin.
Qed.

End RecordFacts.

Arguments rec_get_set_same {V} r k v.
Arguments rec_get_set_other {V} r k k' v _.
Arguments rec_get_delete_same {V} r k.
Arguments rec_get_delete_other {V} r k k' _.
Arguments rec_has_set_same {V} r k v.
Arguments rec_has_delete_same {V} r k.
Arguments rec_has_key {V} r k _.
Arguments rec_keys_delete {V} r k _.

(** ** What rendering and saving leave alone *)

Lemma with_settings_same st :
  with_settings
    (AppSettings.mk (AppSettings.nickname (AppState.settings st))
                    (AppSettings.customInstructions (AppState.settings st))
                    (AppSettings.agentName (AppState.settings st))
                    (AppSettings.agentAvatarUrl (AppState.settings st))
                    (AppSettings.searchArchived (AppState.settings st))
                    (AppSettings.isSidebarPinned (AppState.settings st))) st = st.
Proof. destruct st as [c a i t []]; reflexivity. Qed.

Lemma state_saveState w : World.state (saveState w) = World.state w.
Proof. reflexivity. Qed.

Lemma state_appendMessage r t g w : World.state (appendMessage r t g w) = World.state w.
Proof. reflexivity. Qed.

Lemma state_setupConversation w : World.state (setupConversation w) = World.state w.
Proof.
  unfold setupConversation.
  destruct (rec_read _ _); [|reflexivity].
  destruct (World.ai w); [|reflexivity].
  destruct (World.chatsCreateOk w); reflexivity.
Qed.

Lemma state_fold_appendMessage (entries : list HistoryEntry.t) w :
  World.state
    (fold_left
       (fun w' entry =>
          appendMessage (HistoryEntry.role entry) (HistoryEntry.text entry)
                        (HistoryEntry.groundingChunks entry) w')
       entries w) = World.state w.
Proof. revert w; induction entries as [|e es IH]; intros w; simpl; [reflexivity|]. now rewrite IH. Qed.

Lemma state_renderActiveConversation w :
  World.state (renderActiveConversation w) = World.state w.
Proof.
  unfold renderActiveConversation.
  destruct (rec_read _ _); [|reflexivity].
  now rewrite state_setupConversation, state_fold_appendMessage.
Qed.

Lemma state_renderApp w : World.state (renderApp w) = World.state w.
Proof.
  unfold renderApp, updateSidebarPinnedState.
  rewrite state_saveState. cbn [World.state with_state].
  destruct (hasActiveConversation (World.state w)).
  - rewrite state_renderActiveConversation. apply with_settings_same.
  - cbn [World.state showWelcomeScreen with_chatHistoryElement]. apply with_settings_same.
Qed.

(** ** Archiving *)

Lemma toggleArchive_step id w :
  inActive (toggleArchiveConversation id w) id = inArchived w id /\
  inArchived (toggleArchiveConversation id w) id = negb (inArchived w id) /\
  conversationOf (toggleArchiveConversation id w) id = conversationOf w id.
Proof.
  unfold conversationOf, inActive, inArchived, toggleArchiveConversation.
  rewrite state_renderApp, state_saveState. cbn [World.state with_state].
  destruct (rec_has (AppState.archivedConversations (World.state w)) id) eqn:Harch.
  - match goal with
    | |- context [if negb (isSet ?a) then _ else _] => destruct (negb (isSet a))
    end; cbn; rewrite rec_has_set_same, rec_has_delete_same;
      unfold rec_read; rewrite rec_get_set_same; auto.
  - match goal with
    | |- context [if sameId ?a ?b then _ else _] => destruct (sameId a b)
    end; cbn; rewrite rec_has_set_same, rec_has_delete_same;
      unfold rec_read; rewrite rec_get_set_same; auto.
Qed.

Lemma toggleArchiveTimes_flags id w n :
  xorb (inActive w id) (inArchived w id) = true ->
  inActive (toggleArchiveTimes n id w) id
  = (if Nat.even n then inActive w id else inArchived w id) /\
  inArchived (toggleArchiveTimes n id w) id
  = (if Nat.even n then inArchived w id else inActive w id).
Proof.
  intros Hx. induction n as [|n IH]; [split; reflexivity|].
  destruct IH as [IHa IHr].
  cbn [toggleArchiveTimes].
  destruct (toggleArchive_step id (toggleArchiveTimes n id w)) as (Ha & Hr & _).
  rewrite Ha, Hr, IHr. rewrite Nat.even_succ, <- Nat.negb_even.
  destruct (Nat.even n); cbn;
    destruct (inActive w id), (inArchived w id); cbn in *; auto; discriminate.
Qed.

(** C2. For a conversation id that is in exactly one of [conversations] and
    [archivedConversations], after [n] calls of [toggleArchiveConversation]
    on it the id is in the partition it started in when [n] is even and in
    the other one when [n] is odd; after each of the calls (and before the
    first) it is never in both; and the conversation stored under it is the
    one that was stored at the start. *)
Theorem archive_toggle_parity id w n :
  xorb (inActive w id) (inArchived w id) = true ->
  (inActive (toggleArchiveTimes n id w) id
   = (if Nat.even n then inActive w id else inArchived w id)) /\
  (inArchived (toggleArchiveTimes n id w) id
   = (if Nat.even n then inArchived w id else inActive w id)) /\
  (forall k, k <= n ->
     inActive (toggleArchiveTimes k id w) id
     && inArchived (toggleArchiveTimes k id w) id = false) /\
  conversationOf (toggleArchiveTimes n id w) id = conversationOf w id.
Proof.
  intros Hx. repeat split.
  - now apply toggleArchiveTimes_flags.
  - now apply toggleArchiveTimes_flags.
  - intros k _. destruct (toggleArchiveTimes_flags id w k Hx) as [-> ->].
    destruct (Nat.even k), (inActive w id), (inArchived w id); cbn in *;
      auto; discriminate.
  - induction n as [|n IH]; [reflexivity|].
    cbn [toggleArchiveTimes].
    destruct (toggleArchive_step id (toggleArchiveTimes n id w)) as (_ & _ & ->).
    exact IH.
Qed.

Lemma archive_toggle_parity_witness :
  inActive (toggleArchiveTimes 3 (js "convo_1") oneActiveOneArchived) (js "convo_1") = false /\
  inArchived (toggleArchiveTimes 3 (js "convo_1") oneActiveOneArchived) (js "convo_1") = true.
Proof.
  destruct (archive_toggle_parity (js "convo_1") oneActiveOneArchived 3 eq_refl)
    as (Ha & Hr & _).
  split; [exact Ha | exact Hr].
Defined.

(** C10. Unarchiving a conversation ([toggleArchiveConversation] on an id of
    [archivedConversations]) makes it the active one when
    [activeConversationId] is null, and leaves [activeConversationId] as it
    is when it names a conversation of the active partition (a
    non-empty id with an entry in [conversations], the test [renderApp]
    makes) other than the one unarchived. *)
Theorem unarchive_active_id id w :
  inArchived w id = true ->
  (AppState.activeConversationId (World.state w) = None ->
   AppState.activeConversationId (World.state (toggleArchiveConversation id w)) = Some id) /\
  (hasActiveConversation (World.state w) = true ->
   sameId (AppState.activeConversationId (World.state w)) id = false ->
   AppState.activeConversationId (World.state (toggleArchiveConversation id w))
   = AppState.activeConversationId (World.state w)).
Proof.
  intros Harch. unfold inArchived in Harch.
  unfold toggleArchiveConversation.
  rewrite state_renderApp, state_saveState. cbn [World.state with_state].
  rewrite Harch. split.
  - intros Hnone. cbn. rewrite Hnone. reflexivity.
  - intros Hact _. unfold hasActiveConversation in Hact.
    apply andb_true_iff in Hact as [Hset _].
    cbn. rewrite Hset. reflexivity.
Qed.

Lemma unarchive_active_id_witness :
  AppState.activeConversationId
    (World.state (toggleArchiveConversation (js "convo_2") onlyArchived))
  = Some (js "convo_2") /\
  AppState.activeConversationId
    (World.state (toggleArchiveConversation (js "convo_2") oneActiveOneArchived))
  = Some (js "convo_1").
Proof.
  split.
  - exact (proj1 (unarchive_active_id (js "convo_2") onlyArchived eq_refl) eq_refl).
  - exact (proj2 (unarchive_active_id (js "convo_2") oneActiveOneArchived eq_refl)
                 eq_refl eq_refl).
Defined.

(** ** Deleting *)

(** C6. When [activeConversationId] names a conversation of the active
    partition, deleting that conversation (a confirmed
    [deleteConversation(id, false)]) removes it and nothing else, and sets
    [activeConversationId] to the id of a conversation that is still in
    the active partition when one is left, and to null when none is. *)
Theorem delete_active_reassigns id w :
  AppState.activeConversationId (World.state w) = Some id ->
  inActive w id = true ->
  inActive (deleteConversation id false true w) id = false /\
  (forall k, k <> id ->
     rec_get (AppState.conversations (World.state (deleteConversation id false true w))) k
     = rec_get (AppState.conversations (World.state w)) k) /\
  AppState.archivedConversations (World.state (deleteConversation id false true w))
  = AppState.archivedConversations (World.state w) /\
  match rec_keys (AppState.conversations (World.state (deleteConversation id false true w))) with
  | [] =>
      AppState.activeConversationId (World.state (deleteConversation id false true w)) = None
  | _ :: _ =>
      exists id',
        AppState.activeConversationId (World.state (deleteConversation id false true w))
        = Some id' /\
        inActive (deleteConversation id false true w) id' = true /\
        id' <> id
  end.
Proof.
  intros Hact _. unfold inActive, deleteConversation.
  cbn [negb]. rewrite state_renderApp, state_saveState.
  cbn [World.state with_state AppState.activeConversationId with_conversations].
  rewrite Hact. cbn [sameId]. rewrite jsstring_eqb_refl. cbn.
  split; [|split; [|split]].
  - apply rec_has_delete_same.
  - intros k Hk. apply rec_get_delete_other. congruence.
  - reflexivity.
  - unfold firstKey.
    pose proof (rec_has_key (rec_delete (AppState.conversations (World.state w)) id)) as Hin.
    pose proof (rec_keys_delete (AppState.conversations (World.state w)) id) as Hout.
    change (map fst (rec_delete (AppState.conversations (World.state w)) id))
      with (rec_keys (rec_delete (AppState.conversations (World.state w)) id)).
    destruct (rec_keys (rec_delete (AppState.conversations (World.state w)) id))
      as [|k ks]; [reflexivity|].
    exists k. split; [reflexivity|]. split.
    + apply Hin. now left.
    + intros Heq. subst k. apply Hout. now left.
Qed.

Lemma delete_active_reassigns_witness :
  (exists id',
     AppState.activeConversationId
       (World.state (deleteConversation (js "convo_1") false true twoActive)) = Some id' /\
     inActive (deleteConversation (js "convo_1") false true twoActive) id' = true /\
     id' <> js "convo_1") /\
  AppState.activeConversationId
    (World.state (deleteConversation (js "convo_1") false true oneActiveOneArchived))
  = None.
Proof.
  split.
  - destruct (delete_active_reassigns (js "convo_1") twoActive eq_refl eq_refl)
      as (_ & _ & _ & H).
    exact H.
  - destruct (delete_active_reassigns (js "convo_1") oneActiveOneArchived eq_refl eq_refl)
      as (_ & _ & _ & H).
    exact H.
Defined.

(** ** The checklist *)

Lemma toggleLines_beyond lines : forall currentSubtask subtaskIndex checked,
  (currentSubtask + Z.of_nat (List.length (filter isChecklistPrefix lines)) < subtaskIndex)%Z ->
  toggleLines lines currentSubtask subtaskIndex checked = lines.
Proof.
  induction lines as [|line rest IH]; intros cur idx checked Hlt; [reflexivity|].
  cbn [toggleLines filter] in *.
  change (Str.startsWith (Str.trim line) (js "- [")) with (isChecklistPrefix line).
  destruct (isChecklistPrefix line).
  - cbn [List.length] in Hlt.
    destruct (Z.eqb_spec (cur + 1) idx) as [Heq|Hne]; [lia|].
    f_equal. apply IH. lia.
  - f_equal. now apply IH.
Qed.

Lemma with_notes_same t : with_notes (Task.notes t) t = t.
Proof. destruct t; reflexivity. Qed.

Lemma assignNotes_same tasks id task :
  findTask tasks id = Some task -> assignNotes tasks id (Task.notes task) = tasks.
Proof.
  induction tasks as [|t rest IH]; cbn; [reflexivity|].
  destruct (jsstring_eqb (Task.id t) id).
  - intros [= ->]. now rewrite with_notes_same.
  - intros H. now rewrite IH.
Qed.

Lemma with_tasks_same st : with_tasks (AppState.tasks st) st = st.
Proof. destruct st; reflexivity. Qed.

(** C9. When the subtask index is at least the number of lines of the
    task's notes whose trimmed form starts with dash, space, opening
    bracket, the [change] listener writes back the notes it read (splitting
    on newline and joining with newline is the identity) and [state] is
    what it was: no field of the task and no other part of it changes. *)
Theorem toggle_past_last_subtask taskId task subtaskIndex checked w :
  findTask (AppState.tasks (World.state w)) taskId = Some task ->
  (prefixLineCount (Task.notes task) <= subtaskIndex)%Z ->
  Str.join (Str.split (Task.notes task)) = Task.notes task /\
  toggleNotes (Task.notes task) subtaskIndex checked = Task.notes task /\
  World.state (subtaskCheckboxChange taskId subtaskIndex checked w) = World.state w.
Proof.
  intros Hfind Hcount.
  assert (Hnotes : toggleNotes (Task.notes task) subtaskIndex checked = Task.notes task).
  { unfold toggleNotes. rewrite toggleLines_beyond; [apply join_split|].
    unfold prefixLineCount in Hcount. lia. }
  split; [apply join_split|]. split; [exact Hnotes|].
  unfold subtaskCheckboxChange. rewrite Hfind, Hnotes.
  rewrite state_saveState. cbn [World.state with_state].
  rewrite (assignNotes_same _ _ _ Hfind). apply with_tasks_same.
Qed.

Lemma toggle_past_last_subtask_witness :
  toggleNotes scenarioNotes 3 true = scenarioNotes /\
  World.state (subtaskCheckboxChange (js "task_1") 3 true (worldWithTask scenarioNotes))
  = World.state (worldWithTask scenarioNotes).
Proof.
  destruct (toggle_past_last_subtask (js "task_1") (taskWithNotes scenarioNotes) 3 true
              (worldWithTask scenarioNotes) eq_refl)
    as (_ & Hn & Hs).
  - vm_compute. discriminate.
  - split; [exact Hn | exact Hs].
Defined.

(** The scenario of the design notes: counts (1, 3), and ticking index 2
    checks the last line only. *)
Example scenario_checklist :
  Subtasks.completed (parseAndRenderSubtasks (taskWithNotes scenarioNotes)) = 1 /\
  Subtasks.total (parseAndRenderSubtasks (taskWithNotes scenarioNotes)) = 3 /\
  toggleNotes scenarioNotes 2 true
  = js "- [ ] a" ++ LF ++ js "- [x] b" ++ LF ++ js "free text" ++ LF ++ js "- [x] c".
Proof. repeat split; reflexivity. Qed.

(** C3, at the notes [linkThenSubtask].  The checklist shows one subtask,
    index 0, the unchecked line with label a.  Ticking it does not check
    that line: the listener counts the link line as subtask 0, finds no
    empty box in it, and writes the notes back unchanged. *)
Theorem toggle_misses_listed_subtask :
  Subtasks.items (parseAndRenderSubtasks (taskWithNotes linkThenSubtask))
  = [SubtaskItem.mk 0 false (js "a")] /\
  toggleNotes linkThenSubtask 0 true = linkThenSubtask /\
  toggleNotes linkThenSubtask 0 true <> js "- [link](u)" ++ LF ++ js "- [x] a" /\
  World.state (subtaskCheckboxChange (js "task_1") 0 true (worldWithTask linkThenSubtask))
  = World.state (worldWithTask linkThenSubtask).
Proof. repeat split; try reflexivity. vm_compute. discriminate. Qed.

(** The same mismatch writing to a line the checklist does not show: with
    [bareBoxThenSubtask], ticking the only subtask shown (label a) checks
    the bare box of the line before it. *)
Example toggle_changes_unlisted_line :
  Subtasks.items (parseAndRenderSubtasks (taskWithNotes bareBoxThenSubtask))
  = [SubtaskItem.mk 0 false (js "a")] /\
  toggleNotes bareBoxThenSubtask 0 true = js "- [x]" ++ LF ++ js "- [ ] a".
Proof. split; reflexivity. Qed.

Lemma trimStart_app_trimmed ws s :
  forallb Str.isTrimmed ws = true -> Str.trimStart (ws ++ s) = Str.trimStart s.
Proof.
  induction ws as [|c ws IH]; cbn; [reflexivity|].
  intros H. apply andb_true_iff in H as [-> H]. now apply IH.
Qed.

Lemma trimStart_stop x c y :
  Str.isTrimmed c = false -> Str.trimStart (x ++ c :: y) = Str.trimStart x ++ c :: y.
Proof.
  intros Hc. induction x as [|d x IH]; cbn.
  - now rewrite Hc.
  - destruct (Str.isTrimmed d); [exact IH | reflexivity].
Qed.

Lemma trimEnd_keep a c b :
  Str.isTrimmed c = false -> Str.trimEnd (a ++ c :: b) = a ++ c :: Str.trimEnd b.
Proof.
  intros Hc. unfold Str.trimEnd.
  rewrite rev_app_distr. cbn [rev]. rewrite <- app_assoc. cbn [app].
  rewrite (trimStart_stop _ _ _ Hc).
  rewrite rev_app_distr. cbn [rev]. rewrite rev_involutive, <- app_assoc. reflexivity.
Qed.

Lemma isChecklistPrefix_indented ws rest :
  forallb Str.isTrimmed ws = true ->
  isChecklistPrefix (ws ++ js "- [" ++ rest) = true.
Proof.
  intros Hws. unfold isChecklistPrefix, Str.trim.
  rewrite (trimStart_app_trimmed _ _ Hws).
  change (js "- [" ++ rest) with ([45; 32] ++ 91 :: rest)%N.
  cbn [app Str.trimStart]. change (Str.isTrimmed 45) with false. cbv iota.
  change (45 :: 32 :: 91 :: rest)%N with ([45; 32] ++ 91 :: rest)%N.
  rewrite trimEnd_keep by reflexivity. reflexivity.
Qed.

Lemma replace_after_trimmed ws s p rep :
  forallb Str.isTrimmed ws = true ->
  Str.replace (ws ++ s) (91%N :: p) rep = ws ++ Str.replace s (91%N :: p) rep.
Proof.
  induction ws as [|c ws IH]; [reflexivity|].
  cbn [forallb]. intros H. apply andb_true_iff in H as [Hc H].
  cbn [app Str.replace Str.startsWith].
  destruct (N.eqb_spec c 91) as [->|Hne]; [discriminate Hc|].
  cbn [andb]. f_equal. now apply IH.
Qed.

Lemma toggleLines_hit pre line post checked : forall currentSubtask,
  isChecklistPrefix line = true ->
  toggleLines (pre ++ line :: post) currentSubtask
              (currentSubtask + 1 + Z.of_nat (List.length (filter isChecklistPrefix pre)))
              checked
  = pre ++ (if checked
            then Str.replace line (js "[ ]") (js "[x]")
            else Str.replace line (js "[x]") (js "[ ]")) :: post.
Proof.
  intros cur Hline. revert cur.
  induction pre as [|l pre IH]; intros cur; cbn [app toggleLines filter].
  - change (Str.startsWith (Str.trim line) (js "- [")) with (isChecklistPrefix line).
    rewrite Hline. cbn [List.length Z.of_nat]. rewrite Z.add_0_r, Z.eqb_refl. reflexivity.
  - change (Str.startsWith (Str.trim l) (js "- [")) with (isChecklistPrefix l).
    destruct (isChecklistPrefix l).
    + cbn [List.length].
      destruct (Z.eqb_spec (cur + 1)
                  (cur + 1 + Z.of_nat (S (List.length (filter isChecklistPrefix pre)))));
        [lia|].
      f_equal.
      replace (cur + 1 + Z.of_nat (S (List.length (filter isChecklistPrefix pre))))%Z
        with (cur + 1 + 1 + Z.of_nat (List.length (filter isChecklistPrefix pre)))%Z by lia.
      apply IH.
    + f_equal. apply IH.
Qed.

(** Where the two ways of counting agree on the lines before it, ticking
    or unticking a box does what the checklist promises: of the line
    ws - [m] text, with m a space or an x, listed with the index of the
    checklist lines before it, only the marker changes, and every other
    line is written back as it was. *)
Theorem toggle_flips_when_counts_agree notes pre ws m text post :
  Str.split notes = pre ++ (ws ++ js "- [" ++ [m] ++ js "] " ++ text) :: post ->
  forallb Str.isTrimmed ws = true ->
  m = 32%N \/ m = 120%N ->
  List.length (filter isChecklistPrefix pre) = List.length (filter isChecklistLine pre) ->
  toggleNotes notes (Z.of_nat (List.length (filter isChecklistLine pre))) (m =? 32)%N
  = Str.join (pre ++ (ws ++ js "- [" ++ [if (m =? 32)%N then 120%N else 32%N] ++ js "] " ++ text)
                  :: post).
Proof.
  intros Hsplit Hws Hm Hagree. unfold toggleNotes. rewrite Hsplit, <- Hagree.
  replace (Z.of_nat (List.length (filter isChecklistPrefix pre)))
    with (-1 + 1 + Z.of_nat (List.length (filter isChecklistPrefix pre)))%Z by lia.
  rewrite toggleLines_hit by now apply isChecklistPrefix_indented.
  f_equal. f_equal. f_equal.
  destruct Hm as [-> | ->]; cbn [N.eqb Pos.eqb];
    (etransitivity; [apply (replace_after_trimmed _ _ _ _ Hws)|]); reflexivity.
Qed.

(** ** The task form *)

(** C4. A submission of the task form whose trimmed title is empty is
    refused before anything is changed: [state] (the tasks and the rest) is
    what it was, nothing is written to storage, the form stays open on the
    task being edited, and the one effect is the error notification. *)
Theorem empty_title_rejected form tId tCreated w :
  Str.trim (TaskForm.taskTitleInput form) = [] ->
  World.state (handleTaskFormSubmit form tId tCreated w) = World.state w /\
  World.storage (handleTaskFormSubmit form tId tCreated w) = World.storage w /\
  World.editingTaskId (handleTaskFormSubmit form tId tCreated w) = World.editingTaskId w /\
  World.toasts (handleTaskFormSubmit form tId tCreated w)
  = World.toasts w ++ [(TITLE_EMPTY, error)].
Proof.
  intros Htitle. unfold handleTaskFormSubmit. rewrite Htitle. cbn.
  repeat split.
Qed.

Lemma empty_title_rejected_witness :
  World.state (handleTaskFormSubmit blankTitleForm 5 5 (worldWithTask scenarioNotes))
  = World.state (worldWithTask scenarioNotes) /\
  World.storage (handleTaskFormSubmit blankTitleForm 5 5 (worldWithTask scenarioNotes)) = [].
Proof.
  destruct (empty_title_rejected blankTitleForm 5 5 (worldWithTask scenarioNotes) eq_refl)
    as (Hs & Hw & _).
  split; [exact Hs | exact Hw].
Defined.

(** A title that is not blank does reach the store and the storage. *)
Example titled_form_creates_task :
  List.length
    (AppState.tasks
       (World.state
          (handleTaskFormSubmit (TaskForm.mk [] (js " Buy milk ") [] todo low [] [] [])
                                7 7 (worldWithTask scenarioNotes)))) = 2 /\
  List.length
    (World.storage
       (handleTaskFormSubmit (TaskForm.mk [] (js " Buy milk ") [] todo low [] [] [])
                             7 7 (worldWithTask scenarioNotes))) = 1.
Proof. split; reflexivity. Qed.

(** ** Sending a message *)

Lemma pushHistory_read cid e w c :
  rec_read (AppState.conversations (World.state w)) cid = Some c ->
  rec_read (AppState.conversations (World.state (pushHistory cid e w))) cid
  = Some (Conversation.mk (Conversation.id c) (Conversation.title c)
                          (Conversation.history c ++ [e])
                          (Conversation.customInstructions c) (Conversation.createdAt c)).
Proof.
  intros H. unfold pushHistory. rewrite H. cbn.
  unfold rec_read. now rewrite rec_get_set_same.
Qed.

Lemma pushHistory_active cid e w :
  AppState.activeConversationId (World.state (pushHistory cid e w))
  = AppState.activeConversationId (World.state w).
Proof. unfold pushHistory. destruct (rec_read _ _); reflexivity. Qed.

Lemma pushHistory_page cid e w :
  World.ai (pushHistory cid e w) = World.ai w /\
  World.chat (pushHistory cid e w) = World.chat w /\
  World.chatsCreateOk (pushHistory cid e w) = World.chatsCreateOk w.
Proof. unfold pushHistory. destruct (rec_read _ _); repeat split. Qed.

Lemma setupConversation_chat w c :
  World.ai w = true ->
  rec_read (AppState.conversations (World.state w))
           (keyOf (AppState.activeConversationId (World.state w))) = Some c ->
  match World.chat w with Some _ => true | None => false end || World.chatsCreateOk w = true ->
  World.chat (setupConversation w) <> None.
Proof.
  intros Hai Hc Hav. unfold setupConversation. rewrite Hc, Hai.
  destruct (World.chatsCreateOk w); cbn; [discriminate|].
  rewrite orb_false_r in Hav. destruct (World.chat w); [discriminate|discriminate].
Qed.

Lemma setupConversation_page w :
  World.ai (setupConversation w) = World.ai w /\
  World.chatsCreateOk (setupConversation w) = World.chatsCreateOk w.
Proof.
  unfold setupConversation.
  destruct (rec_read _ _); [|split; reflexivity].
  destruct (World.ai w) eqn:Ea; [|split; [exact Ea | reflexivity]].
  destruct (World.chatsCreateOk w) eqn:Ec; split; assumption.
Qed.

Lemma atSend_state msg cid b w0 :
  World.state (atSend msg cid b w0)
  = World.state (pushHistory cid (HistoryEntry.mk user msg None) w0).
Proof.
  unfold atSend. cbv zeta.
  assert (E : forall e v, World.state (pushHistory cid e (appendMessage user msg None v))
                   = World.state (pushHistory cid e v)).
  { intros e v. unfold pushHistory. rewrite state_appendMessage.
    destruct (rec_read _ _); reflexivity. }
  destruct b.
  - destruct (World.chat _); rewrite ?state_setupConversation, ?state_saveState,
      ?state_setupConversation; apply E.
  - destruct (World.chat _); rewrite ?state_setupConversation, ?state_saveState; apply E.
Qed.

Lemma atSend_chat msg cid b w0 c :
  World.ai w0 = true ->
  rec_read (AppState.conversations (World.state w0)) cid = Some c ->
  keyOf (AppState.activeConversationId (World.state w0)) = cid ->
  match World.chat w0 with Some _ => true | None => false end || World.chatsCreateOk w0 = true ->
  World.chat (atSend msg cid b w0) <> None.
Proof.
  intros Hai Hc Hk Hav. unfold atSend. cbv zeta.
  set (w2 := pushHistory cid _ (appendMessage user msg None w0)).
  assert (Hai2 : World.ai w2 = true).
  { unfold w2. rewrite (proj1 (pushHistory_page _ _ _)). exact Hai. }
  assert (Hc2 : exists c2, rec_read (AppState.conversations (World.state w2))
                    (keyOf (AppState.activeConversationId (World.state w2))) = Some c2).
  { unfold w2. rewrite pushHistory_active, state_appendMessage, Hk.
    eexists. apply pushHistory_read. rewrite state_appendMessage. exact Hc. }
  destruct Hc2 as [c2 Hc2].
  assert (Hav2 : match World.chat w2 with Some _ => true | None => false end
                 || World.chatsCreateOk w2 = true).
  { unfold w2. destruct (pushHistory_page cid (HistoryEntry.mk user msg None)
                           (appendMessage user msg None w0)) as (_ & -> & ->). exact Hav. }
  clearbody w2.
  destruct b.
  - pose proof (setupConversation_chat w2 c2 Hai2 Hc2 Hav2) as Hs.
    cbn [World.chat saveState with_storage].
    destruct (World.chat (setupConversation w2)) eqn:E; [|congruence].
    cbn. rewrite E. discriminate.
  - cbn [World.chat saveState with_storage].
    destruct (World.chat w2) eqn:E.
    + cbn. rewrite E. discriminate.
    + apply (setupConversation_chat (saveState w2) c2); auto.
      cbn. rewrite E. exact Hav2.
Qed.

Lemma errorMarkers_app a b : errorMarkers (a ++ b) = errorMarkers a + errorMarkers b.
Proof. unfold errorMarkers. now rewrite filter_app, length_app. Qed.

Lemma setupConversation_shown w :
  errorMarkers (World.chatHistoryElement (setupConversation w))
  = errorMarkers (World.chatHistoryElement w).
Proof.
  unfold setupConversation.
  destruct (rec_read _ _); [|reflexivity].
  destruct (World.ai w); [|reflexivity].
  destruct (World.chatsCreateOk w); [reflexivity|].
  cbn [appendMessage World.chatHistoryElement with_chatHistoryElement].
  rewrite errorMarkers_app. cbn. lia.
Qed.

Lemma pushHistory_shown cid e w :
  World.chatHistoryElement (pushHistory cid e w) = World.chatHistoryElement w.
Proof. unfold pushHistory. destruct (rec_read _ _); reflexivity. Qed.

Lemma atSend_shown msg cid b w0 :
  errorMarkers (World.chatHistoryElement (atSend msg cid b w0))
  = errorMarkers (World.chatHistoryElement w0).
Proof.
  assert (E : errorMarkers
                (World.chatHistoryElement
                   (pushHistory cid (HistoryEntry.mk user msg None)
                                (appendMessage user msg None w0)))
              = errorMarkers (World.chatHistoryElement w0)).
  { rewrite pushHistory_shown.
    cbn [appendMessage World.chatHistoryElement with_chatHistoryElement].
    rewrite errorMarkers_app. cbn. lia. }
  unfold atSend. cbv zeta.
  destruct b.
  - destruct (World.chat _); rewrite ?setupConversation_shown; cbn [saveState with_storage World.chatHistoryElement];
      rewrite ?setupConversation_shown; exact E.
  - destruct (World.chat _); rewrite ?setupConversation_shown; exact E.
Qed.

(** The transient message is never the error message: it is empty or ends
    with the cursor. *)
Lemma transientBody_not_error chunks :
  jsstring_eqb (transientBody chunks) ERROR_REPLY = false.
Proof.
  destruct chunks as [|c cs]; [reflexivity|].
  apply jsstring_eqb_neq. unfold transientBody, CURSOR. intros H.
  apply (f_equal (@rev N)) in H. rewrite rev_app_distr in H.
  vm_compute in H. discriminate H.
Qed.

Lemma startNewChat_read tId tCreated w :
  rec_read (AppState.conversations (World.state (snd (startNewChat false tId tCreated w))))
           (js "convo_" ++ decimal tId)
  = Some (Conversation.mk (js "convo_" ++ decimal tId) (js "New Chat") []
            (AppSettings.customInstructions (AppState.settings (World.state w))) tCreated).
Proof. unfold startNewChat. cbn. unfold rec_read. now rewrite rec_get_set_same. Qed.

Lemma handleFormSubmit_sends input tId tCreated w :
  truthy (Str.trim input) = true ->
  reachesBackend w = true ->
  exists w0 isFirstMessage,
    World.chatHistoryElement w0 = World.chatHistoryElement w /\
    World.chat (atSend (Str.trim input) (sendTarget tId w) isFirstMessage w0) <> None /\
    historyOf (atSend (Str.trim input) (sendTarget tId w) isFirstMessage w0) (sendTarget tId w)
    = historyAtSend w ++ [HistoryEntry.mk user (Str.trim input) None] /\
    forall reply,
      handleFormSubmit input tId tCreated reply w
      = let w5 := atSend (Str.trim input) (sendTarget tId w) isFirstMessage w0 in
        match World.chat w5, reply with
        | None, _ => Some (appendMessage model ERROR_REPLY None w5)
        | Some _, SendRejected => Some (appendMessage model ERROR_REPLY None w5)
        | Some _, Streamed chunks false =>
            Some (appendMessage model ERROR_REPLY None
                    (appendMessage model (transientBody chunks) None w5))
        | Some _, Streamed chunks true =>
            let r := receiveAll chunks in
            let w6 := appendMessage model (Reply.modelResponse r)
                                    (Some (Reply.groundingChunks r)) w5 in
            let w7 := pushHistory (sendTarget tId w)
                        (HistoryEntry.mk model (Reply.modelResponse r)
                                         (Some (Reply.groundingChunks r))) w6 in
            let w8 := if isFirstMessage : bool
                      then fire (TitleSynthesis (sendTarget tId w)) w7 else w7 in
            Some (fire (TaskSuggestion (sendTarget tId w)) (saveState w8))
        end.
Proof.
  intros Hmsg Hreach. unfold reachesBackend in Hreach.
  apply andb_true_iff in Hreach as [Hreach Hchat].
  apply andb_true_iff in Hreach as [Hai Hconv].
  assert (Hcase :
    exists w0 c,
      World.ai w0 = true /\
      rec_read (AppState.conversations (World.state w0)) (sendTarget tId w) = Some c /\
      keyOf (AppState.activeConversationId (World.state w0)) = sendTarget tId w /\
      (match World.chat w0 with Some _ => true | None => false end
       || World.chatsCreateOk w0 = true) /\
      Conversation.history c = historyAtSend w /\
      World.chatHistoryElement w0 = World.chatHistoryElement w /\
      match AppState.activeConversationId (World.state w) with
      | Some a => if truthy a then (a, w) else startNewChat false tId tCreated w
      | None => startNewChat false tId tCreated w
      end = (sendTarget tId w, w0)).
  { unfold sendTarget, historyAtSend, historyOf.
    destruct (AppState.activeConversationId (World.state w)) as [a|] eqn:Ha; cbn [isSet keyOf] in *.
    - destruct (truthy a) eqn:Ht; cbn [negb orb] in Hconv.
      + destruct (rec_read (AppState.conversations (World.state w)) a) as [c|] eqn:Hc;
          [|discriminate].
        exists w, c. rewrite Ha. cbn [keyOf]. repeat split; auto.
      + eexists _, _. split; [|split; [apply startNewChat_read|]]; [exact Hai|].
        repeat split; auto.
    - eexists _, _. split; [|split; [apply startNewChat_read|]]; [exact Hai|].
      repeat split; auto. }
  destruct Hcase as (w0 & c & Hai0 & Hc0 & Hk0 & Hav0 & Hhist & Hview & Hpair).
  exists w0, (Nat.eqb (List.length (Conversation.history c)) 0).
  split; [exact Hview|]. split; [|split].
  - now apply (atSend_chat _ _ _ _ c).
  - unfold historyOf. rewrite atSend_state.
    rewrite (pushHistory_read _ _ _ _ Hc0). cbn. now rewrite Hhist.
  - intros reply. unfold handleFormSubmit.
    rewrite Hmsg, Hai. cbn [negb orb]. rewrite Hpair. rewrite Hc0.
    reflexivity.
Qed.

Lemma receive_fold chunks : forall acc,
  Reply.modelResponse (fold_left receive chunks acc)
  = Reply.modelResponse acc ++ streamText chunks /\
  Reply.groundingChunks (fold_left receive chunks acc)
  = match latestGrounding chunks with
    | Some g => g
    | None => Reply.groundingChunks acc
    end.
Proof.
  induction chunks as [|c rest IH]; intros acc; cbn [fold_left latestGrounding].
  - unfold streamText. cbn. now rewrite app_nil_r.
  - destruct (IH (receive acc c)) as [-> ->]. split.
    + unfold streamText. cbn. now rewrite app_assoc.
    + destruct (latestGrounding rest); [reflexivity|].
      cbn. destruct (chunkGrounding c); reflexivity.
Qed.

Lemma historyOf_pushHistory cid e w :
  historyOf w cid <> [] ->
  historyOf (pushHistory cid e w) cid = historyOf w cid ++ [e].
Proof.
  unfold historyOf. intros Hne.
  destruct (rec_read (AppState.conversations (World.state w)) cid) as [c|] eqn:Hc;
    [|congruence].
  now rewrite (pushHistory_read _ _ _ _ Hc).
Qed.

(** On streams in which no chunk carries an empty array the two readings
    of the grounding rule agree. *)
Lemma latestGrounding_nonempty chunks :
  (forall c, In c chunks -> chunkGrounding c <> Some []) ->
  latestNonEmptyGrounding chunks = latestGrounding chunks.
Proof.
  induction chunks as [|c rest IH]; intros Hne; [reflexivity|].
  cbn. rewrite IH by (intros c' Hc'; apply Hne; now right).
  destruct (latestGrounding rest); [reflexivity|].
  specialize (Hne c (or_introl eq_refl)).
  destruct (chunkGrounding c) as [[|x g]|]; congruence.
Qed.

(** C1, as the code has it. When a message is sent and the stream of the
    reply throws after some chunks, the handler returns, and the history of
    the conversation is the history it had followed by the user's entry
    alone: the text received so far is not committed and no error entry is
    added to it.  The error marker goes to the rendered chat: it is its
    last message, and the chat has exactly one error marker more than
    before. *)
Theorem failed_stream_history input tId tCreated chunks w :
  truthy (Str.trim input) = true ->
  reachesBackend w = true ->
  exists w',
    handleFormSubmit input tId tCreated (Streamed chunks false) w = Some w' /\
    historyOf w' (sendTarget tId w)
    = historyAtSend w ++ [HistoryEntry.mk user (Str.trim input) None] /\
    (exists shown,
       World.chatHistoryElement w' = shown ++ [MessageGroup.mk model ERROR_REPLY None]) /\
    errorMarkers (World.chatHistoryElement w') = S (errorMarkers (World.chatHistoryElement w)).
Proof.
  intros Hmsg Hreach.
  destruct (handleFormSubmit_sends input tId tCreated w Hmsg Hreach)
    as (w0 & isFirst & Hview & Hchat & Hhist & Hrun).
  specialize (Hrun (Streamed chunks false)). cbv zeta in Hrun.
  pose proof (atSend_shown (Str.trim input) (sendTarget tId w) isFirst w0) as Hshown.
  destruct (World.chat (atSend _ _ _ _)) as [ch|]; [|congruence].
  eexists. split; [exact Hrun|]. split; [exact Hhist|]. split.
  - eexists. reflexivity.
  - cbn [appendMessage World.chatHistoryElement with_chatHistoryElement].
    rewrite !errorMarkers_app, Hshown, Hview.
    unfold errorMarkers at 2 3. cbn [filter isErrorMarker MessageGroup.role MessageGroup.body].
    rewrite transientBody_not_error. cbn. lia.
Qed.

Lemma failed_stream_history_witness :
  exists w',
    handleFormSubmit (js "hi") 9 9 (Streamed [chunkOf (js "Hello, wo") None] false)
                     oneActiveOneArchived = Some w' /\
    historyOf w' (js "convo_1") = [HistoryEntry.mk user (js "hi") None].
Proof.
  destruct (failed_stream_history (js "hi") 9 9 [chunkOf (js "Hello, wo") None]
              oneActiveOneArchived eq_refl eq_refl) as (w' & Hrun & Hhist & _).
  exists w'. split; [exact Hrun | exact Hhist].
Defined.

(** C1, as stated, fails: after the stream of the reply to hi breaks off at
    the text Hello, wo, the history holds the user's entry and nothing
    else, so no error marker was added to it. *)
Lemma failed_stream_not_in_history :
  match handleFormSubmit (js "hi") 9 9 (Streamed [chunkOf (js "Hello, wo") None] false)
                         oneActiveOneArchived with
  | Some w' =>
      historyOf w' (js "convo_1") = [HistoryEntry.mk user (js "hi") None] /\
      ~ failureRecordedInHistory (historyOf oneActiveOneArchived (js "convo_1"))
                                 (historyOf w' (js "convo_1"))
                                 (HistoryEntry.mk user (js "hi") None)
                                 (js "Hello, wo")
  | None => False
  end.
Proof.
  vm_compute. split; [reflexivity|].
  intros [_ [marker H]]. discriminate H.
Qed.

(** C5, as the code has it. A reply whose stream ends is committed as one
    model entry after the user's, with the text of all chunks and the
    [groundingChunks] array of the latest chunk that carried one, whatever
    its length (an empty array replaces an earlier one with elements; a
    chunk with no array leaves it); the array is empty when no chunk
    carried one. *)
Theorem committed_grounding input tId tCreated chunks w :
  truthy (Str.trim input) = true ->
  reachesBackend w = true ->
  exists w',
    handleFormSubmit input tId tCreated (Streamed chunks true) w = Some w' /\
    historyOf w' (sendTarget tId w)
    = historyAtSend w
      ++ [HistoryEntry.mk user (Str.trim input) None;
          HistoryEntry.mk model (streamText chunks)
            (Some match latestGrounding chunks with
                  | Some g => g
                  | None => []
                  end)].
Proof.
  intros Hmsg Hreach.
  destruct (handleFormSubmit_sends input tId tCreated w Hmsg Hreach)
    as (w0 & isFirst & _ & Hchat & Hhist & Hrun).
  specialize (Hrun (Streamed chunks true)). cbv zeta in Hrun.
  set (w5 := atSend _ _ _ _) in *.
  destruct (World.chat w5) as [ch|]; [|congruence].
  eexists. split; [exact Hrun|].
  assert (Hst : forall b v, World.state (if b : bool then fire (TitleSynthesis (sendTarget tId w)) v else v)
                     = World.state v) by (intros [] v; reflexivity).
  unfold historyOf at 1. cbn [World.state fire with_inflight]. rewrite state_saveState, Hst.
  fold (historyOf (pushHistory (sendTarget tId w)
                     (HistoryEntry.mk model (Reply.modelResponse (receiveAll chunks))
                                      (Some (Reply.groundingChunks (receiveAll chunks))))
                     (appendMessage model (Reply.modelResponse (receiveAll chunks))
                                    (Some (Reply.groundingChunks (receiveAll chunks))) w5))
                  (sendTarget tId w)).
  rewrite historyOf_pushHistory.
  - unfold historyOf at 1. rewrite state_appendMessage. fold (historyOf w5 (sendTarget tId w)).
    rewrite Hhist, <- app_assoc. cbn [app].
    unfold receiveAll. destruct (receive_fold chunks (Reply.mk [] [])) as [-> ->].
    reflexivity.
  - unfold historyOf at 1. rewrite state_appendMessage. fold (historyOf w5 (sendTarget tId w)).
    rewrite Hhist. intros H. apply app_eq_nil in H as [_ H]. discriminate.
Qed.

Lemma committed_grounding_witness :
  exists w',
    handleFormSubmit (js "hi") 9 9 (Streamed sourcesThenEmpty true) oneActiveOneArchived
    = Some w' /\
    historyOf w' (js "convo_1")
    = [HistoryEntry.mk user (js "hi") None; HistoryEntry.mk model (js "Hello!") (Some [])].
Proof.
  destruct (committed_grounding (js "hi") 9 9 sourcesThenEmpty oneActiveOneArchived
              eq_refl eq_refl) as (w' & Hrun & Hhist).
  exists w'. split; [exact Hrun | exact Hhist].
Defined.

(** C5, as stated, fails: the first chunk of the reply carries one source
    and the second an empty array; the entry committed has the empty array,
    not the latest array with an element. *)
Lemma empty_grounding_array_wins :
  match handleFormSubmit (js "hi") 9 9 (Streamed sourcesThenEmpty true)
                         oneActiveOneArchived with
  | Some w' =>
      exists committed,
        historyOf w' (js "convo_1") = [HistoryEntry.mk user (js "hi") None; committed] /\
        HistoryEntry.groundingChunks committed = Some [] /\
        latestNonEmptyGrounding sourcesThenEmpty = Some [exampleSource] /\
        ~ lastNonEmptyWins sourcesThenEmpty committed
  | None => False
  end.
Proof.
  vm_compute. eexists. split; [reflexivity|]. split; [reflexivity|].
  split; [reflexivity|].
  intros H. specialize (H _ eq_refl). discriminate H.
Qed.

(** The scenario of the design notes: with no conversation yet, sending hi
    and receiving He, llo! makes a conversation whose history is the user's
    entry and the model's, and title synthesis is fired once. *)
Example first_exchange :
  match handleFormSubmit (js "hi") 9 9
          (Streamed [chunkOf (js "He") None; chunkOf (js "llo!") None] true) freshWorld with
  | Some w' =>
      historyOf w' (js "convo_9")
      = [HistoryEntry.mk user (js "hi") None; HistoryEntry.mk model (js "Hello!") (Some [])] /\
      World.inflight w' = [TitleSynthesis (js "convo_9"); TaskSuggestion (js "convo_9")]
  | None => False
  end.
Proof. vm_compute. split; reflexivity. Qed.

(** ** Title synthesis *)

(** C8. When the model call of [generateConversationTitle] fails, nothing
    changes: every conversation keeps the title it had (for the one being
    titled, the placeholder New Chat of [startNewChat]) and its history, no
    message is added to the rendered chat, no notification is shown and
    nothing is saved. *)
Theorem title_failure_is_silent convoId w :
  generateConversationTitle convoId None w = w /\
  (forall id,
     option_map Conversation.title
                (conversationOf (generateConversationTitle convoId None w) id)
     = option_map Conversation.title (conversationOf w id)) /\
  (forall id, historyOf (generateConversationTitle convoId None w) id = historyOf w id) /\
  World.chatHistoryElement (generateConversationTitle convoId None w)
  = World.chatHistoryElement w.
Proof.
  assert (E : generateConversationTitle convoId None w = w).
  { unfold generateConversationTitle.
    destruct (rec_read _ _) as [convo|]; [|reflexivity].
    destruct (Nat.ltb _ _); reflexivity. }
  rewrite E. repeat split.
Qed.

(** The same call returning a text does change the title. *)
Example title_success :
  option_map Conversation.title
    (conversationOf
       (generateConversationTitle (js "convo_1") (Some (js " Friendly greeting "))
                                  afterFirstExchange)
       (js "convo_1"))
  = Some (js "Friendly greeting") /\
  option_map Conversation.title
    (conversationOf (generateConversationTitle (js "convo_1") None afterFirstExchange)
                    (js "convo_1"))
  = Some (js "New Chat").
Proof. split; reflexivity. Qed.

(** ** Loading *)

Section SpreadFacts.
Variable V : Type.
Implicit Types (r t src : JsRecord V) (k : jsstring) (v : V).

Lemma rec_get_absent r k : ~ In k (rec_keys r) -> rec_get r k = None.
Proof.
  induction r as [|[k' v'] r IH]; cbn; [reflexivity|].
  intros Hnot. rewrite jsstring_eqb_neq by tauto. apply IH. tauto.
Qed.

Lemma rec_keys_set r k v :
  rec_keys (rec_set r k v) = if rec_has r k then rec_keys r else rec_keys r ++ [k].
Proof.
  unfold rec_has, rec_keys. induction r as [|[k' v'] r IH]; cbn; [reflexivity|].
  destruct (jsstring_eqb k' k) eqn:E; cbn; [reflexivity|].
  rewrite IH. destruct (rec_get r k); reflexivity.
Qed.

Lemma rec_has_absent r k : rec_has r k = false -> ~ In k (rec_keys r).
Proof. intros H Hin. apply rec_has_key in Hin. congruence. Qed.

Lemma NoDup_keys_set r k v : NoDup (rec_keys r) -> NoDup (rec_keys (rec_set r k v)).
Proof.
  intros Hnd. rewrite rec_keys_set.
  destruct (rec_has r k) eqn:E; [assumption|].
  apply NoDup_app; [assumption | constructor; [tauto | constructor] |].
  intros x Hx [<-|[]]. now apply rec_has_absent in E.
Qed.

End SpreadFacts.

Lemma NoDup_keys_spread src : forall t,
  NoDup (rec_keys t) -> NoDup (rec_keys (spread t src)).
Proof.
  induction src as [|[k v] src IH]; intros t Hnd; cbn; [assumption|].
  apply IH. now apply NoDup_keys_set.
Qed.

(** A spread property reads as in the source, and as in the target when
    the source does not have it. *)
Lemma spread_get src : forall t k,
  NoDup (rec_keys src) ->
  rec_get (spread t src) k
  = match rec_get src k with
    | Some v => Some v
    | None => rec_get t k
    end.
Proof.
  induction src as [|[k0 v0] src IH]; intros t k Hnd; [reflexivity|].
  inversion Hnd as [|? ? Hnot Hnd']; subst.
  change (spread t ((k0, v0) :: src)) with (spread (rec_set t k0 v0) src).
  rewrite IH by assumption. cbn [rec_get].
  destruct (jsstring_eqb k0 k) eqn:E.
  - apply jsstring_eqb_eq in E; subst k0.
    rewrite (rec_get_absent _ _ _ Hnot). apply rec_get_set_same.
  - destruct (rec_get src k); [reflexivity|].
    apply rec_get_set_other. intros ->. now rewrite jsstring_eqb_refl in E.
Qed.

Lemma NoDup_ownProperties v : NoDup (rec_keys (ownProperties v)).
Proof.
  destruct v as [[]|]; cbn [ownProperties];
    try apply NoDup_keys_spread; constructor.
Qed.

Lemma loadState_parsed JSON_parse savedState parsedState :
  truthy savedState = true ->
  JSON_parse savedState = Some parsedState ->
  parsedState <> JNull ->
  loadState JSON_parse (Some savedState)
  = Some (rec_set
            (rec_set (spread (spread [] getInitialState) (ownProperties (Some parsedState)))
                     (js "settings")
                     (JObject (spread (spread [] defaultSettings)
                                      (ownProperties (prop parsedState (js "settings"))))))
            (js "tasks")
            (match prop parsedState (js "tasks") with
             | Some tasks => if jsonTruthy (Some tasks) then tasks else JArray []
             | None => JArray []
             end)).
Proof.
  intros Ht Hp Hnn. unfold loadState. rewrite Ht, Hp.
  destruct parsedState; congruence.
Qed.

(** C7, as the code has it. When the stored text is absent, empty, or
    parses to a value other than [null], [loadState] returns a state whose
    [settings] has every field of the default settings, with the persisted
    value where the persisted settings have the field and the default where
    they do not.  Fields that [AppSettings] or [AppState] do not have are
    not dropped: every field of the persisted settings, and every field of
    the persisted state other than [settings] and [tasks], is in the loaded
    state with its persisted value. *)
Theorem loadState_merges JSON_parse item :
  loadable JSON_parse item = true ->
  exists state settings,
    loadState JSON_parse item = Some state /\
    rec_get state (js "settings") = Some (JObject settings) /\
    (forall k d,
       rec_get defaultSettings k = Some d ->
       rec_get settings k
       = Some match rec_get (persistedSettings JSON_parse item) k with
              | Some v => v
              | None => d
              end) /\
    (forall k v,
       rec_get (persistedSettings JSON_parse item) k = Some v ->
       rec_get settings k = Some v) /\
    (forall k v,
       k <> js "settings" -> k <> js "tasks" ->
       rec_get (persistedFields JSON_parse item) k = Some v ->
       rec_get state k = Some v).
Proof.
  intros Hload.
  assert (Hdefault :
    persisted JSON_parse item = None ->
    loadState JSON_parse item = Some getInitialState ->
    exists state settings,
      loadState JSON_parse item = Some state /\
      rec_get state (js "settings") = Some (JObject settings) /\
      (forall k d,
         rec_get defaultSettings k = Some d ->
         rec_get settings k
         = Some match rec_get (persistedSettings JSON_parse item) k with
                | Some v => v
                | None => d
                end) /\
      (forall k v,
         rec_get (persistedSettings JSON_parse item) k = Some v ->
         rec_get settings k = Some v) /\
      (forall k v,
         k <> js "settings" -> k <> js "tasks" ->
         rec_get (persistedFields JSON_parse item) k = Some v ->
         rec_get state k = Some v)).
  { intros Hp Hl. exists getInitialState, defaultSettings.
    unfold persistedSettings, persistedFields. rewrite Hp.
    split; [exact Hl|]. split; [reflexivity|]. split; [|split].
    - intros k d Hd. exact Hd.
    - intros k v Hv. discriminate Hv.
    - intros k v _ _ Hv. discriminate Hv. }
  destruct item as [savedState|]; [|now apply Hdefault].
  destruct (truthy savedState) eqn:Ht;
    [|apply Hdefault; cbn; now rewrite Ht].
  cbn [loadable] in Hload. rewrite Ht in Hload.
  destruct (JSON_parse savedState) as [parsedState|] eqn:Hp; [|discriminate].
  assert (Hnn : parsedState <> JNull) by (intros ->; discriminate).
  clear Hdefault Hload.
  unfold persistedSettings, persistedFields, persisted. rewrite Ht, Hp.
  eexists _, _. split; [apply (loadState_parsed _ _ _ Ht Hp Hnn)|].
  split; [|split; [|split]].
  - rewrite rec_get_set_other by (vm_compute; discriminate).
    apply rec_get_set_same.
  - intros k d Hd. rewrite spread_get by apply NoDup_ownProperties.
    destruct (rec_get (ownProperties (prop parsedState (js "settings"))) k);
      [reflexivity | exact Hd].
  - intros k v Hv. rewrite spread_get by apply NoDup_ownProperties.
    now rewrite Hv.
  - intros k v Hs Htk Hv.
    rewrite !rec_get_set_other by congruence.
    rewrite spread_get by apply NoDup_ownProperties. now rewrite Hv.
Qed.

Lemma loadState_merges_witness :
  exists state settings,
    loadState parseLegacy (Some legacyText) = Some state /\
    rec_get state (js "settings") = Some (JObject settings) /\
    rec_get settings (js "nickname") = Some (JString (js "Zed")) /\
    rec_get settings (js "agentName") = Some (JString DEFAULT_AGENT_NAME) /\
    rec_get settings (js "fontSize") = Some (JNumber 12) /\
    rec_get state (js "legacy") = Some (JBool true).
Proof.
  destruct (loadState_merges parseLegacy (Some legacyText) eq_refl)
    as (state & settings & Hl & Hs & Hd & Hk & Hu).
  exists state, settings. split; [exact Hl|]. split; [exact Hs|].
  split; [exact (Hd (js "nickname") _ eq_refl)|].
  split; [exact (Hd (js "agentName") _ eq_refl)|].
  split; [exact (Hk (js "fontSize") _ eq_refl)|].
  apply Hu; [vm_compute; discriminate | vm_compute; discriminate | reflexivity].
Defined.

(** C7, as stated, fails in its last part: loading the snapshot
    [legacySnapshot] gives a state with its field [legacy] and settings
    with its field [fontSize], neither of which [AppState] or
    [AppSettings] has. *)
Lemma unknown_fields_are_loaded :
  match loadState parseLegacy (Some legacyText) with
  | Some state =>
      rec_get state (js "legacy") = Some (JBool true) /\
      rec_has getInitialState (js "legacy") = false /\
      ~ unknownFieldsIgnored state
  | None => False
  end.
Proof.
  vm_compute. split; [reflexivity|]. split; [reflexivity|].
  intros [H _]. specialize (H (js "legacy") eq_refl). discriminate H.
Qed.

(** With no stored text the state is the initial one; text that does not
    parse, or the text null, makes [loadState] throw. *)
Example loadState_edges :
  loadState parseLegacy None = Some getInitialState /\
  loadState parseLegacy (Some []) = Some getInitialState /\
  loadState parseLegacy (Some (js "{")) = None /\
  loadState (fun _ => Some JNull) (Some (js "null")) = None.
Proof. repeat split; reflexivity. Qed.

(** * Properties of the rest of the page *)

(** ** Decoding the checklist *)



(** ** Lines *)

Lemma split_app a b : Str.split (a ++ 10%N :: b) = Str.split a ++ Str.split b.
Proof.
  induction a as [|c a IH]; [reflexivity|].
  cbn [app Str.split]. rewrite IH.
  destruct (c =? 10)%N; [reflexivity|].
  pose proof (split_nonempty a) as Hne.
  destruct (Str.split a) as [|l ls]; [congruence | reflexivity].
Qed.

Lemma split_line l : lineFeedFree l = true -> Str.split l = [l].
Proof.
  induction l as [|c l IH]; [reflexivity|].
  cbn. intros H. apply andb_true_iff in H as [Hc H].
  destruct (c =? 10)%N; [discriminate|]. now rewrite IH.
Qed.

Lemma split_join lines :
  lines <> [] -> forallb lineFeedFree lines = true -> Str.split (Str.join lines) = lines.
Proof.
  induction lines as [|l ls IH]; [congruence|].
  intros _ H. cbn [forallb] in H. apply andb_true_iff in H as [Hl Hls].
  destruct ls as [|l' ls'].
  - now apply split_line.
  - rewrite join_cons by discriminate. rewrite split_app, split_line by assumption.
    cbn [app]. f_equal. apply IH; [discriminate | assumption].
Qed.

Lemma split_lineFeedFree s : forallb lineFeedFree (Str.split s) = true.
Proof.
  induction s as [|c s IH]; [reflexivity|].
  cbn [Str.split]. destruct (c =? 10)%N eqn:Hc; [exact IH|].
  pose proof (split_nonempty s) as Hne.
  destruct (Str.split s) as [|l ls]; [congruence|].
  cbn in *. now rewrite Hc.
Qed.

Lemma replace_lineFeedFree s pat rep :
  lineFeedFree s = true -> lineFeedFree rep = true ->
  lineFeedFree (Str.replace s pat rep) = true.
Proof.
  intros Hs Hrep. unfold lineFeedFree in *.
  induction s as [|c s IH].
  - cbn. destruct (Str.startsWith [] pat); [|reflexivity].
    rewrite forallb_app, Hrep. now rewrite skipn_nil.
  - cbn [Str.replace]. destruct (Str.startsWith (c :: s) pat).
    + rewrite forallb_app, Hrep. cbn [andb].
      rewrite <- (firstn_skipn (List.length pat) (c :: s)), forallb_app in Hs.
      now apply andb_true_iff in Hs as [_ Hs].
    + cbn [forallb] in *. apply andb_true_iff in Hs as [-> Hs]. now apply IH.
Qed.

(** ** Toggling a subtask *)

Lemma toggleLines_shape lines : forall currentSubtask subtaskIndex checked,
  toggleLines lines currentSubtask subtaskIndex checked = lines \/
  exists pre line post,
    lines = pre ++ line :: post /\
    toggleLines lines currentSubtask subtaskIndex checked
    = pre ++ (if checked
              then Str.replace line (js "[ ]") (js "[x]")
              else Str.replace line (js "[x]") (js "[ ]")) :: post.
Proof.
  induction lines as [|l rest IH]; intros cur idx checked; [now left|].
  cbn [toggleLines].
  assert (Hrec : l :: toggleLines rest cur idx checked = l :: rest \/
                 exists pre line post,
                   l :: rest = pre ++ line :: post /\
                   l :: toggleLines rest cur idx checked
                   = pre ++ (if checked
                             then Str.replace line (js "[ ]") (js "[x]")
                             else Str.replace line (js "[x]") (js "[ ]")) :: post)
    by (destruct (IH cur idx checked) as [->|(pre & line & post & -> & ->)];
        [now left | right; now exists (l :: pre), line, post]).
  destruct (Str.startsWith (Str.trim l) (js "- [")); [|exact Hrec].
  destruct ((cur + 1 =? idx)%Z).
  - right. now exists [], l, rest.
  - destruct (IH (cur + 1)%Z idx checked) as [->|(pre & line & post & -> & ->)];
      [now left | right; now exists (l :: pre), line, post].
Qed.

(** X2. Ticking or unticking a box, whatever the index and the notes, changes
    at most one line of the notes and never their number of lines. *)
Theorem toggle_changes_one_line notes subtaskIndex checked :
  List.length (Str.split (toggleNotes notes subtaskIndex checked))
  = List.length (Str.split notes) /\
  (toggleNotes notes subtaskIndex checked = notes \/
   exists pre line line' post,
     Str.split notes = pre ++ line :: post /\
     Str.split (toggleNotes notes subtaskIndex checked) = pre ++ line' :: post).
Proof.
  unfold toggleNotes.
  destruct (toggleLines_shape (Str.split notes) (-1) subtaskIndex checked)
    as [->|(pre & line & post & Hsplit & ->)].
  - rewrite join_split. split; [reflexivity | now left].
  - pose proof (split_lineFeedFree notes) as Hfree. rewrite Hsplit in Hfree.
    rewrite forallb_app in Hfree. apply andb_true_iff in Hfree as [Hpre Hrest].
    cbn [forallb] in Hrest. apply andb_true_iff in Hrest as [Hline Hpost].
    rewrite split_join.
    + rewrite Hsplit, !length_app. split; [reflexivity|].
      right. eexists pre, line, _, post. split; reflexivity.
    + now destruct pre.
    + rewrite forallb_app, Hpre. cbn [forallb andb]. rewrite Hpost, andb_true_r.
      destruct checked; now apply replace_lineFeedFree.
Qed.

Lemma decodeLines_app a b : decodeLines (a ++ b) = decodeLines a ++ decodeLines b.
Proof.
  induction a as [|l a IH]; [reflexivity|].
  cbn. destruct (decodeLine l); cbn; now rewrite IH.
Qed.

Lemma decodeLines_count lines :
  List.length (filter isChecklistLine lines) = List.length (decodeLines lines).
Proof.
  induction lines as [|l lines IH]; [reflexivity|].
  cbn [filter decodeLines].
  change (isChecklistLine l)
    with (match decodeLine l with Some _ => true | None => false end).
  destruct (decodeLine l); cbn [List.length]; now rewrite IH.
Qed.

Lemma trim_marker_line ws m text :
  forallb Str.isTrimmed ws = true ->
  Str.trim (ws ++ js "- [" ++ [m] ++ js "] " ++ text)
  = (45 :: 32 :: 91 :: m :: 93 :: Str.trimEnd (32 :: text))%N.
Proof.
  intros Hws. unfold Str.trim. rewrite (trimStart_app_trimmed _ _ Hws).
  change (js "- [" ++ [m] ++ js "] " ++ text)
    with ([45; 32; 91; m] ++ 93 :: 32 :: text)%N.
  cbn [app Str.trimStart]. change (Str.isTrimmed 45) with false. cbv iota.
  change (45 :: 32 :: 91 :: m :: 93 :: 32 :: text)%N
    with ([45; 32; 91; m] ++ 93 :: 32 :: text)%N.
  now rewrite trimEnd_keep.
Qed.

Lemma decodeLine_marker ws m text :
  forallb Str.isTrimmed ws = true ->
  m = 32%N \/ m = 120%N ->
  decodeLine (ws ++ js "- [" ++ [m] ++ js "] " ++ text)
  = match Str.trimEnd (32%N :: text) with
    | c :: rest =>
        if (c =? 32)%N then Some ((m =? 120)%N, untilLineTerminator rest) else None
    | [] => None
    end.
Proof.
  intros Hws Hm. unfold decodeLine. rewrite (trim_marker_line _ _ _ Hws).
  destruct (Str.trimEnd (32%N :: text)) as [|c rest]; [now destruct Hm as [-> | ->]|].
  destruct Hm as [-> | ->];
    (destruct c as [|p]; [reflexivity|];
     do 6 (destruct p as [p|p|]; try reflexivity)).
Qed.

Lemma lineFeedFree_marker ws m m' text :
  m' = 32%N \/ m' = 120%N ->
  lineFeedFree (ws ++ js "- [" ++ [m] ++ js "] " ++ text) = true ->
  lineFeedFree (ws ++ js "- [" ++ [m'] ++ js "] " ++ text) = true.
Proof.
  unfold lineFeedFree. rewrite !forallb_app. intros Hm H.
  apply andb_true_iff in H as [-> H]. apply andb_true_iff in H as [_ H].
  apply andb_true_iff in H as [_ H]. apply andb_true_iff in H as [_ ->].
  destruct Hm as [-> | ->]; reflexivity.
Qed.

Lemma split_toggled notes pre ws m m' text post :
  Str.split notes = pre ++ (ws ++ js "- [" ++ [m] ++ js "] " ++ text) :: post ->
  m' = 32%N \/ m' = 120%N ->
  Str.split (Str.join (pre ++ (ws ++ js "- [" ++ [m'] ++ js "] " ++ text) :: post))
  = pre ++ (ws ++ js "- [" ++ [m'] ++ js "] " ++ text) :: post.
Proof.
  intros Hsplit Hm.
  pose proof (split_lineFeedFree notes) as Hfree. rewrite Hsplit in Hfree.
  rewrite forallb_app in Hfree. apply andb_true_iff in Hfree as [Hpre Hrest].
  cbn [forallb] in Hrest. apply andb_true_iff in Hrest as [Hline Hpost].
  apply split_join; [now destruct pre|].
  rewrite forallb_app, Hpre. cbn [forallb andb].
  now rewrite (lineFeedFree_marker _ _ _ _ Hm Hline).
Qed.

(** X3. Where the two ways of counting agree on the lines before it, ticking or
    unticking the box of a listed subtask flips that item of the decoded
    checklist and no other: the labels, the other marks and the number of
    items stay. *)
Theorem toggle_flips_decoded_item notes pre ws m text post :
  Str.split notes = pre ++ (ws ++ js "- [" ++ [m] ++ js "] " ++ text) :: post ->
  forallb Str.isTrimmed ws = true ->
  m = 32%N \/ m = 120%N ->
  List.length (filter isChecklistPrefix pre) = List.length (filter isChecklistLine pre) ->
  isChecklistLine (ws ++ js "- [" ++ [m] ++ js "] " ++ text) = true ->
  exists label,
    checklist notes = decodeLines pre ++ ((m =? 120)%N, label) :: decodeLines post /\
    checklist (toggleNotes notes (Z.of_nat (List.length (decodeLines pre))) (m =? 32)%N)
    = decodeLines pre ++ ((m =? 32)%N, label) :: decodeLines post.
Proof.
  intros Hsplit Hws Hm Hagree Hlisted.
  unfold isChecklistLine in Hlisted. fold (decodeLine (ws ++ js "- [" ++ [m] ++ js "] " ++ text)) in Hlisted.
  rewrite (decodeLine_marker _ _ _ Hws Hm) in Hlisted.
  destruct (Str.trimEnd (32%N :: text)) as [|c rest] eqn:Htail; [discriminate|].
  destruct (c =? 32)%N eqn:Hc; [|discriminate].
  exists (untilLineTerminator rest). split.
  - unfold checklist. rewrite Hsplit, decodeLines_app. cbn [decodeLines].
    now rewrite (decodeLine_marker _ _ _ Hws Hm), Htail, Hc.
  - rewrite <- decodeLines_count.
    rewrite (toggle_flips_when_counts_agree _ _ _ _ _ _ Hsplit Hws Hm Hagree).
    assert (Hm' : (if (m =? 32)%N then 120%N else 32%N) = 32%N
                  \/ (if (m =? 32)%N then 120%N else 32%N) = 120%N)
      by (destruct (m =? 32)%N; auto).
    unfold checklist. rewrite (split_toggled _ _ _ _ _ _ _ Hsplit Hm').
    rewrite decodeLines_app. cbn [decodeLines].
    rewrite (decodeLine_marker _ _ _ Hws Hm'), Htail, Hc.
    destruct Hm as [-> | ->]; reflexivity.
Qed.

Lemma toggle_flips_decoded_item_witness :
  checklist scenarioNotes
  = [(false, js "a"); (true, js "b"); (false, js "c")] /\
  checklist (toggleNotes scenarioNotes 1 false)
  = [(false, js "a"); (false, js "b"); (false, js "c")].
Proof.
  destruct (toggle_flips_decoded_item scenarioNotes [js "- [ ] a"] [] 120 (js "b")
              [js "free text"; js "- [ ] c"] eq_refl eq_refl (or_intror eq_refl)
              eq_refl eq_refl) as (label & Hbefore & Hafter).
  assert (Hlabel : label = js "b").
  { assert (H : checklist scenarioNotes
                = [(false, js "a"); (true, js "b"); (false, js "c")]) by reflexivity.
    rewrite H in Hbefore. cbn in Hbefore. now injection Hbefore as <-. }
  subst label. split; [exact Hbefore | exact Hafter].
Defined.

(** X4. Where the two ways of counting agree, a click and the click that undoes
    it give the notes back, character for character. *)
Theorem toggle_twice_restores notes pre ws m text post :
  Str.split notes = pre ++ (ws ++ js "- [" ++ [m] ++ js "] " ++ text) :: post ->
  forallb Str.isTrimmed ws = true ->
  m = 32%N \/ m = 120%N ->
  List.length (filter isChecklistPrefix pre) = List.length (filter isChecklistLine pre) ->
  toggleNotes
    (toggleNotes notes (Z.of_nat (List.length (filter isChecklistLine pre))) (m =? 32)%N)
    (Z.of_nat (List.length (filter isChecklistLine pre))) (negb (m =? 32)%N)
  = notes.
Proof.
  intros Hsplit Hws Hm Hagree.
  rewrite (toggle_flips_when_counts_agree _ _ _ _ _ _ Hsplit Hws Hm Hagree).
  assert (Hm' : (if (m =? 32)%N then 120%N else 32%N) = 32%N
                \/ (if (m =? 32)%N then 120%N else 32%N) = 120%N)
    by (destruct (m =? 32)%N; auto).
  pose proof (split_toggled _ _ _ _ _ _ _ Hsplit Hm') as Hsplit'.
  assert (Hflag : negb (m =? 32)%N = ((if (m =? 32)%N then 120%N else 32%N) =? 32)%N)
    by (destruct Hm as [-> | ->]; reflexivity).
  rewrite Hflag.
  rewrite (toggle_flips_when_counts_agree _ _ _ _ _ _ Hsplit' Hws Hm' Hagree).
  replace (if ((if (m =? 32)%N then 120%N else 32%N) =? 32)%N then 120%N else 32%N)
    with m by (destruct Hm as [-> | ->]; reflexivity).
  rewrite <- Hsplit. apply join_split.
Qed.

Lemma toggle_twice_restores_witness :
  toggleNotes (toggleNotes scenarioNotes 2 true) 2 false = scenarioNotes.
Proof.
  exact (toggle_twice_restores scenarioNotes [js "- [ ] a"; js "- [x] b"; js "free text"]
           [] 32 (js "c") [] eq_refl eq_refl (or_introl eq_refl) eq_refl).
Defined.

(** ** Generated subtasks *)

Lemma trim_skip c l : Str.isTrimmed c = true -> Str.trim (c :: l) = Str.trim l.
Proof. intros Hc. unfold Str.trim. cbn [Str.trimStart]. now rewrite Hc. Qed.

Lemma checklist_skip_blank ws s :
  forallb Str.isTrimmed ws = true -> checklist (ws ++ s) = checklist s.
Proof.
  unfold checklist. induction ws as [|c ws IH]; [reflexivity|].
  cbn [forallb app Str.split]. intros H. apply andb_true_iff in H as [Hc H].
  specialize (IH H).
  destruct (c =? 10)%N.
  - cbn [decodeLines]. exact IH.
  - pose proof (split_nonempty (ws ++ s)) as Hne.
    destruct (Str.split (ws ++ s)) as [|l ls]; [congruence|].
    cbn [decodeLines] in *. unfold decodeLine in *. now rewrite (trim_skip _ _ Hc).
Qed.

Lemma trimStart_nil s : Str.trimStart s = [] -> forallb Str.isTrimmed s = true.
Proof.
  induction s as [|c s IH]; [reflexivity|].
  cbn. destruct (Str.isTrimmed c); [exact IH | discriminate].
Qed.

Lemma trimStart_all s :
  forallb Str.isTrimmed (Str.trimStart s) = true -> forallb Str.isTrimmed s = true.
Proof.
  induction s as [|c s IH]; [reflexivity|].
  cbn. destruct (Str.isTrimmed c) eqn:Hc; [exact IH|].
  cbn. now rewrite Hc.
Qed.

Lemma trim_nil s : Str.trim s = [] -> forallb Str.isTrimmed s = true.
Proof.
  unfold Str.trim, Str.trimEnd. intros H.
  apply (f_equal (@rev N)) in H. rewrite rev_involutive in H. cbn in H.
  apply trimStart_nil in H. apply trimStart_all.
  rewrite forallb_forall in *. intros x Hx. apply H. now apply in_rev in Hx.
Qed.

Lemma untilLineTerminator_clean s :
  forallb (fun c => negb (Str.isLineTerminator c)) s = true -> untilLineTerminator s = s.
Proof.
  induction s as [|c s IH]; [reflexivity|].
  cbn. intros H. apply andb_true_iff in H as [Hc H].
  destruct (Str.isLineTerminator c); [discriminate|]. now rewrite IH.
Qed.

Lemma decodeLine_encoded text :
  cleanSubtask text = true -> decodeLine (js "- [ ] " ++ text) = Some (false, text).
Proof.
  unfold cleanSubtask. intros H. apply andb_true_iff in H as [Hlt Hend].
  destruct (rev text) as [|c r] eqn:Hrev; [discriminate|].
  apply (f_equal (@rev N)) in Hrev. rewrite rev_involutive in Hrev. cbn in Hrev.
  assert (Htrim : Str.trim (js "- [ ] " ++ text) = js "- [ ] " ++ text).
  { unfold Str.trim. change (Str.trimStart (js "- [ ] " ++ text)) with (js "- [ ] " ++ text).
    rewrite Hrev, app_assoc. rewrite trimEnd_keep.
    - reflexivity.
    - now destruct (Str.isTrimmed c). }
  unfold decodeLine. rewrite Htrim. cbn.
  now rewrite untilLineTerminator_clean.
Qed.

Lemma cleanSubtask_lineFeedFree text :
  cleanSubtask text = true -> lineFeedFree (js "- [ ] " ++ text) = true.
Proof.
  unfold cleanSubtask, lineFeedFree. intros H. apply andb_true_iff in H as [H _].
  rewrite forallb_app. cbn. rewrite forallb_forall in *.
  intros c Hc. specialize (H c Hc). unfold Str.isLineTerminator in H.
  destruct (c =? 10)%N; [discriminate | reflexivity].
Qed.

Lemma checklist_encoded subtasks :
  forallb cleanSubtask subtasks = true ->
  checklist (encodeChecklist subtasks) = map (pair false) subtasks.
Proof.
  intros Hclean. destruct subtasks as [|s ss]; [reflexivity|].
  unfold checklist, encodeChecklist. rewrite split_join.
  - clear -Hclean. induction (s :: ss) as [|t ts IH]; [reflexivity|].
    cbn [forallb] in Hclean. apply andb_true_iff in Hclean as [Ht Hts].
    cbn [map decodeLines]. now rewrite (decodeLine_encoded _ Ht), IH.
  - discriminate.
  - clear -Hclean. induction (s :: ss) as [|t ts IH]; [reflexivity|].
    cbn [forallb] in Hclean. apply andb_true_iff in Hclean as [Ht Hts].
    cbn [map forallb]. now rewrite (cleanSubtask_lineFeedFree _ Ht), IH.
Qed.

(** X5. The subtasks the model returns are appended to the notes so that they
    decode again: the checklist of the new notes is the checklist of the
    old notes followed by one unchecked item per subtask, with its text as
    label, provided each text is on one line and does not end in white
    space.  The store is not touched: the notes are those of the open
    form. *)
Theorem generated_subtasks_decode form subtasks w :
  truthy (Str.trim (TaskForm.taskTitleInput form)) = true ->
  World.ai w = true ->
  subtasks <> [] ->
  forallb cleanSubtask subtasks = true ->
  checklist (TaskForm.taskNotesInput
               (fst (handleGenerateSubtasks form (SubtasksList subtasks) w)))
  = checklist (TaskForm.taskNotesInput form) ++ map (pair false) subtasks /\
  World.state (snd (handleGenerateSubtasks form (SubtasksList subtasks) w)) = World.state w.
Proof.
  intros Htitle Hai Hne Hclean. unfold handleGenerateSubtasks.
  rewrite Htitle, Hai. cbn [negb orb].
  destruct subtasks as [|s ss]; [congruence|].
  cbn [fst snd TaskForm.taskNotesInput with_taskNotesInput].
  split; [|reflexivity].
  destruct (truthy (Str.trim (TaskForm.taskNotesInput form))) eqn:Hnotes.
  - change ([10; 10]%N ++ encodeChecklist (s :: ss))
      with (10%N :: [10%N] ++ encodeChecklist (s :: ss)).
    unfold checklist. rewrite split_app, decodeLines_app. f_equal.
    change (decodeLines (Str.split ([10%N] ++ encodeChecklist (s :: ss))))
      with (checklist ([10%N] ++ encodeChecklist (s :: ss))).
    rewrite checklist_skip_blank by reflexivity. now apply checklist_encoded.
  - assert (Hblank : forallb Str.isTrimmed (TaskForm.taskNotesInput form) = true).
    { apply trim_nil. now destruct (Str.trim (TaskForm.taskNotesInput form)). }
    assert (Hnone : checklist (TaskForm.taskNotesInput form) = []).
    { rewrite <- (app_nil_r (TaskForm.taskNotesInput form)).
      now rewrite (checklist_skip_blank _ _ Hblank). }
    cbn [app]. rewrite (checklist_skip_blank _ _ Hblank), Hnone.
    now apply checklist_encoded.
Qed.

Lemma generated_subtasks_decode_witness :
  checklist (TaskForm.taskNotesInput
               (fst (handleGenerateSubtasks (formOf (js "Trip") (js "- [x] book"))
                       (SubtasksList [js "pack"; js "call the hotel"]) freshWorld)))
  = [(true, js "book"); (false, js "pack"); (false, js "call the hotel")].
Proof.
  exact (proj1 (generated_subtasks_decode (formOf (js "Trip") (js "- [x] book"))
                  [js "pack"; js "call the hotel"] freshWorld eq_refl eq_refl
                  ltac:(discriminate) eq_refl)).
Defined.

(** A subtask whose text is empty or blank is written to the notes but is
    not listed when they are decoded, while the [change] listener still
    counts its line. *)
Example blank_subtask_not_listed :
  checklist (encodeChecklist [[]; js "pack"]) = [(false, js "pack")] /\
  prefixLineCount (encodeChecklist [[]; js "pack"]) = 2%Z.
Proof. split; reflexivity. Qed.

(** ** Write-through *)

Lemma persisted_saveState w : persistedCurrent (saveState w).
Proof. reflexivity. Qed.

Lemma persisted_same w w' :
  World.state w' = World.state w -> World.storage w' = World.storage w ->
  persistedCurrent w -> persistedCurrent w'.
Proof. unfold persistedCurrent. now intros -> ->. Qed.

Lemma storage_setupConversation w :
  World.storage (setupConversation w) = World.storage w.
Proof.
  unfold setupConversation.
  destruct (rec_read _ _); [|reflexivity].
  destruct (World.ai w); [|reflexivity].
  destruct (World.chatsCreateOk w); reflexivity.
Qed.

Lemma persisted_setupConversation w :
  persistedCurrent w -> persistedCurrent (setupConversation w).
Proof.
  apply persisted_same; [apply state_setupConversation | apply storage_setupConversation].
Qed.

Lemma persisted_appendMessage r t g w :
  persistedCurrent w -> persistedCurrent (appendMessage r t g w).
Proof. now apply persisted_same. Qed.

Lemma persisted_fire f w : persistedCurrent w -> persistedCurrent (fire f w).
Proof. now apply persisted_same. Qed.

Lemma persisted_showNotification m t w :
  persistedCurrent w -> persistedCurrent (showNotification m t w).
Proof. now apply persisted_same. Qed.

Lemma persisted_closeTaskForm w : persistedCurrent w -> persistedCurrent (closeTaskForm w).
Proof. now apply persisted_same. Qed.

Lemma persisted_renderApp w : persistedCurrent (renderApp w).
Proof. reflexivity. Qed.

Ltac persisted :=
  repeat match goal with
    | |- persistedCurrent (saveState _) => apply persisted_saveState
    | |- persistedCurrent (renderApp _) => apply persisted_renderApp
    | |- persistedCurrent (appendMessage _ _ _ _) => apply persisted_appendMessage
    | |- persistedCurrent (fire _ _) => apply persisted_fire
    | |- persistedCurrent (showNotification _ _ _) => apply persisted_showNotification
    | |- persistedCurrent (closeTaskForm _) => apply persisted_closeTaskForm
    | |- persistedCurrent (setupConversation _) => apply persisted_setupConversation
    | |- persistedCurrent _ => assumption
    end.

Lemma persisted_handleFormSubmit input tId tCreated reply w w' :
  persistedCurrent w ->
  handleFormSubmit input tId tCreated reply w = Some w' ->
  persistedCurrent w'.
Proof.
  intros Hw. unfold handleFormSubmit.
  destruct (negb (truthy (Str.trim input)) || negb (World.ai w));
    [now intros [= <-]|].
  destruct (match AppState.activeConversationId (World.state w) with
            | Some a => if truthy a then (a, w) else startNewChat false tId tCreated w
            | None => startNewChat false tId tCreated w
            end) as [cid w0].
  destruct (rec_read _ cid) as [convo|]; [|discriminate].
  cbv zeta.
  destruct (World.chat
              (saveState
                 (if Nat.eqb (List.length (Conversation.history convo)) 0
                  then setupConversation
                         (pushHistory cid (HistoryEntry.mk user (Str.trim input) None)
                            (appendMessage user (Str.trim input) None w0))
                  else pushHistory cid (HistoryEntry.mk user (Str.trim input) None)
                         (appendMessage user (Str.trim input) None w0)))) eqn:Hchat.
  - rewrite Hchat. destruct reply as [|chunks [|]]; intros [= <-]; persisted;
      destruct (Nat.eqb _ 0); persisted.
  - destruct (World.chat (setupConversation _)); [destruct reply as [|chunks [|]]|];
      intros [= <-]; persisted; destruct (Nat.eqb _ 0); persisted.
Qed.

(** X6. Write-through: whatever the user or the backend does next, if storage
    held the state in memory before the handler ran, it holds the state in
    memory after it; and so after any run of handlers from such a page. *)
Theorem storage_follows_state actions w w' :
  persistedCurrent w -> run actions w = Some w' -> persistedCurrent w'.
Proof.
  revert w. induction actions as [|a rest IH]; intros w Hw; cbn [run].
  - now intros [= <-].
  - destruct (dispatch a w) as [w1|] eqn:Hstep; [|discriminate].
    apply IH. clear IH rest w'.
    destruct a; cbn [dispatch] in Hstep; try (injection Hstep as <-).
    + apply persisted_renderApp.
    + unfold selectConversation. destruct (sameId _ _); persisted.
    + unfold deleteConversation. destruct (negb confirmed); persisted.
    + apply persisted_renderApp.
    + now apply (persisted_handleFormSubmit _ _ _ _ _ _ Hw Hstep).
    + unfold generateConversationTitle.
      destruct (rec_read _ _); [|assumption].
      destruct (Nat.ltb _ 2); [assumption|].
      destruct response; persisted.
    + unfold handleTaskFormSubmit.
      destruct (negb (truthy _)); persisted.
    + unfold handleDeleteTask.
      destruct (negb (isSet _)); [assumption|]. destruct confirmed; persisted.
    + unfold subtaskCheckboxChange. destruct (findTask _ _); persisted.
    + unfold saveSettings. persisted.
    + apply persisted_saveState.
Qed.

Lemma storage_follows_state_witness :
  exists w',
    run [Submit (js "hi") 9 9 (Streamed [chunkOf (js "Hello, wo") None] false);
         ToggleArchive (js "convo_9");
         SubmitTask (formOf (js "Plan") []) 11 11]
        (saveState freshWorld) = Some w' /\
    persistedCurrent w'.
Proof.
  eexists. split; [reflexivity|].
  apply (storage_follows_state
           [Submit (js "hi") 9 9 (Streamed [chunkOf (js "Hello, wo") None] false);
            ToggleArchive (js "convo_9");
            SubmitTask (formOf (js "Plan") []) 11 11]
           (saveState freshWorld)); reflexivity.
Defined.

(** ** The shape of the store *)

Lemma rec_has_set (r : Conversations) k k' v :
  rec_has (rec_set r k v) k' = jsstring_eqb k k' || rec_has r k'.
Proof.
  destruct (jsstring_eqb k k') eqn:E.
  - apply jsstring_eqb_eq in E; subst. apply rec_has_set_same.
  - unfold rec_has. rewrite rec_get_set_other; [reflexivity|].
    intros ->. now rewrite jsstring_eqb_refl in E.
Qed.

Lemma rec_has_delete (r : Conversations) k k' :
  rec_has (rec_delete r k) k' = negb (jsstring_eqb k k') && rec_has r k'.
Proof.
  destruct (jsstring_eqb k k') eqn:E.
  - apply jsstring_eqb_eq in E; subst. apply rec_has_delete_same.
  - unfold rec_has. rewrite rec_get_delete_other; [reflexivity|].
    intros ->. now rewrite jsstring_eqb_refl in E.
Qed.

Lemma allDefined_set (r : Conversations) k c :
  allDefined r = true -> allDefined (rec_set r k (Some c)) = true.
Proof.
  unfold allDefined. induction r as [|[k' v'] r IH]; cbn; [reflexivity|].
  intros H. apply andb_true_iff in H as [Hv H].
  destruct (jsstring_eqb k' k); cbn; [exact H|]. now rewrite Hv, IH.
Qed.

Lemma allDefined_delete (r : Conversations) k :
  allDefined r = true -> allDefined (rec_delete r k) = true.
Proof.
  unfold allDefined, rec_delete. rewrite !forallb_forall.
  intros H x Hx. apply filter_In in Hx as [Hx _]. now apply H.
Qed.

Lemma allDefined_read (r : Conversations) k :
  allDefined r = true -> rec_has r k = true -> exists c, rec_read r k = Some c.
Proof.
  unfold allDefined, rec_has, rec_read.
  induction r as [|[k' v'] r IH]; cbn; [discriminate|].
  intros H. apply andb_true_iff in H as [Hv H].
  destruct (jsstring_eqb k' k); [|now apply IH].
  destruct v' as [c|]; [now exists c | discriminate].
Qed.

Lemma rec_read_has (r : Conversations) k c : rec_read r k = Some c -> rec_has r k = true.
Proof. unfold rec_read, rec_has. now destruct (rec_get r k). Qed.

Lemma wellFormed_frame w w' :
  AppState.conversations (World.state w') = AppState.conversations (World.state w) ->
  AppState.archivedConversations (World.state w')
  = AppState.archivedConversations (World.state w) ->
  AppState.activeConversationId (World.state w')
  = AppState.activeConversationId (World.state w) ->
  wellFormed w -> wellFormed w'.
Proof. unfold wellFormed, inActive, inArchived. now intros -> -> ->. Qed.

Lemma wellFormed_state w w' :
  World.state w' = World.state w -> wellFormed w -> wellFormed w'.
Proof. intros H. apply wellFormed_frame; now rewrite H. Qed.

Lemma wellFormed_set w w' k c0 c :
  rec_read (AppState.conversations (World.state w)) k = Some c0 ->
  World.state w'
  = with_conversations (rec_set (AppState.conversations (World.state w)) k (Some c))
                       (World.state w) ->
  wellFormed w -> wellFormed w'.
Proof.
  intros Hread Hst (Hdisj & Hconv & Harch & Hact).
  apply rec_read_has in Hread.
  unfold wellFormed, inActive, inArchived in *. rewrite Hst. cbn.
  split; [|split; [|split]].
  - intros id. rewrite rec_has_set.
    destruct (jsstring_eqb k id) eqn:E; [|apply Hdisj].
    apply jsstring_eqb_eq in E; subst. intros _. now apply Hdisj.
  - now apply allDefined_set.
  - exact Harch.
  - destruct (AppState.activeConversationId (World.state w)) as [a|]; [|exact I].
    rewrite rec_has_set, Hact. apply orb_true_r.
Qed.

Lemma wellFormed_pushHistory cid e w : wellFormed w -> wellFormed (pushHistory cid e w).
Proof.
  intros Hw. unfold pushHistory.
  destruct (rec_read (AppState.conversations (World.state w)) cid) as [c|] eqn:Hc;
    [|exact Hw].
  eapply (wellFormed_set w _ cid c _ Hc); [reflexivity | exact Hw].
Qed.

Lemma wellFormed_new w w' k c :
  World.state w'
  = with_activeConversationId (Some k)
      (with_conversations (rec_set (AppState.conversations (World.state w)) k (Some c))
                          (World.state w)) ->
  inArchived w k = false ->
  wellFormed w -> wellFormed w'.
Proof.
  intros Hst Hfresh (Hdisj & Hconv & Harch & Hact).
  unfold wellFormed, inActive, inArchived in *. rewrite Hst. cbn.
  split; [|split; [|split]].
  - intros id. rewrite rec_has_set.
    destruct (jsstring_eqb k id) eqn:E; [|apply Hdisj].
    apply jsstring_eqb_eq in E; subst. intros _. exact Hfresh.
  - now apply allDefined_set.
  - exact Harch.
  - apply rec_has_set_same.
Qed.

Lemma wellFormed_startNewChat shouldRender tId tCreated w :
  inArchived w (js "convo_" ++ decimal tId) = false ->
  wellFormed w -> wellFormed (snd (startNewChat shouldRender tId tCreated w)).
Proof.
  intros Hfresh Hw.
  eapply (wellFormed_new w _ (js "convo_" ++ decimal tId)); [|exact Hfresh | exact Hw].
  unfold startNewChat. destruct shouldRender; cbn [snd];
    [rewrite state_renderApp|]; reflexivity.
Qed.

Lemma wellFormed_handleFormSubmit input tId tCreated reply w w' :
  inArchived w (js "convo_" ++ decimal tId) = false ->
  wellFormed w ->
  handleFormSubmit input tId tCreated reply w = Some w' ->
  wellFormed w'.
Proof.
  intros Hfresh Hw. unfold handleFormSubmit.
  destruct (negb (truthy (Str.trim input)) || negb (World.ai w));
    [now intros [= <-]|].
  assert (Hw0 : wellFormed
                  (snd match AppState.activeConversationId (World.state w) with
                       | Some a =>
                           if truthy a then (a, w) else startNewChat false tId tCreated w
                       | None => startNewChat false tId tCreated w
                       end)).
  { destruct (AppState.activeConversationId (World.state w)) as [a|];
      [destruct (truthy a); [exact Hw|]|]; now apply wellFormed_startNewChat. }
  destruct (match AppState.activeConversationId (World.state w) with
            | Some a => if truthy a then (a, w) else startNewChat false tId tCreated w
            | None => startNewChat false tId tCreated w
            end) as [cid w0].
  cbn [snd] in Hw0.
  destruct (rec_read _ cid) as [convo|]; [|discriminate].
  cbv zeta.
  set (entry := HistoryEntry.mk user (Str.trim input) None).
  assert (Hw2 : wellFormed (pushHistory cid entry (appendMessage user (Str.trim input) None w0)))
    by (apply wellFormed_pushHistory; exact Hw0).
  set (w2 := pushHistory cid entry _) in *. clearbody w2.
  assert (Hw3 : wellFormed
                  (if Nat.eqb (List.length (Conversation.history convo)) 0
                   then setupConversation w2 else w2))
    by (destruct (Nat.eqb _ 0); [|exact Hw2];
        now apply (wellFormed_state w2); [apply state_setupConversation|]).
  set (isFirst := Nat.eqb _ 0) in *.
  set (w3 := if isFirst then setupConversation w2 else w2) in *. clearbody w3.
  assert (Hw5 : wellFormed
                  match World.chat (saveState w3) with
                  | Some _ => saveState w3
                  | None => setupConversation (saveState w3)
                  end)
    by (destruct (World.chat (saveState w3)); [exact Hw3|];
        now apply (wellFormed_state w3); [rewrite state_setupConversation|]).
  set (w5 := match World.chat (saveState w3) with
             | Some _ => saveState w3
             | None => setupConversation (saveState w3)
             end) in *.
  clearbody w5.
  destruct (World.chat w5); [destruct reply as [|chunks [|]]|]; intros [= <-];
    try exact Hw5.
  assert (Hw7 : forall e t g, wellFormed (pushHistory cid e (appendMessage model t g w5)))
    by (intros; apply wellFormed_pushHistory; exact Hw5).
  destruct isFirst; apply Hw7.
Qed.

Lemma wellFormed_select id w :
  inActive w id = true -> wellFormed w -> wellFormed (selectConversation id w).
Proof.
  intros Hin Hw. unfold selectConversation.
  destruct (sameId _ id); [exact Hw|].
  destruct Hw as (Hdisj & Hconv & Harch & _).
  unfold wellFormed, inActive, inArchived in *. rewrite state_renderApp. cbn.
  repeat split; assumption.
Qed.

Lemma sameId_false a id : sameId (Some a) id = false -> a <> id.
Proof. cbn. intros H ->. now rewrite jsstring_eqb_refl in H. Qed.

Lemma firstKey_has (r : Conversations) k : firstKey r = Some k -> rec_has r k = true.
Proof.
  unfold firstKey. intros H. apply rec_has_key.
  destruct (rec_keys r) as [|k' ks]; [discriminate|]. injection H as ->. now left.
Qed.

Lemma wellFormed_delete id isArchived confirmed w :
  wellFormed w -> wellFormed (deleteConversation id isArchived confirmed w).
Proof.
  intros Hw. unfold deleteConversation.
  destruct confirmed; cbn [negb]; [|exact Hw].
  destruct Hw as (Hdisj & Hconv & Harch & Hact).
  unfold wellFormed, inActive, inArchived in *. rewrite state_renderApp. cbn [World.state saveState with_storage with_state].
  destruct isArchived.
  - cbn [AppState.activeConversationId with_archivedConversations].
    set (act' := if sameId _ id then _ else _).
    assert (Hconvs : AppState.conversations act' = AppState.conversations (World.state w))
      by (unfold act'; now destruct (sameId _ id)).
    assert (Harchs : AppState.archivedConversations act'
                     = rec_delete (AppState.archivedConversations (World.state w)) id)
      by (unfold act'; now destruct (sameId _ id)).
    rewrite Hconvs, Harchs. split; [|split; [|split]].
    + intros k Hk. rewrite rec_has_delete, (Hdisj k Hk). apply andb_false_r.
    + exact Hconv.
    + now apply allDefined_delete.
    + unfold act'. destruct (sameId _ id); cbn; [|exact Hact].
      destruct (firstKey _) as [k|] eqn:Hk; [now apply firstKey_has | exact I].
  - cbn [AppState.activeConversationId with_conversations].
    set (act' := if sameId _ id then _ else _).
    assert (Hconvs : AppState.conversations act'
                     = rec_delete (AppState.conversations (World.state w)) id)
      by (unfold act'; now destruct (sameId _ id)).
    assert (Harchs : AppState.archivedConversations act'
                     = AppState.archivedConversations (World.state w))
      by (unfold act'; now destruct (sameId _ id)).
    rewrite Hconvs, Harchs. split; [|split; [|split]].
    + intros k. rewrite rec_has_delete. intros Hk.
      apply andb_true_iff in Hk as [_ Hk]. now apply Hdisj.
    + now apply allDefined_delete.
    + exact Harch.
    + unfold act'. destruct (sameId _ id) eqn:Hsame; cbn.
      * destruct (firstKey _) as [k|] eqn:Hk; [now apply firstKey_has | exact I].
      * destruct (AppState.activeConversationId (World.state w)) as [a|]; [|exact I].
        rewrite rec_has_delete, Hact.
        apply sameId_false in Hsame.
        rewrite jsstring_eqb_neq by congruence. reflexivity.
Qed.

Lemma wellFormed_toggleArchive id w :
  inActive w id = true \/ inArchived w id = true ->
  wellFormed w -> wellFormed (toggleArchiveConversation id w).
Proof.
  intros Hin (Hdisj & Hconv & Harch & Hact).
  unfold wellFormed, inActive, inArchived, toggleArchiveConversation in *.
  rewrite state_renderApp. cbn [World.state saveState with_storage with_state].
  destruct (rec_has (AppState.archivedConversations (World.state w)) id) eqn:Harchived.
  - destruct (allDefined_read _ id Harch Harchived) as [c Hc]. rewrite Hc.
    cbn [AppState.activeConversationId AppState.conversations
         AppState.archivedConversations with_archivedConversations with_conversations].
    set (st' := if negb (isSet _) then _ else _).
    assert (Hconvs : AppState.conversations st'
                     = rec_set (AppState.conversations (World.state w)) id (Some c))
      by (unfold st'; now destruct (negb (isSet _))).
    assert (Harchs : AppState.archivedConversations st'
                     = rec_delete (AppState.archivedConversations (World.state w)) id)
      by (unfold st'; now destruct (negb (isSet _))).
    rewrite Hconvs, Harchs. split; [|split; [|split]].
    + intros k. rewrite rec_has_set, rec_has_delete.
      destruct (jsstring_eqb id k); [reflexivity|]. cbn. apply Hdisj.
    + now apply allDefined_set.
    + now apply allDefined_delete.
    + unfold st'. destruct (negb (isSet _)); cbn.
      * apply rec_has_set_same.
      * destruct (AppState.activeConversationId (World.state w)) as [a|]; [|exact I].
        rewrite rec_has_set, Hact. apply orb_true_r.
  - destruct Hin as [Hactive | Hf]; [|congruence].
    destruct (allDefined_read _ id Hconv Hactive) as [c Hc]. rewrite Hc.
    cbn [AppState.activeConversationId AppState.conversations
         AppState.archivedConversations with_archivedConversations with_conversations].
    set (st' := if sameId _ id then _ else _).
    assert (Hconvs : AppState.conversations st'
                     = rec_delete (AppState.conversations (World.state w)) id)
      by (unfold st'; now destruct (sameId _ id)).
    assert (Harchs : AppState.archivedConversations st'
                     = rec_set (AppState.archivedConversations (World.state w)) id (Some c))
      by (unfold st'; now destruct (sameId _ id)).
    rewrite Hconvs, Harchs. split; [|split; [|split]].
    + intros k. rewrite rec_has_set, rec_has_delete.
      destruct (jsstring_eqb id k); [discriminate|]. cbn. apply Hdisj.
    + now apply allDefined_delete.
    + now apply allDefined_set.
    + unfold st'. destruct (sameId _ id) eqn:Hsame; cbn.
      * destruct (firstKey _) as [k|] eqn:Hk; [now apply firstKey_has | exact I].
      * destruct (AppState.activeConversationId (World.state w)) as [a|]; [|exact I].
        rewrite rec_has_delete, Hact.
        apply sameId_false in Hsame.
        rewrite jsstring_eqb_neq by congruence. reflexivity.
Qed.

Lemma wellFormed_title convoId response w :
  wellFormed w -> wellFormed (generateConversationTitle convoId response w).
Proof.
  intros Hw. unfold generateConversationTitle.
  destruct (rec_read (AppState.conversations (World.state w)) convoId) as [c|] eqn:Hc;
    [|exact Hw].
  destruct (Nat.ltb _ 2); [exact Hw|].
  destruct response as [text|]; [|exact Hw].
  eapply (wellFormed_set w _ convoId c _ Hc); [reflexivity | exact Hw].
Qed.

Lemma handleFormSubmit_throws input tId tCreated reply w :
  handleFormSubmit input tId tCreated reply w = None <->
  truthy (Str.trim input) = true /\
  World.ai w = true /\
  isSet (AppState.activeConversationId (World.state w)) = true /\
  rec_read (AppState.conversations (World.state w))
           (keyOf (AppState.activeConversationId (World.state w))) = None.
Proof.
  unfold handleFormSubmit.
  destruct (truthy (Str.trim input)); cbn [negb orb];
    [|split; [discriminate | now intros [? _]]].
  destruct (World.ai w); cbn [negb];
    [|split; [discriminate | now intros (_ & ? & _)]].
  pose proof (startNewChat_read tId tCreated w) as Hnew.
  cbv beta iota zeta delta [startNewChat snd] in Hnew.
  unfold isSet, keyOf.
  destruct (AppState.activeConversationId (World.state w)) as [a|];
    [destruct (truthy a)|].
  - destruct (rec_read (AppState.conversations (World.state w)) a) as [c|].
    + split; [|now intros (_ & _ & _ & ?)].
      cbv zeta. destruct (World.chat _); [destruct reply as [|? [|]]|]; discriminate.
    + split; [auto | reflexivity].
  - split; [|now intros (_ & _ & ? & _)].
    cbv beta iota zeta delta [startNewChat]. rewrite Hnew.
    destruct (World.chat _); [destruct reply as [|? [|]]|]; discriminate.
  - split; [|now intros (_ & _ & ? & _)].
    cbv beta iota zeta delta [startNewChat]. rewrite Hnew.
    destruct (World.chat _); [destruct reply as [|? [|]]|]; discriminate.
Qed.

Ltac frame_cases :=
  repeat match goal with
    | |- context [if ?b then _ else _] => destruct b
    | |- context [match ?x with Some _ => _ | None => _ end] => destruct x
    end;
  reflexivity.

Lemma wellFormed_dispatch a w :
  wellFormed w -> offered a w -> exists w', dispatch a w = Some w' /\ wellFormed w'.
Proof.
  intros Hw Hoff. destruct a; cbn [dispatch offered] in *.
  - eexists. split; [reflexivity|]. now apply wellFormed_startNewChat.
  - eexists. split; [reflexivity|]. now apply wellFormed_select.
  - eexists. split; [reflexivity|]. now apply wellFormed_delete.
  - eexists. split; [reflexivity|]. now apply wellFormed_toggleArchive.
  - destruct (handleFormSubmit input tId tCreated reply w) as [w'|] eqn:Hrun.
    + exists w'. split; [reflexivity|].
      now apply (wellFormed_handleFormSubmit _ _ _ _ _ _ Hoff Hw Hrun).
    + exfalso. apply handleFormSubmit_throws in Hrun as (_ & _ & Hset & Hread).
      destruct Hw as (_ & Hconv & _ & Hact).
      destruct (AppState.activeConversationId (World.state w)) as [a|]; [|discriminate].
      destruct (allDefined_read _ a Hconv Hact) as [c Hc].
      cbn [keyOf] in Hread. congruence.
  - eexists. split; [reflexivity|]. now apply wellFormed_title.
  - eexists. split; [reflexivity|]. revert Hw. apply wellFormed_frame;
      unfold handleTaskFormSubmit; frame_cases.
  - eexists. split; [reflexivity|]. revert Hw. apply wellFormed_frame;
      unfold handleDeleteTask; frame_cases.
  - eexists. split; [reflexivity|]. revert Hw. apply wellFormed_frame;
      unfold subtaskCheckboxChange; frame_cases.
  - eexists. split; [reflexivity|]. revert Hw. apply wellFormed_frame;
      unfold saveSettings; cbn [World.state showNotification with_toasts];
      rewrite state_renderApp; reflexivity.
  - eexists. split; [reflexivity|]. revert Hw. now apply wellFormed_frame.
Qed.

(** X7. The shape of the store is kept: from a store in which no id is in both
    partitions, every entry holds a conversation and
    [activeConversationId] is null or names an active conversation, a run
    of offered actions never throws and ends in such a store. *)
Theorem store_stays_wellFormed actions w :
  wellFormed w -> offeredRun actions w ->
  exists w', run actions w = Some w' /\ wellFormed w'.
Proof.
  revert w. induction actions as [|a rest IH]; intros w Hw Hoff.
  - now exists w.
  - cbn [offeredRun run] in *. destruct Hoff as [Ha Hrest].
    destruct (wellFormed_dispatch a w Hw Ha) as (w1 & Hstep & Hw1).
    rewrite Hstep in *. now apply IH.
Qed.

Lemma store_stays_wellFormed_witness :
  exists w',
    run [Submit (js "hi") 9 9 (Streamed [chunkOf (js "Hello!") None] true);
         ToggleArchive (js "convo_9");
         Submit (js "again") 12 12 SendRejected;
         Delete (js "convo_12") false true]
        freshWorld = Some w' /\
    wellFormed w'.
Proof.
  apply (store_stays_wellFormed
           [Submit (js "hi") 9 9 (Streamed [chunkOf (js "Hello!") None] true);
            ToggleArchive (js "convo_9");
            Submit (js "again") 12 12 SendRejected;
            Delete (js "convo_12") false true]
           freshWorld).
  - split; [intros id H; discriminate H | repeat split].
  - vm_compute. repeat split; auto.
Defined.

(** X8. [handleFormSubmit] throws in exactly one situation: there is a message
    and a client, and [activeConversationId] is a non-empty id with no
    conversation in [state.conversations].  Then nothing has been changed
    or shown when it throws. *)
Theorem send_throws_exactly_when input tId tCreated reply w :
  handleFormSubmit input tId tCreated reply w = None <->
  truthy (Str.trim input) = true /\
  World.ai w = true /\
  isSet (AppState.activeConversationId (World.state w)) = true /\
  rec_read (AppState.conversations (World.state w))
           (keyOf (AppState.activeConversationId (World.state w))) = None.
Proof. apply handleFormSubmit_throws. Qed.

Lemma ai_fold_appendMessage (entries : list HistoryEntry.t) w :
  World.ai
    (fold_left
       (fun w' entry =>
          appendMessage (HistoryEntry.role entry) (HistoryEntry.text entry)
                        (HistoryEntry.groundingChunks entry) w')
       entries w) = World.ai w.
Proof. revert w; induction entries as [|e es IH]; intros w; cbn; [reflexivity|]. now rewrite IH. Qed.

Lemma ai_renderApp w : World.ai (renderApp w) = World.ai w.
Proof.
  unfold renderApp.
  cbn [updateSidebarPinnedState saveState with_storage with_state World.ai].
  destruct (hasActiveConversation _); [|reflexivity].
  unfold renderActiveConversation.
  destruct (rec_read _ _); [|reflexivity].
  now rewrite (proj1 (setupConversation_page _)), ai_fold_appendMessage.
Qed.

(** X9. Selecting does not check the id.  After the list item of an archived
    conversation, or the source link of a task whose conversation is gone,
    has selected an id that is not in [state.conversations], the id is
    active, the welcome screen is shown, and the next message throws
    instead of being sent. *)
Theorem send_after_stale_selection_throws id input tId tCreated reply w :
  truthy id = true ->
  rec_read (AppState.conversations (World.state w)) id = None ->
  sameId (AppState.activeConversationId (World.state w)) id = false ->
  World.ai w = true ->
  truthy (Str.trim input) = true ->
  AppState.activeConversationId (World.state (selectConversation id w)) = Some id /\
  World.chatHistoryElement (selectConversation id w) = [] /\
  handleFormSubmit input tId tCreated reply (selectConversation id w) = None.
Proof.
  intros Hid Hread Hother Hai Hmsg.
  assert (Hst : World.state (selectConversation id w)
                = with_activeConversationId (Some id) (World.state w))
    by (unfold selectConversation; rewrite Hother; now rewrite state_renderApp).
  split; [now rewrite Hst|]. split.
  - unfold selectConversation. rewrite Hother. unfold renderApp.
    cbn [updateSidebarPinnedState saveState with_storage with_state
         World.chatHistoryElement World.state].
    unfold hasActiveConversation.
    cbn [AppState.activeConversationId AppState.conversations
         with_activeConversationId keyOf isSet].
    rewrite Hid, Hread. reflexivity.
  - apply handleFormSubmit_throws. rewrite Hst. cbn. repeat split; try assumption.
    unfold selectConversation. rewrite Hother. now rewrite ai_renderApp.
Qed.

Lemma send_after_stale_selection_throws_witness :
  handleFormSubmit (js "hello") 9 9 (Streamed [] true)
                   (selectConversation (js "convo_2") oneActiveOneArchived) = None.
Proof.
  exact (proj2 (proj2 (send_after_stale_selection_throws (js "convo_2") (js "hello") 9 9
                         (Streamed [] true) oneActiveOneArchived
                         eq_refl eq_refl eq_refl eq_refl eq_refl))).
Defined.

(** ** More on sending *)

Lemma handleFormSubmit_runs input tId tCreated w :
  truthy (Str.trim input) = true ->
  takesMessage w = true ->
  exists w0,
    World.inflight w0 = World.inflight w /\
    (match World.chat w with Some _ => true | None => false end
     || World.chatsCreateOk w = true ->
     World.chat (atSend (Str.trim input) (sendTarget tId w)
                        (Nat.eqb (List.length (historyAtSend w)) 0) w0) <> None) /\
    historyOf (atSend (Str.trim input) (sendTarget tId w)
                      (Nat.eqb (List.length (historyAtSend w)) 0) w0) (sendTarget tId w)
    = historyAtSend w ++ [HistoryEntry.mk user (Str.trim input) None] /\
    forall reply,
      handleFormSubmit input tId tCreated reply w
      = let w5 := atSend (Str.trim input) (sendTarget tId w)
                         (Nat.eqb (List.length (historyAtSend w)) 0) w0 in
        match World.chat w5, reply with
        | None, _ => Some (appendMessage model ERROR_REPLY None w5)
        | Some _, SendRejected => Some (appendMessage model ERROR_REPLY None w5)
        | Some _, Streamed chunks false =>
            Some (appendMessage model ERROR_REPLY None
                    (appendMessage model (transientBody chunks) None w5))
        | Some _, Streamed chunks true =>
            let r := receiveAll chunks in
            let w6 := appendMessage model (Reply.modelResponse r)
                                    (Some (Reply.groundingChunks r)) w5 in
            let w7 := pushHistory (sendTarget tId w)
                        (HistoryEntry.mk model (Reply.modelResponse r)
                                         (Some (Reply.groundingChunks r))) w6 in
            let w8 := if Nat.eqb (List.length (historyAtSend w)) 0
                      then fire (TitleSynthesis (sendTarget tId w)) w7 else w7 in
            Some (fire (TaskSuggestion (sendTarget tId w)) (saveState w8))
        end.
Proof.
  intros Hmsg Htakes. unfold takesMessage in Htakes.
  apply andb_true_iff in Htakes as [Hai Hconv].
  assert (Hcase :
    exists w0 c,
      rec_read (AppState.conversations (World.state w0)) (sendTarget tId w) = Some c /\
      Conversation.history c = historyAtSend w /\
      World.inflight w0 = World.inflight w /\
      World.ai w0 = true /\
      keyOf (AppState.activeConversationId (World.state w0)) = sendTarget tId w /\
      (match World.chat w0 with Some _ => true | None => false end
       || World.chatsCreateOk w0)
      = (match World.chat w with Some _ => true | None => false end
         || World.chatsCreateOk w) /\
      match AppState.activeConversationId (World.state w) with
      | Some a => if truthy a then (a, w) else startNewChat false tId tCreated w
      | None => startNewChat false tId tCreated w
      end = (sendTarget tId w, w0)).
  { unfold sendTarget, historyAtSend, historyOf.
    destruct (AppState.activeConversationId (World.state w)) as [a|] eqn:Ha;
      cbn [isSet keyOf] in *.
    - destruct (truthy a) eqn:Ht; cbn [negb orb] in Hconv.
      + destruct (rec_read (AppState.conversations (World.state w)) a) as [c|] eqn:Hc;
          [|discriminate].
        exists w, c. rewrite Ha. repeat split; auto.
      + eexists _, _. split; [apply startNewChat_read|]. repeat split; auto.
    - eexists _, _. split; [apply startNewChat_read|]. repeat split; auto. }
  destruct Hcase as (w0 & c & Hc0 & Hhist & Hfl & Hai0 & Hk0 & Hav0 & Hpair).
  exists w0. split; [exact Hfl|]. split; [|split].
  - intros Hav. apply (atSend_chat _ _ _ _ c); auto. now rewrite Hav0.
  - unfold historyOf. rewrite atSend_state.
    rewrite (pushHistory_read _ _ _ _ Hc0). cbn. now rewrite Hhist.
  - intros reply. unfold handleFormSubmit.
    rewrite Hmsg, Hai. cbn [negb orb]. rewrite Hpair, Hc0, Hhist.
    reflexivity.
Qed.


Lemma atSend_inflight msg cid b w0 :
  World.inflight (atSend msg cid b w0) = World.inflight w0.
Proof.
  assert (Hs : forall v, World.inflight (setupConversation v) = World.inflight v).
  { intros v. unfold setupConversation.
    destruct (rec_read _ _); [|reflexivity].
    destruct (World.ai v); [|reflexivity].
    destruct (World.chatsCreateOk v); reflexivity. }
  assert (Hp : forall e v, World.inflight (pushHistory cid e v) = World.inflight v)
    by (intros e v; unfold pushHistory; destruct (rec_read _ _); reflexivity).
  unfold atSend. cbv zeta.
  destruct b; destruct (World.chat (saveState _));
    rewrite ?Hs; cbn [saveState with_storage World.inflight]; rewrite ?Hs, Hp; reflexivity.
Qed.



(** X11. The enrichment calls are fired by a completed reply only: title
    synthesis when the message was the first of its conversation, and the
    task suggestion check every time.  A reply that is rejected or breaks
    off fires nothing. *)
Theorem enrichment_fired_on_completion input tId tCreated w :
  truthy (Str.trim input) = true ->
  reachesBackend w = true ->
  (forall chunks, exists w',
     handleFormSubmit input tId tCreated (Streamed chunks true) w = Some w' /\
     World.inflight w'
     = World.inflight w
       ++ (match historyAtSend w with
           | [] => [TitleSynthesis (sendTarget tId w)]
           | _ :: _ => []
           end) ++ [TaskSuggestion (sendTarget tId w)]) /\
  (forall reply, (forall chunks, reply <> Streamed chunks true) ->
     exists w',
       handleFormSubmit input tId tCreated reply w = Some w' /\
       World.inflight w' = World.inflight w).
Proof.
  intros Hmsg Hreach.
  assert (Htakes : takesMessage w = true /\
                   match World.chat w with Some _ => true | None => false end
                   || World.chatsCreateOk w = true).
  { unfold reachesBackend in Hreach. now apply andb_true_iff in Hreach. }
  destruct Htakes as [Htakes Hav].
  destruct (handleFormSubmit_runs input tId tCreated w Hmsg Htakes)
    as (w0 & Hfl & Hchat5 & _ & Hrun).
  specialize (Hchat5 Hav).
  pose proof (atSend_inflight (Str.trim input) (sendTarget tId w)
                (Nat.eqb (List.length (historyAtSend w)) 0) w0) as Hfl5.
  rewrite Hfl in Hfl5.
  assert (Hp : forall e v, World.inflight (pushHistory (sendTarget tId w) e v)
                           = World.inflight v)
    by (intros e v; unfold pushHistory; destruct (rec_read _ _); reflexivity).
  split.
  - intros chunks. specialize (Hrun (Streamed chunks true)). cbv zeta in Hrun.
    set (w5 := atSend _ _ _ _) in *.
    destruct (World.chat w5) eqn:Hchat.
    + eexists. split; [exact Hrun|].
      destruct (historyAtSend w); cbn [List.length Nat.eqb fire with_inflight
                                       World.inflight saveState with_storage];
        rewrite Hp; cbn [appendMessage with_chatHistoryElement World.inflight];
        rewrite Hfl5; [now rewrite <- app_assoc | reflexivity].
    + now destruct Hchat5.
  - intros reply Hnot. specialize (Hrun reply). cbv zeta in Hrun.
    set (w5 := atSend _ _ _ _) in *.
    destruct (World.chat w5); [destruct reply as [|chunks [|]]|];
      try (eexists; split; [exact Hrun | exact Hfl5]).
    now destruct (Hnot chunks).
Qed.

Lemma enrichment_fired_on_completion_witness :
  (exists w',
     handleFormSubmit (js "more") 9 9 (Streamed [chunkOf (js "Sure.") None] true)
                      afterFirstExchange = Some w' /\
     World.inflight w' = [TaskSuggestion (js "convo_1")]) /\
  (exists w',
     handleFormSubmit (js "hi") 9 9 (Streamed [chunkOf (js "He") None] false) freshWorld
     = Some w' /\
     World.inflight w' = []).
Proof.
  destruct (enrichment_fired_on_completion (js "more") 9 9 afterFirstExchange
              eq_refl eq_refl) as [Hdone _].
  destruct (enrichment_fired_on_completion (js "hi") 9 9 freshWorld eq_refl eq_refl)
    as [_ Hfail].
  split.
  - exact (Hdone [chunkOf (js "Sure.") None]).
  - apply Hfail. intros chunks H. discriminate H.
Defined.

(** ** Titles of conversations *)




(** ** Tasks *)

Lemma handleFormSubmit_preserves (P : World.t -> Prop) input tId tCreated reply w w' :
  (forall v v', World.state v' = World.state v -> P v -> P v') ->
  (forall cid e v, P v -> P (pushHistory cid e v)) ->
  (P w -> P (snd (startNewChat false tId tCreated w))) ->
  P w ->
  handleFormSubmit input tId tCreated reply w = Some w' ->
  P w'.
Proof.
  intros Hstate Hpush Hnew Hw. unfold handleFormSubmit.
  destruct (negb (truthy (Str.trim input)) || negb (World.ai w));
    [now intros [= <-]|].
  assert (Hw0 : P (snd match AppState.activeConversationId (World.state w) with
                       | Some a =>
                           if truthy a then (a, w) else startNewChat false tId tCreated w
                       | None => startNewChat false tId tCreated w
                       end)).
  { destruct (AppState.activeConversationId (World.state w)) as [a|];
      [destruct (truthy a); [exact Hw|]|]; now apply Hnew. }
  destruct (match AppState.activeConversationId (World.state w) with
            | Some a => if truthy a then (a, w) else startNewChat false tId tCreated w
            | None => startNewChat false tId tCreated w
            end) as [cid w0].
  cbn [snd] in Hw0.
  destruct (rec_read _ cid) as [convo|]; [|discriminate].
  cbv zeta.
  set (entry := HistoryEntry.mk user (Str.trim input) None).
  assert (Hw2 : P (pushHistory cid entry (appendMessage user (Str.trim input) None w0)))
    by (apply Hpush; now apply (Hstate w0)).
  set (w2 := pushHistory cid entry _) in *. clearbody w2.
  assert (Hw3 : P (if Nat.eqb (List.length (Conversation.history convo)) 0
                   then setupConversation w2 else w2))
    by (destruct (Nat.eqb _ 0); [|exact Hw2];
        now apply (Hstate w2); [apply state_setupConversation|]).
  set (isFirst := Nat.eqb _ 0) in *.
  set (w3 := if isFirst then setupConversation w2 else w2) in *. clearbody w3.
  assert (Hw5 : P match World.chat (saveState w3) with
                  | Some _ => saveState w3
                  | None => setupConversation (saveState w3)
                  end)
    by (destruct (World.chat (saveState w3)); [now apply (Hstate w3)|];
        now apply (Hstate w3); [rewrite state_setupConversation|]).
  set (w5 := match World.chat (saveState w3) with
             | Some _ => saveState w3
             | None => setupConversation (saveState w3)
             end) in *.
  clearbody w5.
  destruct (World.chat w5); [destruct reply as [|chunks [|]]|]; intros [= <-];
    try (now apply (Hstate w5)).
  assert (Hw7 : forall e t g, P (pushHistory cid e (appendMessage model t g w5)))
    by (intros; apply Hpush; now apply (Hstate w5)).
  destruct isFirst.
  - eapply Hstate; [|apply Hw7]. reflexivity.
  - eapply Hstate; [|apply Hw7]. reflexivity.
Qed.

Lemma tasks_dispatch_chat a w w' :
  match a with
  | SubmitTask _ _ _ | DeleteTask _ | SubtaskChange _ _ _ => False
  | _ => True
  end ->
  dispatch a w = Some w' ->
  AppState.tasks (World.state w') = AppState.tasks (World.state w).
Proof.
  intros Hkind Hstep. destruct a; cbn [dispatch] in Hstep; try contradiction;
    try (injection Hstep as <-).
  - unfold startNewChat. cbn [snd]. now rewrite state_renderApp.
  - unfold selectConversation. destruct (sameId _ _); [reflexivity|].
    now rewrite state_renderApp.
  - unfold deleteConversation. destruct (negb confirmed); [reflexivity|].
    rewrite state_renderApp. cbn [World.state saveState with_storage with_state].
    destruct isArchived; destruct (sameId _ _); reflexivity.
  - unfold toggleArchiveConversation.
    rewrite state_renderApp. cbn [World.state saveState with_storage with_state].
    destruct (rec_has _ id); [destruct (negb (isSet _)) | destruct (sameId _ _)];
      reflexivity.
  - apply (handleFormSubmit_preserves
             (fun v => AppState.tasks (World.state v) = AppState.tasks (World.state w))
             input tId tCreated reply w w'); auto.
    + now intros v v' ->.
    + intros cid e v <-. unfold pushHistory. destruct (rec_read _ _); reflexivity.
  - unfold generateConversationTitle.
    destruct (rec_read _ _); [|reflexivity].
    destruct (Nat.ltb _ 2); [reflexivity|]. destruct response; reflexivity.
  - unfold saveSettings. cbn [World.state showNotification with_toasts].
    now rewrite state_renderApp.
  - reflexivity.
Qed.

Lemma forallb_setAt (p : Task.t -> bool) tasks i t :
  forallb p tasks = true -> p t = true -> forallb p (setAt tasks i t) = true.
Proof.
  revert i. induction tasks as [|x tasks IH]; intros i H Ht; [reflexivity|].
  cbn [forallb] in H. apply andb_true_iff in H as [Hx H].
  destruct i; cbn; [now rewrite Ht | now rewrite Hx, IH].
Qed.

Lemma forallb_filter (p q : Task.t -> bool) tasks :
  forallb p tasks = true -> forallb p (filter q tasks) = true.
Proof.
  rewrite !forallb_forall. intros H x Hx. apply filter_In in Hx as [Hx _]. now apply H.
Qed.

Lemma forallb_assignNotes tasks id notes :
  forallb (fun t => truthy (Task.title t)) tasks = true ->
  forallb (fun t => truthy (Task.title t)) (assignNotes tasks id notes) = true.
Proof.
  induction tasks as [|x tasks IH]; intros H; [reflexivity|].
  cbn [forallb] in H. apply andb_true_iff in H as [Hx H].
  cbn. destruct (jsstring_eqb (Task.id x) id); cbn; [now rewrite Hx | now rewrite Hx, IH].
Qed.

(** X13. The check of the task form holds for the whole store: if every task has
    a title, every task has one after any run of handlers. *)
Theorem tasks_keep_titles actions w w' :
  titled w -> run actions w = Some w' -> titled w'.
Proof.
  revert w. induction actions as [|a rest IH]; intros w Hw; cbn [run].
  - now intros [= <-].
  - destruct (dispatch a w) as [w1|] eqn:Hstep; [|discriminate].
    apply IH. clear IH rest w'. unfold titled in *.
    destruct a;
      try (match type of Hstep with
           | dispatch ?a _ = _ => rewrite (tasks_dispatch_chat a w w1 I Hstep)
           end; exact Hw);
      cbn [dispatch] in Hstep; injection Hstep as <-.
    + unfold handleTaskFormSubmit.
      destruct (truthy (Str.trim (TaskForm.taskTitleInput form))) eqn:Ht;
        cbn [negb]; [|exact Hw].
      cbn [World.state closeTaskForm with_editingTaskId saveState with_storage].
      destruct (isSet (World.editingTaskId w)).
      * destruct (findIndex _ _); [|exact Hw].
        destruct (nth_error _ _); [|exact Hw].
        cbn. now apply forallb_setAt.
      * cbn. rewrite forallb_app, Hw. cbn. now rewrite Ht.
    + unfold handleDeleteTask.
      destruct (negb (isSet _)); [exact Hw|]. destruct confirmed; [|exact Hw].
      cbn. now apply forallb_filter.
    + unfold subtaskCheckboxChange. destruct (findTask _ _); [|exact Hw].
      cbn. now apply forallb_assignNotes.
Qed.

Lemma tasks_keep_titles_witness :
  exists w',
    run [SubmitTask blankTitleForm 5 5;
         SubmitTask (formOf (js " Book flights ") (js "- [ ] pick dates")) 6 6;
         SubtaskChange (js "task_6") 0 true;
         NewChat 7 7]
        (worldWithTask scenarioNotes) = Some w' /\
    titled w'.
Proof.
  eexists. split; [reflexivity|].
  apply (tasks_keep_titles
           [SubmitTask blankTitleForm 5 5;
            SubmitTask (formOf (js " Book flights ") (js "- [ ] pick dates")) 6 6;
            SubtaskChange (js "task_6") 0 true;
            NewChat 7 7]
           (worldWithTask scenarioNotes)); reflexivity.
Defined.

Lemma findIndex_nth tasks id i :
  findIndex tasks id = Some i ->
  exists t, nth_error tasks i = Some t /\ Task.id t = id.
Proof.
  revert i. induction tasks as [|x tasks IH]; intros i; cbn; [discriminate|].
  destruct (jsstring_eqb (Task.id x) id) eqn:E.
  - intros [= <-]. exists x. split; [reflexivity | now apply jsstring_eqb_eq].
  - destruct (findIndex tasks id) as [j|]; [|discriminate].
    intros [= <-]. cbn. now apply IH.
Qed.

Lemma length_setAt tasks i t : List.length (setAt tasks i t) = List.length tasks.
Proof.
  revert i. induction tasks as [|x tasks IH]; intros i; [reflexivity|].
  destruct i; cbn; [reflexivity | now rewrite IH].
Qed.

Lemma nth_error_setAt tasks i j t old :
  nth_error tasks i = Some old ->
  nth_error (setAt tasks i t) j = if Nat.eqb i j then Some t else nth_error tasks j.
Proof.
  revert i j. induction tasks as [|x tasks IH]; intros i j; [now destruct i|].
  destruct i, j; cbn; try reflexivity. now apply IH.
Qed.

(** X14. Saving an edited task replaces that task alone: the list keeps its
    length and every other task, and the edited one takes the fields of
    the form (title and notes trimmed) while its creation time and its
    source conversation and message stay. *)
Theorem task_update_keeps_rest form tId tCreated w i :
  isSet (World.editingTaskId w) = true ->
  truthy (Str.trim (TaskForm.taskTitleInput form)) = true ->
  findIndex (AppState.tasks (World.state w)) (keyOf (World.editingTaskId w)) = Some i ->
  exists old,
    nth_error (AppState.tasks (World.state w)) i = Some old /\
    Task.id old = keyOf (World.editingTaskId w) /\
    List.length (AppState.tasks (World.state (handleTaskFormSubmit form tId tCreated w)))
    = List.length (AppState.tasks (World.state w)) /\
    nth_error (AppState.tasks (World.state (handleTaskFormSubmit form tId tCreated w))) i
    = Some (Task.mk (TaskForm.taskIdInput form)
                    (Str.trim (TaskForm.taskTitleInput form))
                    (Str.trim (TaskForm.taskNotesInput form))
                    (TaskForm.taskStatusSelect form)
                    (TaskForm.taskPrioritySelect form)
                    (orNull (TaskForm.taskDueDateInput form))
                    (Task.createdAt old)
                    (Task.sourceConversationId old)
                    (Task.sourceMessageText old)) /\
    (forall j, j <> i ->
       nth_error (AppState.tasks (World.state (handleTaskFormSubmit form tId tCreated w))) j
       = nth_error (AppState.tasks (World.state w)) j) /\
    World.editingTaskId (handleTaskFormSubmit form tId tCreated w) = None /\
    persistedCurrent (handleTaskFormSubmit form tId tCreated w).
Proof.
  intros Hedit Htitle Hfind.
  destruct (findIndex_nth _ _ _ Hfind) as (old & Hnth & Hid).
  exists old. split; [exact Hnth|]. split; [exact Hid|].
  unfold handleTaskFormSubmit. rewrite Htitle, Hedit, Hfind, Hnth. cbn [negb].
  cbn [World.state closeTaskForm with_editingTaskId saveState with_storage
       showNotification with_toasts with_state AppState.tasks with_tasks
       World.editingTaskId].
  split; [apply length_setAt|].
  split; [rewrite (nth_error_setAt _ _ _ _ _ Hnth), Nat.eqb_refl; reflexivity|].
  split; [|split; reflexivity].
  intros j Hj. rewrite (nth_error_setAt _ _ _ _ _ Hnth).
  destruct (Nat.eqb_spec i j); [congruence | reflexivity].
Qed.

Lemma task_update_keeps_rest_witness :
  exists old,
    nth_error (AppState.tasks (World.state (editingTask scenarioNotes))) 0 = Some old /\
    nth_error (AppState.tasks
                 (World.state (handleTaskFormSubmit
                                 (TaskForm.mk (js "task_1") (js " Plan B ") [] done high
                                              [] [] [])
                                 8 8 (editingTask scenarioNotes)))) 0
    = Some (Task.mk (js "task_1") (js "Plan B") [] done high None
                    (Task.createdAt old) (Task.sourceConversationId old)
                    (Task.sourceMessageText old)).
Proof.
  destruct (task_update_keeps_rest
              (TaskForm.mk (js "task_1") (js " Plan B ") [] done high [] [] [])
              8 8 (editingTask scenarioNotes) 0 eq_refl eq_refl eq_refl)
    as (old & Hold & _ & _ & Hnew & _).
  exists old. split; [exact Hold | exact Hnew].
Defined.

(** ** Settings *)

(** X15. Saving the settings never leaves the nickname or the agent name empty,
    keeps the pin of the sidebar, and does not touch the conversations:
    each keeps the custom instructions it was created with, and it is the
    next new conversation that gets the new ones. *)
Theorem settings_apply_to_new_chats form shouldRender tId tCreated w :
  AppSettings.nickname (AppState.settings (World.state (saveSettings form w))) <> [] /\
  AppSettings.agentName (AppState.settings (World.state (saveSettings form w))) <> [] /\
  AppSettings.isSidebarPinned (AppState.settings (World.state (saveSettings form w)))
  = AppSettings.isSidebarPinned (AppState.settings (World.state w)) /\
  AppState.conversations (World.state (saveSettings form w))
  = AppState.conversations (World.state w) /\
  AppState.archivedConversations (World.state (saveSettings form w))
  = AppState.archivedConversations (World.state w) /\
  persistedCurrent (saveSettings form w) /\
  rec_read (AppState.conversations
              (World.state (snd (startNewChat shouldRender tId tCreated
                                              (saveSettings form w)))))
           (fst (startNewChat shouldRender tId tCreated (saveSettings form w)))
  = Some (Conversation.mk (js "convo_" ++ decimal tId) (js "New Chat") []
                          (SettingsForm.instructionsInput form) tCreated).
Proof.
  assert (Hst : World.state (saveSettings form w)
                = with_settings
                    (AppSettings.mk
                       (orDefault (SettingsForm.nicknameInput form) (js "You"))
                       (SettingsForm.instructionsInput form)
                       (orDefault (SettingsForm.agentNameInput form) DEFAULT_AGENT_NAME)
                       (SettingsForm.agentAvatarInput form)
                       (SettingsForm.searchArchivedCheckbox form)
                       (AppSettings.isSidebarPinned (AppState.settings (World.state w))))
                    (World.state w))
    by (unfold saveSettings; cbn [World.state showNotification with_toasts];
        now rewrite state_renderApp).
  assert (Hor : forall v d, d <> [] -> orDefault v d <> [])
    by (intros v d Hd; unfold orDefault; destruct v; cbn; [exact Hd | discriminate]).
  rewrite Hst. cbn [AppState.settings with_settings AppSettings.nickname
                    AppSettings.agentName AppSettings.isSidebarPinned
                    AppState.conversations AppState.archivedConversations].
  split; [apply Hor; discriminate|]. split; [apply Hor; discriminate|].
  split; [reflexivity|]. split; [reflexivity|]. split; [reflexivity|].
  split.
  - unfold saveSettings. apply persisted_showNotification, persisted_renderApp.
  - assert (Hnew : World.state (snd (startNewChat shouldRender tId tCreated
                                                 (saveSettings form w)))
                   = World.state (snd (startNewChat false tId tCreated (saveSettings form w))))
      by (unfold startNewChat; destruct shouldRender; cbn [snd];
          [apply state_renderApp | reflexivity]).
    rewrite Hnew.
    change (fst (startNewChat shouldRender tId tCreated (saveSettings form w)))
      with (js "convo_" ++ decimal tId).
    rewrite startNewChat_read, Hst. reflexivity.
Qed.

(** ** The sources of a reply *)

Lemma strictEq_eq a b : strictEq a b = true <-> a = b.
Proof.
  destruct a as [a|], b as [b|]; cbn; try (split; congruence).
  rewrite jsstring_eqb_eq. split; congruence.
Qed.

Lemma findIndexBy_Some A (p : A -> bool) l i :
  findIndexBy p l = Some i <->
  exists x, nth_error l i = Some x /\ p x = true /\
            forall j y, j < i -> nth_error l j = Some y -> p y = false.
Proof.
  revert i. induction l as [|a l IH]; intros i; cbn.
  - split; [discriminate | intros (x & H & _); now destruct i].
  - destruct (p a) eqn:Ea.
    + split.
      * intros [= <-]. exists a. repeat split; [exact Ea | lia].
      * intros (x & Hx & Hp & Hfirst). destruct i as [|i]; [reflexivity|].
        specialize (Hfirst 0 a ltac:(lia) eq_refl). congruence.
    + split.
      * destruct (findIndexBy p l) as [k|] eqn:Ek; [|discriminate].
        intros [= <-]. destruct (proj1 (IH k) eq_refl) as (x & Hx & Hp & Hfirst).
        exists x. repeat split; [exact Hx | exact Hp |].
        intros [|j] y Hj Hy; cbn in Hy; [congruence|].
        apply (Hfirst j y); [lia | exact Hy].
      * intros (x & Hx & Hp & Hfirst). destruct i as [|i]; cbn in Hx; [congruence|].
        assert (Hk : findIndexBy p l = Some i).
        { apply IH. exists x. repeat split; [exact Hx | exact Hp |].
          intros j y Hj Hy. apply (Hfirst (S j) y); [lia | exact Hy]. }
        now rewrite Hk.
Qed.

Lemma In_filterFrom A (p : nat -> A -> bool) l index x :
  In x (filterFrom p index l) <->
  exists k, nth_error l k = Some x /\ p (index + k) x = true.
Proof.
  revert index. induction l as [|a l IH]; intros index; cbn.
  - split; [intros [] | intros (k & H & _); now destruct k].
  - assert (Hrest : In x (filterFrom p (S index) l) <->
                    exists k, nth_error (a :: l) (S k) = Some x
                              /\ p (index + S k) x = true).
    { rewrite IH. split; intros (k & Hk & Hp); exists k; split; try exact Hk;
        now replace (index + S k) with (S index + k) in * by lia. }
    destruct (p index a) eqn:Ea; cbn; rewrite Hrest.
    + split.
      * intros [<- | (k & Hk)]; [exists 0 | exists (S k); exact Hk].
        split; [reflexivity | now rewrite Nat.add_0_r].
      * intros ([|k] & Hk & Hp); [left; cbn in Hk; congruence | right].
        now exists k.
    + split.
      * intros (k & Hk). exists (S k). exact Hk.
      * intros ([|k] & Hk & Hp); [|now exists k].
        cbn in Hk. injection Hk as <-. rewrite Nat.add_0_r in Hp. congruence.
Qed.

Lemma NoDup_filterFrom A B (f : A -> B) (p : nat -> A -> bool) l index :
  (forall i j x y, i < j -> nth_error l i = Some x -> nth_error l j = Some y ->
                   p (index + i) x = true -> p (index + j) y = true -> f x <> f y) ->
  NoDup (map f (filterFrom p index l)).
Proof.
  revert index. induction l as [|a l IH]; intros index Hsep; cbn; [constructor|].
  assert (Hrest : NoDup (map f (filterFrom p (S index) l))).
  { apply IH. intros i j x y Hij Hx Hy Hpx Hpy.
    apply (Hsep (S i) (S j) x y); try assumption; try lia.
    - now replace (index + S i) with (S index + i) by lia.
    - now replace (index + S j) with (S index + j) by lia. }
  destruct (p index a) eqn:Ea; [|exact Hrest].
  cbn. constructor; [|exact Hrest].
  rewrite in_map_iff. intros (y & Hfy & Hy).
  apply In_filterFrom in Hy. destruct Hy as (k & Hk & Hp).
  apply (Hsep 0 (S k) a y); try assumption; try lia; try reflexivity.
  - now rewrite Nat.add_0_r.
  - now replace (index + S k) with (S index + k) by lia.
  - congruence.
Qed.

Lemma In_uniqueSources chunks chunk :
  In chunk (uniqueSources chunks) <->
  exists uri index, uri <> [] /\ firstWith chunks uri index chunk.
Proof.
  unfold uniqueSources. rewrite In_filterFrom. cbn [Nat.add]. split.
  - intros (k & Hk & Hp). apply andb_true_iff in Hp. destruct Hp as [Huri Hidx].
    destruct (uriOf chunk) as [uri|] eqn:Eu; [|discriminate]. cbn in Huri.
    destruct (findIndexBy _ chunks) as [i|] eqn:Ei; [|discriminate]. cbn in Hidx.
    apply Nat.eqb_eq in Hidx. subst i.
    apply findIndexBy_Some in Ei. destruct Ei as (x & Hx & _ & Hfirst).
    exists uri, k. split; [now destruct uri|].
    repeat split; [exact Hk | exact Eu |].
    intros j c Hj Hc Hcu. specialize (Hfirst j c Hj Hc).
    rewrite Hcu in Hfirst. cbn in Hfirst. now rewrite jsstring_eqb_refl in Hfirst.
  - intros (uri & index & Hne & Hnth & Hu & Hfirst). exists index.
    split; [exact Hnth|]. cbv beta. rewrite Hu. cbn [truthyOpt].
    replace (truthy uri) with true by now destruct uri. cbn [andb].
    assert (Hi : findIndexBy (fun c => strictEq (uriOf c) (Some uri)) chunks = Some index).
    { apply findIndexBy_Some. exists chunk. repeat split; [exact Hnth | |].
      - rewrite Hu. apply strictEq_eq. reflexivity.
      - intros j y Hj Hy. destruct (strictEq (uriOf y) (Some uri)) eqn:E; [|reflexivity].
        apply strictEq_eq in E. now destruct (Hfirst j y Hj Hy). }
    transitivity (isIndex index (Some index));
      [exact (f_equal (isIndex index) Hi) | apply Nat.eqb_refl].
Qed.

Lemma NoDup_uniqueSources chunks : NoDup (map uriOf (uniqueSources chunks)).
Proof.
  unfold uniqueSources. apply NoDup_filterFrom. cbn [Nat.add].
  intros i j x y Hij Hx Hy _ Hpy Hxy. cbv beta in Hpy.
  apply andb_true_iff in Hpy. destruct Hpy as [_ Hidx].
  destruct (findIndexBy _ chunks) as [k|] eqn:Ek; [|discriminate Hidx]. cbn in Hidx.
  apply Nat.eqb_eq in Hidx. subst k.
  apply findIndexBy_Some in Ek. destruct Ek as (z & _ & _ & Hfirst).
  specialize (Hfirst i x Hij Hx). rewrite Hxy in Hfirst.
  assert (strictEq (uriOf y) (uriOf y) = true) by now apply strictEq_eq.
  congruence.
Qed.

Lemma NoDup_map_flat_map A B C (f : A -> C) (g : B -> C) (h : A -> list B) l :
  (forall a b, In b (h a) -> h a = [b] /\ g b = f a) ->
  NoDup (map f l) -> NoDup (map g (flat_map h l)).
Proof.
  intros Hh. induction l as [|a l IH]; cbn; [constructor|].
  intros Hnd. inversion Hnd as [|? ? Hnotin Hnd']; subst.
  specialize (IH Hnd'). destruct (h a) as [|b rest] eqn:Eh; [exact IH|].
  destruct (Hh a b) as [Hone Hg]; [rewrite Eh; now left|].
  rewrite Eh in Hone. injection Hone as ->. cbn. constructor; [|exact IH].
  rewrite in_map_iff. intros (b' & Hb' & Hin). apply in_flat_map in Hin.
  destruct Hin as (a' & Ha' & Hba'). destruct (Hh a' b' Hba') as [_ Hg'].
  apply Hnotin. rewrite in_map_iff. exists a'. split; [congruence | exact Ha'].
Qed.

(** X16. A source is listed under the reply exactly when its link and its title
    are not empty and it is the first chunk of the reply with that link;
    so no link is listed twice, and a link whose first chunk has no title
    is not listed at all, whatever later chunks carry. *)
Theorem sources_listed_once chunks :
  NoDup (map SourceItem.sourceUri (createSourcesElement chunks)) /\
  (forall title uri,
     In (SourceItem.mk title uri) (createSourcesElement chunks) <->
     uri <> [] /\ title <> [] /\
     exists index chunk, firstWith chunks uri index chunk /\ titleOf chunk = Some title) /\
  (forall uri index chunk item,
     firstWith chunks uri index chunk -> truthyOpt (titleOf chunk) = false ->
     In item (createSourcesElement chunks) -> SourceItem.sourceUri item <> uri).
Proof.
  assert (Hin : forall title uri,
     In (SourceItem.mk title uri) (createSourcesElement chunks) <->
     uri <> [] /\ title <> [] /\
     exists index chunk, firstWith chunks uri index chunk /\ titleOf chunk = Some title).
  { intros title uri. unfold createSourcesElement. rewrite in_flat_map. split.
    - intros (chunk & Hchunk & Hitem).
      apply In_uniqueSources in Hchunk. destruct Hchunk as (u & index & Hne & Hfirst).
      pose proof Hfirst as (_ & Hu & _). unfold uriOf in Hu.
      destruct (GroundingChunk.web chunk) as [web|] eqn:Ew; [|discriminate].
      rewrite Hu in Hitem.
      destruct (GroundingChunkWeb.title web) as [t|] eqn:Et; [|destruct Hitem].
      destruct (truthy u && truthy t) eqn:Ett; [|destruct Hitem].
      destruct Hitem as [[= <- <-]|[]].
      apply andb_true_iff in Ett. destruct Ett as [_ Ht].
      split; [exact Hne|]. split; [now destruct t|].
      exists index, chunk. split; [exact Hfirst|].
      unfold titleOf. now rewrite Ew.
    - intros (Hu & Ht & index & chunk & Hfirst & Htitle).
      exists chunk. split; [apply In_uniqueSources; now exists uri, index|].
      destruct Hfirst as (_ & Huri & _). unfold uriOf in Huri. unfold titleOf in Htitle.
      destruct (GroundingChunk.web chunk) as [web|]; [|discriminate].
      rewrite Huri, Htitle.
      replace (truthy uri) with true by now destruct uri.
      replace (truthy title) with true by now destruct title.
      now left. }
  split; [|split; [exact Hin|]].
  - unfold createSourcesElement.
    apply NoDup_map_flat_map with (f := fun c => match uriOf c with
                                                 | Some u => u
                                                 | None => []
                                                 end).
    + intros chunk item. unfold uriOf.
      destruct (GroundingChunk.web chunk) as [web|]; [|intros []].
      destruct (GroundingChunkWeb.uri web) as [u|]; [|intros []].
      destruct (GroundingChunkWeb.title web) as [t|]; [|intros []].
      destruct (truthy u && truthy t); [|intros []].
      intros [<-|[]]. split; reflexivity.
    + pose proof (NoDup_uniqueSources chunks) as Hnd.
      assert (Hsome : forall c, In c (uniqueSources chunks) -> uriOf c <> None).
      { intros c Hc. apply In_uniqueSources in Hc.
        destruct Hc as (u & i & _ & _ & Hu & _). congruence. }
      induction (uniqueSources chunks) as [|c l IH]; cbn; [constructor|].
      inversion Hnd as [|? ? Hnotin Hnd']; subst.
      constructor; [|apply IH; [exact Hnd' | intros; apply Hsome; now right]].
      rewrite in_map_iff. intros (c' & Hcc' & Hc').
      apply Hnotin. rewrite in_map_iff. exists c'. split; [|exact Hc'].
      pose proof (Hsome c (or_introl eq_refl)) as Hc.
      pose proof (Hsome c' (or_intror Hc')) as Hc'some.
      destruct (uriOf c), (uriOf c'); congruence.
  - intros uri index chunk [title u] Hfirst Hnotitle Hitem Heq. cbn in Heq. subst u.
    apply Hin in Hitem. destruct Hitem as (_ & Ht & index' & chunk' & Hfirst' & Htitle').
    assert (index' = index).
    { destruct Hfirst as (Hn & Hu & Hlt), Hfirst' as (Hn' & Hu' & Hlt').
      destruct (Nat.lt_trichotomy index' index) as [Hlt0|[Heq0|Hgt0]]; [|exact Heq0|].
      - now destruct (Hlt index' chunk' Hlt0 Hn').
      - now destruct (Hlt' index chunk Hgt0 Hn). }
    subst index'. destruct Hfirst as (Hn & _), Hfirst' as (Hn' & _).
    assert (chunk' = chunk) by congruence. subst chunk'.
    rewrite Htitle' in Hnotitle. cbn in Hnotitle. now destruct title.
Qed.

(** The link of the first chunk has no title, so the titled second chunk
    with the same link is not listed either. *)
Example untitled_first_hides_source :
  createSourcesElement
    [sourceOf (Some (js "https://a.example")) None;
     sourceOf (Some (js "https://a.example")) (Some (js "A"));
     sourceOf (Some (js "https://b.example")) (Some (js "B"))]
  = [SourceItem.mk (js "B") (js "https://b.example")].
Proof. reflexivity. Qed.

(** ** The list of tasks *)

(** The comparison function of [renderTasks] is a consistent one. *)
Lemma compareTasks_consistent a b c :
  compareTasks a a = 0%Z /\
  ((compareTasks a b <= 0)%Z <-> (0 <= compareTasks b a)%Z) /\
  ((compareTasks a b <= 0)%Z -> (compareTasks b c <= 0)%Z -> (compareTasks a c <= 0)%Z).
Proof.
  unfold compareTasks.
  destruct (isDone a), (isDone b), (isDone c); cbn; repeat split; lia.
Qed.

Lemma Permutation_insertBy A (compareFn : A -> A -> Z) x l :
  Permutation (insertBy compareFn x l) (x :: l).
Proof.
  induction l as [|y l IH]; cbn; [reflexivity|].
  destruct (compareFn x y <=? 0)%Z; [reflexivity|].
  rewrite IH. apply perm_swap.
Qed.

Lemma Permutation_sortBy A (compareFn : A -> A -> Z) l :
  Permutation (sortBy compareFn l) l.
Proof.
  induction l as [|x l IH]; cbn; [reflexivity|].
  rewrite Permutation_insertBy. now constructor.
Qed.

Lemma StronglySorted_insertBy A (compareFn : A -> A -> Z) (R : A -> A -> Prop) x l :
  (forall a b, (compareFn a b <= 0)%Z -> R a b) ->
  (forall a b, (0 < compareFn a b)%Z -> R b a) ->
  (forall a b c, R a b -> R b c -> R a c) ->
  StronglySorted R l -> StronglySorted R (insertBy compareFn x l).
Proof.
  intros Hle Hgt Htrans Hsorted.
  induction Hsorted as [|y l Hl IH Hy]; cbn; [repeat constructor|].
  destruct (Z.leb_spec (compareFn x y) 0) as [Hxy|Hxy].
  - constructor; [now constructor|].
    constructor; [now apply Hle|].
    eapply Forall_impl; [|exact Hy]. intros z Hz. apply (Htrans x y z); auto.
  - constructor; [exact IH|].
    apply (Permutation_Forall (Permutation_sym (Permutation_insertBy _ compareFn x l))).
    constructor; [now apply Hgt | exact Hy].
Qed.

Lemma filter_insertBy A (compareFn : A -> A -> Z) (q : A -> bool) x l :
  (forall y, q x = true -> q y = true -> (compareFn x y <= 0)%Z) ->
  filter q (insertBy compareFn x l) = filter q (x :: l).
Proof.
  intros Hq. induction l as [|y l IH]; cbn; [reflexivity|].
  destruct (Z.leb_spec (compareFn x y) 0) as [Hxy|Hxy]; [reflexivity|].
  cbn. rewrite IH. cbn.
  destruct (q x) eqn:Ex, (q y) eqn:Ey; try reflexivity.
  specialize (Hq y eq_refl Ey). lia.
Qed.

(** X17. The tasks are listed with the open ones first and the done ones last,
    the newer before the older in each of the two groups, and tasks of the
    same group created at the same time in the order of the state; no task
    is lost or repeated. *)
Theorem tasks_listed_open_first w :
  Permutation (sortedTasks w) (AppState.tasks (World.state w)) /\
  StronglySorted listedBefore (sortedTasks w) /\
  (forall isDoneGroup createdAt,
     filter (sameRank isDoneGroup createdAt) (sortedTasks w)
     = filter (sameRank isDoneGroup createdAt) (AppState.tasks (World.state w))).
Proof.
  unfold sortedTasks. split; [apply Permutation_sortBy|]. split.
  - induction (AppState.tasks (World.state w)) as [|x l IH]; cbn; [constructor|].
    apply StronglySorted_insertBy; [| | |exact IH].
    + intros a b. unfold compareTasks, listedBefore.
      destruct (isDone a), (isDone b); cbn; split; intros; try congruence; lia.
    + intros a b. unfold compareTasks, listedBefore.
      destruct (isDone a), (isDone b); cbn; split; intros; try congruence; lia.
    + intros a b c [Hab1 Hab2] [Hbc1 Hbc2]. unfold listedBefore.
      destruct (isDone a), (isDone b), (isDone c); split; intros;
        try congruence; try (specialize (Hab1 eq_refl)); try (specialize (Hbc1 eq_refl));
        try congruence;
        specialize (Hab2 eq_refl); specialize (Hbc2 eq_refl); lia.
  - intros isDoneGroup createdAt.
    induction (AppState.tasks (World.state w)) as [|x l IH]; [reflexivity|].
    cbn [sortBy fold_right]. rewrite filter_insertBy.
    + cbn. fold (sortBy compareTasks l). now rewrite IH.
    + intros y Hx Hy. unfold sameRank in Hx, Hy.
      apply andb_true_iff in Hx, Hy. destruct Hx as [Hdx Htx], Hy as [Hdy Hty].
      apply eqb_prop in Hdx, Hdy. apply N.eqb_eq in Htx, Hty.
      unfold compareTasks. rewrite Hdx, Hdy.
      destruct isDoneGroup; cbn; lia.
Qed.

(** An open task created first, a done one, then two open ones created
    later at the same time. *)
Example tasks_order :
  map Task.id
    (sortedTasks
       (worldOf (AppState.mk [] [] None
                   [taskAt "a" todo 1; taskAt "b" done 9; taskAt "c" in_progress 5;
                    taskAt "d" todo 5]
                   sampleSettings)))
  = [js "c"; js "d"; js "a"; js "b"].
Proof. reflexivity. Qed.

(** ** The command palette *)

Lemma rem_wrap a n :
  (0 <= a < 2 * n)%Z -> Z.rem a n = if (a <? n)%Z then a else (a - n)%Z.
Proof.
  intros Ha. rewrite Z.rem_mod_nonneg by lia.
  destruct (Z.ltb_spec a n); [apply Z.mod_small; lia|].
  symmetry. apply Z.mod_unique with 1%Z; lia.
Qed.

Lemma itemAt_valid items i :
  (0 <= i < Z.of_nat (List.length items))%Z ->
  exists id, itemAt items i = Some id /\ In id items.
Proof.
  intros Hi. unfold itemAt. destruct (Z.ltb_spec i 0); [lia|].
  destruct (nth_error items (Z.to_nat i)) as [id|] eqn:E.
  - exists id. split; [reflexivity | eapply nth_error_In; exact E].
  - apply nth_error_None in E. lia.
Qed.

Lemma find_command id :
  isCommandId id ->
  exists command,
    find (fun c => jsstring_eqb (Command.id c) id) commands = Some command
    /\ Command.id command = id.
Proof.
  intros (c & Hc & Hid).
  destruct (find (fun c => jsstring_eqb (Command.id c) id) commands) as [command|] eqn:E.
  - exists command. split; [reflexivity|].
    apply find_some in E. now apply jsstring_eqb_eq.
  - pose proof (find_none _ _ E c Hc) as Hno. cbv beta in Hno.
    rewrite Hid, jsstring_eqb_refl in Hno. discriminate.
Qed.

Lemma renderCommands_valid toLowerCase value p :
  (0 <= Palette.activeCommandIndex p)%Z ->
  selectionValid (renderCommands toLowerCase value p)
  /\ Forall isCommandId (Palette.items (renderCommands toLowerCase value p)).
Proof.
  intros Hp. unfold renderCommands, selectionValid.
  cbn [Palette.items Palette.activeCommandIndex].
  set (filteredCommands := List.filter _ commands).
  assert (Hsub : forall c, In c filteredCommands -> In c commands)
    by (intros c Hc; apply filter_In in Hc; tauto).
  clearbody filteredCommands. split.
  - rewrite length_map.
    destruct filteredCommands as [|c rest]; [left; split; reflexivity | right].
    cbn [List.length]. change (0 <? Z.of_nat (S (List.length rest)))%Z with true.
    cbn [andb].
    destruct (Z.leb_spec (Z.of_nat (S (List.length rest))) (Palette.activeCommandIndex p));
      [lia|].
    destruct (Z.eqb_spec (Z.of_nat (S (List.length rest))) 0); lia.
  - apply Forall_forall. intros id Hid. apply in_map_iff in Hid.
    destruct Hid as (c & Hc & Hin). exists c. split; [now apply Hsub | exact Hc].
Qed.

Lemma navigation_valid key p :
  selectionValid p -> Forall isCommandId (Palette.items p) ->
  exists p', handleCommandPaletteNavigation key p = Some p'
             /\ selectionValid p' /\ Palette.items p' = Palette.items p.
Proof.
  intros Hsel Hitems. unfold handleCommandPaletteNavigation.
  destruct (Z.eqb_spec (Z.of_nat (List.length (Palette.items p))) 0) as [Hn|Hn];
    [now exists p|].
  destruct Hsel as [[Hnil _]|Hsel]; [rewrite Hnil in Hn; now destruct Hn|].
  destruct key.
  - eexists. split; [reflexivity|]. split; [|reflexivity]. right.
    cbn [with_activeCommandIndex Palette.activeCommandIndex Palette.items].
    rewrite rem_wrap by lia.
    destruct (Z.ltb_spec (Palette.activeCommandIndex p + 1)
                         (Z.of_nat (List.length (Palette.items p)))); lia.
  - eexists. split; [reflexivity|]. split; [|reflexivity]. right.
    cbn [with_activeCommandIndex Palette.activeCommandIndex Palette.items].
    rewrite rem_wrap by lia.
    destruct (Z.ltb_spec (Palette.activeCommandIndex p - 1
                          + Z.of_nat (List.length (Palette.items p)))
                         (Z.of_nat (List.length (Palette.items p)))); lia.
  - destruct (itemAt_valid _ _ Hsel) as (id & Hid & Hin). rewrite Hid.
    destruct (find_command id) as (command & Hfind & _);
      [now apply (proj1 (Forall_forall _ _) Hitems)|].
    rewrite Hfind. eexists. split; [reflexivity|]. split; [|reflexivity].
    right. exact Hsel.
  - exists p. repeat split. now right.
Qed.

Lemma paletteRun_valid toLowerCase events p :
  selectionValid p -> Forall isCommandId (Palette.items p) ->
  exists p', paletteRun toLowerCase events p = Some p'
             /\ selectionValid p' /\ Forall isCommandId (Palette.items p').
Proof.
  revert p. induction events as [|e events IH]; intros p Hsel Hitems;
    [now exists p|].
  cbn [paletteRun]. destruct e as [|value|key]; cbn [paletteStep].
  - destruct (renderCommands_valid toLowerCase [] (with_activeCommandIndex 0 p))
      as [H1 H2]; [cbn; lia|].
    now apply IH.
  - destruct (renderCommands_valid toLowerCase value (with_activeCommandIndex 0 p))
      as [H1 H2]; [cbn; lia|].
    now apply IH.
  - destruct (navigation_valid key p Hsel Hitems) as (p' & Hp' & Hsel' & Hitems').
    rewrite Hp'. apply IH; [exact Hsel' | now rewrite Hitems'].
Qed.

(** X18. Once the palette has been opened, whatever is typed and whichever keys
    are pressed, no key throws and the selection stays on an item of the
    list (the index is -1 only when no command matches): Enter then calls
    the action of the command shown at the selection. *)
Theorem palette_selection_valid toLowerCase events p0 :
  exists p,
    paletteRun toLowerCase (OpenPalette :: events) p0 = Some p /\
    selectionValid p /\
    (Palette.items p <> [] ->
     exists id,
       nth_error (Palette.items p) (Z.to_nat (Palette.activeCommandIndex p)) = Some id /\
       isCommandId id /\
       handleCommandPaletteNavigation Enter p
       = Some (Palette.mk (Palette.activeCommandIndex p) (Palette.items p)
                          (id :: Palette.called p))).
Proof.
  cbn [paletteRun paletteStep].
  destruct (renderCommands_valid toLowerCase [] (with_activeCommandIndex 0 p0))
    as [H1 H2]; [cbn; lia|].
  destruct (paletteRun_valid toLowerCase events _ H1 H2) as (p & Hrun & Hsel & Hitems).
  exists p. split; [exact Hrun|]. split; [exact Hsel|].
  intros Hne. destruct Hsel as [[Hnil _]|Hsel]; [contradiction|].
  destruct (itemAt_valid _ _ Hsel) as (id & Hid & Hin).
  assert (Hcmd : isCommandId id) by now apply (proj1 (Forall_forall _ _) Hitems).
  exists id. split; [|split; [exact Hcmd|]].
  - unfold itemAt in Hid. destruct (Z.ltb_spec (Palette.activeCommandIndex p) 0);
      [lia | exact Hid].
  - unfold handleCommandPaletteNavigation.
    destruct (Z.eqb_spec (Z.of_nat (List.length (Palette.items p))) 0); [lia|].
    rewrite Hid. destruct (find_command id Hcmd) as (command & Hfind & Hcid).
    now rewrite Hfind, Hcid.
Qed.

(** X19. With the selection on an item, the down arrow moves it to the next
    item and from the last one to the first, the up arrow moves it back:
    each of the two arrows undoes the other. *)
Theorem arrows_cancel p :
  (0 <= Palette.activeCommandIndex p < Z.of_nat (List.length (Palette.items p)))%Z ->
  handleCommandPaletteNavigation ArrowDown p
  = Some (with_activeCommandIndex
            (if (Palette.activeCommandIndex p + 1
                 =? Z.of_nat (List.length (Palette.items p)))%Z
             then 0%Z else (Palette.activeCommandIndex p + 1)%Z) p) /\
  (forall p', handleCommandPaletteNavigation ArrowDown p = Some p' ->
              handleCommandPaletteNavigation ArrowUp p' = Some p) /\
  (forall p', handleCommandPaletteNavigation ArrowUp p = Some p' ->
              handleCommandPaletteNavigation ArrowDown p' = Some p).
Proof.
  intros Hsel. destruct p as [idx items called].
  cbn [Palette.activeCommandIndex Palette.items] in Hsel.
  unfold handleCommandPaletteNavigation, with_activeCommandIndex.
  cbn [Palette.activeCommandIndex Palette.items Palette.called].
  destruct (Z.eqb_spec (Z.of_nat (List.length items)) 0) as [Hn|Hn]; [lia|].
  set (n := Z.of_nat (List.length items)) in *.
  split; [|split].
  - rewrite rem_wrap by lia. f_equal. f_equal.
    destruct (Z.ltb_spec (idx + 1) n), (Z.eqb_spec (idx + 1) n); lia.
  - intros p' [= <-].
    cbn [Palette.activeCommandIndex Palette.items Palette.called]. fold n.
    destruct (Z.eqb_spec n 0); [lia|]. f_equal. f_equal.
    rewrite (rem_wrap (idx + 1)) by lia.
    destruct (Z.ltb_spec (idx + 1) n); rewrite rem_wrap by lia.
    + destruct (Z.ltb_spec (idx + 1 - 1 + n) n); lia.
    + destruct (Z.ltb_spec (idx + 1 - n - 1 + n) n); lia.
  - intros p' [= <-].
    cbn [Palette.activeCommandIndex Palette.items Palette.called]. fold n.
    destruct (Z.eqb_spec n 0); [lia|]. f_equal. f_equal.
    rewrite (rem_wrap (idx - 1 + n)) by lia.
    destruct (Z.ltb_spec (idx - 1 + n) n); rewrite rem_wrap by lia.
    + destruct (Z.ltb_spec (idx - 1 + n + 1) n); lia.
    + destruct (Z.ltb_spec (idx - 1 + n - n + 1) n); lia.
Qed.

Lemma arrows_cancel_witness :
  handleCommandPaletteNavigation ArrowDown
    (Palette.mk 3 (map Command.id commands) [])
  = Some (Palette.mk 0 (map Command.id commands) []).
Proof.
  apply (arrows_cancel (Palette.mk 3 (map Command.id commands) [])).
  cbn. lia.
Defined.

(** Typing a filter that matches one command selects it, and Enter calls
    its action; a filter that matches none leaves nothing to call. *)
Example palette_filter :
  paletteRun asciiLowerCase
    [OpenPalette; KeyDown ArrowDown; KeyDown ArrowDown; PaletteInput (js "Theme");
     KeyDown Enter; PaletteInput (js "zzz"); KeyDown Enter; KeyDown ArrowUp]
    (Palette.mk 0 [] [])
  = Some (Palette.mk (-1) [] [js "toggle-theme"]).
Proof. reflexivity. Qed.

(** ** Saving and loading *)

Lemma map_injective A B (f : A -> B) l1 l2 :
  (forall a b, f a = f b -> a = b) -> map f l1 = map f l2 -> l1 = l2.
Proof.
  intros Hf. revert l2. induction l1 as [|x l1 IH]; intros [|y l2] H;
    try discriminate; [reflexivity|].
  cbn in H. injection H as Hxy Hrest. f_equal; auto.
Qed.

Lemma jsonChunk_injective a b : jsonChunk a = jsonChunk b -> a = b.
Proof.
  destruct a as [[[[u|] [t|]]|]], b as [[[[u'|] [t'|]]|]]; cbn; intros H;
    try discriminate; try reflexivity; injection H; intros; subst; reflexivity.
Qed.

Lemma jsonEntry_injective a b : jsonEntry a = jsonEntry b -> a = b.
Proof.
  destruct a as [r t [g|]], b as [r' t' [g'|]]; cbn; intros H;
    try discriminate; injection H.
  - intros Hg <- Hr. apply (map_injective _ _ _ _ _ jsonChunk_injective) in Hg.
    subst. destruct r, r'; try discriminate; reflexivity.
  - intros <- Hr. destruct r, r'; try discriminate; reflexivity.
Qed.

Lemma jsonConversation_injective a b : jsonConversation a = jsonConversation b -> a = b.
Proof.
  destruct a, b; cbn; intros H; injection H.
  intros Hc <- Hh <- <-. apply (map_injective _ _ _ _ _ jsonEntry_injective) in Hh.
  apply N2Z.inj in Hc. now subst.
Qed.

Lemma jsonNullable_injective a b : jsonNullable a = jsonNullable b -> a = b.
Proof. destruct a, b; cbn; congruence. Qed.

Lemma jsonTask_injective a b : jsonTask a = jsonTask b -> a = b.
Proof.
  destruct a as [i t n s p d c sc sm], b as [i' t' n' s' p' d' c' sc' sm'].
  cbn. intros H. injection H.
  intros Hsm Hsc Hc Hd Hp Hs <- <- <-.
  apply jsonNullable_injective in Hsm, Hsc, Hd. apply N2Z.inj in Hc. subst.
  destruct s, s'; try discriminate; destruct p, p'; try discriminate; reflexivity.
Qed.

Lemma jsonConversations_injective a b :
  allDefined a = true -> allDefined b = true ->
  jsonConversations a = jsonConversations b -> a = b.
Proof.
  unfold jsonConversations. intros Ha Hb H. injection H as H. revert b Hb H.
  induction a as [|[k [c|]] a IH]; intros [|[k' [c'|]] b] Hb H;
    try discriminate; [reflexivity|].
  cbn [allDefined forallb snd andb] in Ha, Hb.
  cbn [flat_map member fst snd app] in H.
  remember (jsonConversation c) as v eqn:Ev.
  remember (jsonConversation c') as v' eqn:Ev'.
  injection H as <- Hv Hrest. rewrite Ev, Ev' in Hv.
  apply jsonConversation_injective in Hv. subst c'. f_equal. now apply IH.
Qed.

(** States that differ are saved as values that differ. *)
Lemma savedState_injective a b :
  plainState a -> plainState b -> savedState a = savedState b -> a = b.
Proof.
  destruct a as [c r i t s], b as [c' r' i' t' s']. intros [Hc Hr] [Hc' Hr'].
  cbn in Hc, Hr, Hc', Hr'. unfold savedState.
  cbn [AppState.conversations AppState.archivedConversations
       AppState.activeConversationId AppState.tasks AppState.settings].
  remember (jsonConversations c) as v1 eqn:E1.
  remember (jsonConversations c') as v1' eqn:E1'.
  remember (jsonConversations r) as v2 eqn:E2.
  remember (jsonConversations r') as v2' eqn:E2'.
  remember (jsonNullable i) as v3 eqn:E3.
  remember (jsonNullable i') as v3' eqn:E3'.
  remember (map jsonTask t) as v4 eqn:E4.
  remember (map jsonTask t') as v4' eqn:E4'.
  remember (jsonSettings s) as v5 eqn:E5.
  remember (jsonSettings s') as v5' eqn:E5'.
  intros H. injection H as H1 H2 H3 H4 H5.
  rewrite E1, E1' in H1. rewrite E2, E2' in H2. rewrite E3, E3' in H3.
  rewrite E4, E4' in H4. rewrite E5, E5' in H5.
  apply jsonConversations_injective in H1, H2; try assumption.
  apply jsonNullable_injective in H3.
  apply (map_injective _ _ _ _ _ jsonTask_injective) in H4.
  destruct s, s'. injection H5. intros. now subst.
Qed.

(** The initial state is saved as the value [getInitialState] builds. *)
Lemma savedState_initial :
  savedState (AppState.mk [] [] None []
                (AppSettings.mk (js "You") [] DEFAULT_AGENT_NAME [] false false))
  = getInitialState.
Proof. reflexivity. Qed.

(** X20. What [saveState] has written, [loadState] reads back as it was: the
    state loaded from the text of a saved state is that state, member for
    member and in the same order, whatever the state holds. *)
Theorem saved_state_loads_back JSON_parse text st :
  truthy text = true ->
  JSON_parse text = Some (JObject (savedState st)) ->
  loadState JSON_parse (Some text) = Some (savedState st).
Proof.
  intros Htext Hparse. unfold loadState. rewrite Htext, Hparse.
  destruct st as [convs archived active tasks settings].
  destruct settings as [nickname instructions agentName avatar searchArchived pinned].
  unfold savedState, jsonSettings.
  cbn [AppState.conversations AppState.archivedConversations
       AppState.activeConversationId AppState.tasks AppState.settings
       AppSettings.nickname AppSettings.customInstructions AppSettings.agentName
       AppSettings.agentAvatarUrl AppSettings.searchArchived
       AppSettings.isSidebarPinned].
  generalize (jsonConversations convs) (jsonConversations archived)
             (jsonNullable active) (map jsonTask tasks)
             (JString nickname) (JString instructions) (JString agentName)
             (JString avatar) (JBool searchArchived) (JBool pinned).
  intros. reflexivity.
Qed.

Lemma saved_state_loads_back_witness :
  loadState (parseSaved (js "{}") (World.state afterFirstExchange)) (Some (js "{}"))
  = Some (savedState (World.state afterFirstExchange)).
Proof.
  apply saved_state_loads_back; reflexivity.
Defined.

(** ** The chat area and the history *)

Lemma appendMessage_messageOf r t g w :
  World.chatHistoryElement (appendMessage r t g w)
  = World.chatHistoryElement w ++ [messageOf (HistoryEntry.mk r t g)].
Proof. reflexivity. Qed.

Lemma view_fold_appendMessage (entries : list HistoryEntry.t) w :
  World.chatHistoryElement
    (fold_left
       (fun w' entry =>
          appendMessage (HistoryEntry.role entry) (HistoryEntry.text entry)
                        (HistoryEntry.groundingChunks entry) w')
       entries w)
  = World.chatHistoryElement w ++ map messageOf entries.
Proof.
  revert w. induction entries as [|e es IH]; intros w; cbn [fold_left map].
  - now rewrite app_nil_r.
  - rewrite IH. destruct e as [r t g].
    cbn [HistoryEntry.role HistoryEntry.text HistoryEntry.groundingChunks].
    rewrite appendMessage_messageOf, <- app_assoc. reflexivity.
Qed.

Lemma chatsCreateOk_fold_appendMessage (entries : list HistoryEntry.t) w :
  World.chatsCreateOk
    (fold_left
       (fun w' entry =>
          appendMessage (HistoryEntry.role entry) (HistoryEntry.text entry)
                        (HistoryEntry.groundingChunks entry) w')
       entries w) = World.chatsCreateOk w.
Proof. revert w; induction entries as [|e es IH]; intros w; cbn; [reflexivity|]. now rewrite IH. Qed.

Lemma view_setupConversation w :
  World.chatsCreateOk w = true ->
  World.chatHistoryElement (setupConversation w) = World.chatHistoryElement w.
Proof.
  intros Hok. unfold setupConversation.
  destruct (rec_read _ _); [|reflexivity].
  destruct (World.ai w); [|reflexivity].
  now rewrite Hok.
Qed.

Lemma view_renderApp w id c :
  World.chatsCreateOk w = true ->
  AppState.activeConversationId (World.state w) = Some id ->
  truthy id = true ->
  rec_read (AppState.conversations (World.state w)) id = Some c ->
  World.chatHistoryElement (renderApp w) = map messageOf (Conversation.history c).
Proof.
  intros Hok Hactive Hid Hc. unfold renderApp.
  cbn [updateSidebarPinnedState saveState with_storage with_state
       World.chatHistoryElement].
  unfold hasActiveConversation. rewrite Hactive. cbn [isSet keyOf]. rewrite Hid, Hc.
  cbn [andb]. unfold renderActiveConversation. rewrite Hactive. cbn [keyOf]. rewrite Hc.
  rewrite view_setupConversation
    by (rewrite chatsCreateOk_fold_appendMessage; exact Hok).
  now rewrite view_fold_appendMessage.
Qed.

Lemma atSend_page msg cid b w0 :
  World.ai (atSend msg cid b w0) = World.ai w0 /\
  World.chatsCreateOk (atSend msg cid b w0) = World.chatsCreateOk w0.
Proof.
  unfold atSend. cbv zeta.
  set (w2 := pushHistory cid _ (appendMessage user msg None w0)).
  assert (H2 : World.ai w2 = World.ai w0 /\ World.chatsCreateOk w2 = World.chatsCreateOk w0).
  { unfold w2. destruct (pushHistory_page cid (HistoryEntry.mk user msg None)
                           (appendMessage user msg None w0)) as (-> & _ & ->).
    split; reflexivity. }
  clearbody w2. destruct H2 as [Ha Hc].
  assert (H3 : World.ai (if b then setupConversation w2 else w2) = World.ai w0 /\
               World.chatsCreateOk (if b then setupConversation w2 else w2)
               = World.chatsCreateOk w0).
  { destruct b; [|split; assumption].
    destruct (setupConversation_page w2) as [-> ->]. split; assumption. }
  set (w3 := if b then setupConversation w2 else w2) in *. clearbody w3.
  destruct H3 as [Ha3 Hc3].
  destruct (World.chat (saveState w3)).
  - split; assumption.
  - destruct (setupConversation_page (saveState w3)) as [-> ->]. split; assumption.
Qed.

Lemma atSend_view msg cid b w0 :
  World.chatsCreateOk w0 = true ->
  World.chatHistoryElement (atSend msg cid b w0)
  = World.chatHistoryElement w0 ++ [messageOf (HistoryEntry.mk user msg None)].
Proof.
  intros Hok. unfold atSend. cbv zeta.
  set (w2 := pushHistory cid _ (appendMessage user msg None w0)).
  assert (H2 : World.chatsCreateOk w2 = true /\
               World.chatHistoryElement w2
               = World.chatHistoryElement w0 ++ [messageOf (HistoryEntry.mk user msg None)]).
  { unfold w2. rewrite pushHistory_shown.
    destruct (pushHistory_page cid (HistoryEntry.mk user msg None)
                (appendMessage user msg None w0)) as (_ & _ & ->).
    split; [exact Hok | reflexivity]. }
  clearbody w2. destruct H2 as [Hc Hv].
  assert (H3 : World.chatsCreateOk (if b then setupConversation w2 else w2) = true /\
               World.chatHistoryElement (if b then setupConversation w2 else w2)
               = World.chatHistoryElement w2).
  { destruct b; [|split; [exact Hc | reflexivity]].
    rewrite (proj2 (setupConversation_page w2)), view_setupConversation by exact Hc.
    split; [exact Hc | reflexivity]. }
  set (w3 := if b then setupConversation w2 else w2) in *. clearbody w3.
  destruct H3 as [Hc3 Hv3].
  destruct (World.chat (saveState w3)).
  - cbn [saveState with_storage World.chatHistoryElement]. now rewrite Hv3.
  - rewrite view_setupConversation by exact Hc3.
    cbn [saveState with_storage World.chatHistoryElement]. now rewrite Hv3.
Qed.

Lemma sendStart_facts tId tCreated w :
  takesMessage w = true ->
  World.ai (sendStart tId tCreated w) = true /\
  World.chatsCreateOk (sendStart tId tCreated w) = World.chatsCreateOk w /\
  World.chat (sendStart tId tCreated w) = World.chat w /\
  World.chatHistoryElement (sendStart tId tCreated w) = World.chatHistoryElement w /\
  AppState.activeConversationId (World.state (sendStart tId tCreated w))
  = Some (sendTarget tId w) /\
  truthy (sendTarget tId w) = true /\
  exists c,
    rec_read (AppState.conversations (World.state (sendStart tId tCreated w)))
             (sendTarget tId w) = Some c /\
    Conversation.history c = historyAtSend w.
Proof.
  intros Htakes. unfold takesMessage in Htakes.
  apply andb_true_iff in Htakes as [Hai Hconv].
  unfold sendStart, sendTarget, historyAtSend, historyOf.
  destruct (AppState.activeConversationId (World.state w)) as [a|] eqn:Ha;
    cbn [isSet keyOf] in *.
  - destruct (truthy a) eqn:Ht; cbn [negb orb] in Hconv.
    + destruct (rec_read (AppState.conversations (World.state w)) a) as [c|] eqn:Hc;
        [|discriminate].
      repeat split; auto. exists c. split; reflexivity.
    + repeat split; auto. eexists. split; [apply startNewChat_read | reflexivity].
  - repeat split; auto. eexists. split; [apply startNewChat_read | reflexivity].
Qed.

Lemma handleFormSubmit_from_start input tId tCreated reply w :
  truthy (Str.trim input) = true ->
  takesMessage w = true ->
  handleFormSubmit input tId tCreated reply w
  = let w5 := atSend (Str.trim input) (sendTarget tId w)
                     (Nat.eqb (List.length (historyAtSend w)) 0)
                     (sendStart tId tCreated w) in
    match World.chat w5, reply with
    | None, _ => Some (appendMessage model ERROR_REPLY None w5)
    | Some _, SendRejected => Some (appendMessage model ERROR_REPLY None w5)
    | Some _, Streamed chunks false =>
        Some (appendMessage model ERROR_REPLY None
                (appendMessage model (transientBody chunks) None w5))
    | Some _, Streamed chunks true =>
        let r := receiveAll chunks in
        let w6 := appendMessage model (Reply.modelResponse r)
                                (Some (Reply.groundingChunks r)) w5 in
        let w7 := pushHistory (sendTarget tId w)
                    (HistoryEntry.mk model (Reply.modelResponse r)
                                     (Some (Reply.groundingChunks r))) w6 in
        let w8 := if Nat.eqb (List.length (historyAtSend w)) 0
                  then fire (TitleSynthesis (sendTarget tId w)) w7 else w7 in
        Some (fire (TaskSuggestion (sendTarget tId w)) (saveState w8))
    end.
Proof.
  intros Hmsg Htakes.
  destruct (sendStart_facts tId tCreated w Htakes)
    as (_ & _ & _ & _ & _ & _ & c & Hc & Hhist).
  unfold takesMessage in Htakes. apply andb_true_iff in Htakes as [Hai _].
  unfold handleFormSubmit. rewrite Hmsg, Hai. cbn [negb orb].
  assert (Hpair :
    match AppState.activeConversationId (World.state w) with
    | Some a => if truthy a then (a, w) else startNewChat false tId tCreated w
    | None => startNewChat false tId tCreated w
    end = (sendTarget tId w, sendStart tId tCreated w)).
  { unfold sendTarget, sendStart.
    destruct (AppState.activeConversationId (World.state w)) as [a|];
      [destruct (truthy a)|]; reflexivity. }
  rewrite Hpair, Hc, Hhist. reflexivity.
Qed.

(** X21. What is on screen after a message is what is stored.  Where a
    session can be created, after [handleFormSubmit] has run, whatever the
    backend did, rendering the page again shows exactly the history of the
    conversation, message for message: the error message and the
    unfinished text of a failed reply are gone.  After a reply that
    completed, rendering again changes nothing in a chat area that showed
    the history before the message. *)
Theorem rerender_shows_history input tId tCreated reply w :
  truthy (Str.trim input) = true ->
  takesMessage w = true ->
  World.chatsCreateOk w = true ->
  exists w',
    handleFormSubmit input tId tCreated reply w = Some w' /\
    World.chatHistoryElement (renderApp w')
    = map messageOf (historyOf w' (sendTarget tId w)) /\
    (World.chatHistoryElement w = map messageOf (historyAtSend w) ->
     forall chunks, reply = Streamed chunks true ->
     World.chatHistoryElement w' = World.chatHistoryElement (renderApp w')).
Proof.
  intros Hmsg Htakes Hok.
  rewrite (handleFormSubmit_from_start _ _ _ _ _ Hmsg Htakes). cbv zeta.
  destruct (sendStart_facts tId tCreated w Htakes)
    as (Hai0 & Hok0 & Hchat0 & Hview0 & Hactive0 & Hid & c & Hc & Hhist).
  rewrite Hok in Hok0.
  set (cid := sendTarget tId w) in *.
  set (msg := Str.trim input) in *.
  set (b := Nat.eqb (List.length (historyAtSend w)) 0).
  set (w0 := sendStart tId tCreated w) in *.
  pose proof (atSend_state msg cid b w0) as Hst5.
  destruct (atSend_page msg cid b w0) as [Hai5 Hok5]. rewrite Hok0 in Hok5.
  pose proof (atSend_view msg cid b w0 Hok0) as Hview5.
  assert (Hchat5 : World.chat (atSend msg cid b w0) <> None).
  { apply (atSend_chat _ _ _ _ c); auto.
    - rewrite Hactive0. reflexivity.
    - rewrite Hok0. apply orb_true_r. }
  set (w5 := atSend msg cid b w0) in *.
  assert (Hc5 : rec_read (AppState.conversations (World.state w5)) cid
                = Some (Conversation.mk (Conversation.id c) (Conversation.title c)
                          (Conversation.history c ++ [HistoryEntry.mk user msg None])
                          (Conversation.customInstructions c) (Conversation.createdAt c)))
    by (rewrite Hst5; now apply pushHistory_read).
  assert (Hactive5 : AppState.activeConversationId (World.state w5) = Some cid)
    by (rewrite Hst5, pushHistory_active; exact Hactive0).
  clearbody w5.
  assert (Hsame : forall v,
            World.state v = World.state w5 -> World.chatsCreateOk v = true ->
            World.chatHistoryElement (renderApp v) = map messageOf (historyOf v cid)).
  { intros v Hv Hvok. unfold historyOf. rewrite Hv, Hc5.
    apply (view_renderApp v cid); auto; now rewrite Hv. }
  destruct (World.chat w5) as [session|]; [|contradiction].
  destruct reply as [|chunks [|]].
  - eexists. split; [reflexivity|]. split; [now apply Hsame|].
    intros _ chunks [=].
  - set (r := receiveAll chunks).
    set (e := HistoryEntry.mk model (Reply.modelResponse r) (Some (Reply.groundingChunks r))).
    set (w6 := appendMessage model (Reply.modelResponse r)
                             (Some (Reply.groundingChunks r)) w5).
    assert (Hc6 : rec_read (AppState.conversations (World.state w6)) cid = _) by exact Hc5.
    pose proof (pushHistory_read cid e w6 _ Hc6) as Hc7.
    cbn [Conversation.id Conversation.title Conversation.history
         Conversation.customInstructions Conversation.createdAt] in Hc7.
    assert (Hactive7 : AppState.activeConversationId (World.state (pushHistory cid e w6))
                       = Some cid)
      by (rewrite pushHistory_active; exact Hactive5).
    assert (Hok7 : World.chatsCreateOk (pushHistory cid e w6) = true)
      by (destruct (pushHistory_page cid e w6) as (_ & _ & ->); exact Hok5).
    assert (Hview7 : World.chatHistoryElement (pushHistory cid e w6)
                     = World.chatHistoryElement w0
                       ++ [messageOf (HistoryEntry.mk user msg None); messageOf e])
      by (rewrite pushHistory_shown; unfold w6; rewrite appendMessage_messageOf, Hview5,
            <- app_assoc; reflexivity).
    set (w7 := pushHistory cid e w6) in *. clearbody w7.
    set (w' := fire (TaskSuggestion cid)
                 (saveState (if b then fire (TitleSynthesis cid) w7 else w7))).
    assert (Hst' : World.state w' = World.state w7) by (unfold w'; now destruct b).
    assert (Hok' : World.chatsCreateOk w' = true) by (unfold w'; now destruct b).
    assert (Hview' : World.chatHistoryElement w' = World.chatHistoryElement w7)
      by (unfold w'; now destruct b).
    exists w'. split; [reflexivity|].
    assert (Hrender : World.chatHistoryElement (renderApp w')
                      = map messageOf (historyOf w' cid)).
    { unfold historyOf. rewrite Hst', Hc7.
      apply (view_renderApp w' cid); auto; now rewrite Hst'. }
    split; [exact Hrender|].
    intros Hshown _ _. rewrite Hrender, Hview', Hview7, Hview0, Hshown.
    unfold historyOf. rewrite Hst', Hc7. cbn [Conversation.history].
    rewrite Hhist, !map_app, <- app_assoc. reflexivity.
  - eexists. split; [reflexivity|]. split; [now apply Hsame|].
    intros _ chunks' [=].
Qed.

Lemma rerender_shows_history_witness :
  exists w',
    handleFormSubmit (js "hi") 9 9 (Streamed [chunkOf (js "Hel") None] false) freshWorld
    = Some w' /\
    World.chatHistoryElement (renderApp w')
    = map messageOf (historyOf w' (sendTarget 9 freshWorld)).
Proof.
  destruct (rerender_shows_history (js "hi") 9 9 (Streamed [chunkOf (js "Hel") None] false)
              freshWorld eq_refl eq_refl eq_refl) as (w' & Hrun & Hview & _).
  exists w'. split; [exact Hrun | exact Hview].
Defined.

(** ** Conversations over a run *)

Lemma extends_refl c : extends c c.
Proof. repeat split. exists []. now rewrite app_nil_r. Qed.

Lemma extends_trans a b c : extends a b -> extends b c -> extends a c.
Proof.
  intros (Hi & Hc & Ht & l & Hl) (Hi' & Hc' & Ht' & l' & Hl').
  repeat split; try congruence.
  exists (l ++ l'). now rewrite Hl', Hl, app_assoc.
Qed.

Lemma conversationOf_frame id w w' :
  AppState.conversations (World.state w') = AppState.conversations (World.state w) ->
  AppState.archivedConversations (World.state w')
  = AppState.archivedConversations (World.state w) ->
  conversationOf w' id = conversationOf w id.
Proof. unfold conversationOf, inArchived. now intros -> ->. Qed.

Lemma conversationOf_set id c w w' k c1 :
  AppState.archivedConversations (World.state w')
  = AppState.archivedConversations (World.state w) ->
  AppState.conversations (World.state w')
  = rec_set (AppState.conversations (World.state w)) k (Some c1) ->
  (k = id -> exists c0,
     rec_read (AppState.conversations (World.state w)) id = Some c0 /\ extends c0 c1) ->
  (exists c', conversationOf w id = Some c' /\ extends c c') ->
  exists c', conversationOf w' id = Some c' /\ extends c c'.
Proof.
  intros Harch Hconv Hsame (c' & Hc' & Hext).
  unfold conversationOf, inArchived in *. rewrite Harch, Hconv.
  destruct (rec_has (AppState.archivedConversations (World.state w)) id);
    [now exists c'|].
  destruct (jsstring_eqb k id) eqn:E.
  - apply jsstring_eqb_eq in E. subst k.
    destruct (Hsame eq_refl) as (c0 & Hc0 & Hext0).
    exists c1. split; [unfold rec_read; now rewrite rec_get_set_same|].
    apply (extends_trans c c0 c1); [congruence | exact Hext0].
  - exists c'. split; [|exact Hext]. unfold rec_read in *.
    rewrite rec_get_set_other; [exact Hc'|].
    intros ->. now rewrite jsstring_eqb_refl in E.
Qed.

Lemma conversationOf_pushHistory id c cid e w :
  (exists c', conversationOf w id = Some c' /\ extends c c') ->
  exists c', conversationOf (pushHistory cid e w) id = Some c' /\ extends c c'.
Proof.
  intros H. unfold pushHistory.
  destruct (rec_read (AppState.conversations (World.state w)) cid) as [c0|] eqn:Hc0;
    [|exact H].
  eapply (conversationOf_set id c w); [reflexivity | reflexivity | | exact H].
  intros ->. exists c0. split; [exact Hc0|].
  repeat split. now exists [e].
Qed.

Lemma conversationOf_startNewChat id c tId tCreated w :
  js "convo_" ++ decimal tId <> id ->
  (exists c', conversationOf w id = Some c' /\ extends c c') ->
  exists c', conversationOf (snd (startNewChat false tId tCreated w)) id = Some c'
             /\ extends c c'.
Proof.
  intros Hne H.
  eapply (conversationOf_set id c w); [reflexivity | reflexivity | | exact H].
  intros Heq. now destruct Hne.
Qed.

Lemma conversationOf_toggleArchive id id' w :
  conversationOf (toggleArchiveConversation id' w) id = conversationOf w id.
Proof.
  unfold conversationOf, inArchived, toggleArchiveConversation.
  rewrite state_renderApp. cbn [World.state saveState with_storage with_state].
  destruct (rec_has (AppState.archivedConversations (World.state w)) id') eqn:Harch.
  - assert (E : forall st,
              AppState.archivedConversations
                (if negb (isSet (AppState.activeConversationId st))
                 then with_activeConversationId (Some id') st else st)
              = AppState.archivedConversations st /\
              AppState.conversations
                (if negb (isSet (AppState.activeConversationId st))
                 then with_activeConversationId (Some id') st else st)
              = AppState.conversations st)
      by (intros st; destruct (negb _); split; reflexivity).
    rewrite (proj1 (E _)), (proj2 (E _)).
    cbn [AppState.archivedConversations AppState.conversations
         with_conversations with_archivedConversations].
    rewrite rec_has_delete.
    destruct (jsstring_eqb id' id) eqn:Eid; cbn [negb andb].
    + apply jsstring_eqb_eq in Eid. subst id'. rewrite Harch.
      unfold rec_read at 1. now rewrite rec_get_set_same.
    + assert (Hne : id' <> id) by (intros ->; now rewrite jsstring_eqb_refl in Eid).
      unfold rec_read. rewrite rec_get_delete_other, rec_get_set_other by exact Hne.
      reflexivity.
  - assert (E : forall st,
              AppState.archivedConversations
                (if sameId (AppState.activeConversationId st) id'
                 then with_activeConversationId (firstKey (AppState.conversations st)) st
                 else st)
              = AppState.archivedConversations st /\
              AppState.conversations
                (if sameId (AppState.activeConversationId st) id'
                 then with_activeConversationId (firstKey (AppState.conversations st)) st
                 else st)
              = AppState.conversations st)
      by (intros st; destruct (sameId _ _); split; reflexivity).
    rewrite (proj1 (E _)), (proj2 (E _)).
    cbn [AppState.archivedConversations AppState.conversations
         with_conversations with_archivedConversations].
    rewrite rec_has_set.
    destruct (jsstring_eqb id' id) eqn:Eid; cbn [orb].
    + apply jsstring_eqb_eq in Eid. subst id'. rewrite Harch.
      unfold rec_read at 1. now rewrite rec_get_set_same.
    + assert (Hne : id' <> id) by (intros ->; now rewrite jsstring_eqb_refl in Eid).
      unfold rec_read. rewrite rec_get_delete_other, rec_get_set_other by exact Hne.
      reflexivity.
Qed.

Lemma conversationOf_delete id id' isArchived w :
  id' <> id ->
  conversationOf (deleteConversation id' isArchived true w) id = conversationOf w id.
Proof.
  intros Hne. unfold conversationOf, inArchived, deleteConversation. cbn [negb].
  rewrite state_renderApp. cbn [World.state saveState with_storage with_state].
  assert (Eid : jsstring_eqb id' id = false) by now apply jsstring_eqb_neq.
  destruct isArchived.
  - destruct (sameId _ id');
      cbn [AppState.archivedConversations AppState.conversations
           with_activeConversationId with_archivedConversations];
      rewrite rec_has_delete, Eid; cbn [negb andb];
      unfold rec_read; now rewrite rec_get_delete_other.
  - destruct (sameId _ id');
      cbn [AppState.archivedConversations AppState.conversations
           with_activeConversationId with_conversations];
      unfold rec_read; now rewrite rec_get_delete_other.
Qed.

Lemma conversationOf_dispatch id c a w w1 :
  keeps id a ->
  dispatch a w = Some w1 ->
  (exists c', conversationOf w id = Some c' /\ extends c c') ->
  exists c', conversationOf w1 id = Some c' /\ extends c c'.
Proof.
  intros Hkeep Hstep H.
  assert (Hframe : forall v,
            AppState.conversations (World.state v) = AppState.conversations (World.state w) ->
            AppState.archivedConversations (World.state v)
            = AppState.archivedConversations (World.state w) ->
            exists c', conversationOf v id = Some c' /\ extends c c')
    by (intros v Hc Ha; now rewrite (conversationOf_frame id w v Hc Ha)).
  destruct a; unfold dispatch in Hstep; unfold keeps in Hkeep;
    try (injection Hstep as <-).
  - destruct (conversationOf_startNewChat id c tId tCreated w Hkeep H) as (c' & Hc' & Hext).
    exists c'. split; [|exact Hext].
    rewrite (conversationOf_frame id (snd (startNewChat false tId tCreated w)) _);
      [exact Hc' | |]; rewrite state_renderApp; reflexivity.
  - apply Hframe; unfold selectConversation; destruct (sameId _ _); try reflexivity;
      now rewrite state_renderApp.
  - destruct confirmed.
    + rewrite conversationOf_delete; [exact H|].
      destruct Hkeep as [Hno|Hne]; [discriminate | exact Hne].
    + exact H.
  - now rewrite conversationOf_toggleArchive.
  - apply (handleFormSubmit_preserves
             (fun v => exists c', conversationOf v id = Some c' /\ extends c c')
             input tId tCreated reply w w1); auto.
    + intros v v' Hv (c' & Hc' & Hext). exists c'. split; [|exact Hext].
      rewrite <- Hc'. apply conversationOf_frame; now rewrite Hv.
    + intros cid e v Hv. now apply conversationOf_pushHistory.
    + intros Hw. now apply conversationOf_startNewChat.
  - unfold generateConversationTitle.
    destruct (rec_read (AppState.conversations (World.state w)) convoId) as [convo|] eqn:Hc;
      [|exact H].
    destruct (Nat.ltb _ 2); [exact H|]. destruct response as [text|]; [|exact H].
    eapply (conversationOf_set id c w); [reflexivity | reflexivity | | exact H].
    intros ->. exists convo. split; [exact Hc|].
    repeat split. exists []. cbn. now rewrite app_nil_r.
  - apply Hframe; unfold handleTaskFormSubmit; frame_cases.
  - apply Hframe; unfold handleDeleteTask; frame_cases.
  - apply Hframe; unfold subtaskCheckboxChange; frame_cases.
  - apply Hframe; unfold saveSettings; cbn [World.state showNotification with_toasts];
      rewrite state_renderApp; reflexivity.
  - now apply Hframe.
Qed.

(** X22. Messages are not lost or rewritten.  Over any run of handlers that
    does not delete a conversation and makes no new one under its id, the
    conversation stays in the store, in one partition or the other, with
    its id, custom instructions and creation time, and its history after
    the run starts with its history before: entries are only added at the
    end. *)
Theorem history_append_only id actions w w' c :
  Forall (keeps id) actions ->
  run actions w = Some w' ->
  conversationOf w id = Some c ->
  exists c', conversationOf w' id = Some c' /\ extends c c'.
Proof.
  intros Hkeeps Hrun Hc.
  assert (H : exists c', conversationOf w id = Some c' /\ extends c c')
    by (exists c; split; [exact Hc | apply extends_refl]).
  clear Hc. revert w Hrun H.
  induction Hkeeps as [|a rest Ha Hrest IH]; intros w Hrun H; cbn [run] in Hrun.
  - now injection Hrun as <-.
  - destruct (dispatch a w) as [w1|] eqn:Hstep; [|discriminate].
    apply (IH w1 Hrun). now apply (conversationOf_dispatch id c a w w1).
Qed.

Lemma history_append_only_witness :
  exists c',
    conversationOf
      (toggleArchiveConversation (js "convo_1")
         (generateConversationTitle (js "convo_1") (Some (js "Greeting"))
                                    afterFirstExchange))
      (js "convo_1") = Some c' /\
    exists later,
      Conversation.history c'
      = [HistoryEntry.mk user (js "hi") None;
         HistoryEntry.mk model (js "Hello!") (Some [])] ++ later.
Proof.
  destruct (history_append_only (js "convo_1")
              [TitleReply (js "convo_1") (Some (js "Greeting"));
               ToggleArchive (js "convo_1")]
              afterFirstExchange
              (toggleArchiveConversation (js "convo_1")
                 (generateConversationTitle (js "convo_1") (Some (js "Greeting"))
                                            afterFirstExchange))
              (Conversation.mk (js "convo_1") (js "New Chat")
                 [HistoryEntry.mk user (js "hi") None;
                  HistoryEntry.mk model (js "Hello!") (Some [])]
                 [] 1))
    as (c' & Hc' & _ & _ & _ & later & Hlater).
  - repeat constructor.
  - reflexivity.
  - reflexivity.
  - exists c'. split; [exact Hc'|]. exists later. exact Hlater.
Defined.
